(** * JobScraper: extraction and normalisation pipeline

    A shallow embedding of the [JobScraper] class (API-based job scraper)
    and the properties of its per-document pipeline: relative-time tokens,
    the recency window, record validation, location parsing, the local
    time format, fingerprints and in-batch deduplication.

    Modelling conventions.
    - A JavaScript string is the list of its UTF-16 code units ([jsstring]);
      [length], [includes], [split], [substring] and [trim] act on code
      units exactly as in the language.
    - A JavaScript number is a double ([JsNumber.number]): what [parseInt]
      and [Number] return is rounded as the language rounds it, and
      comparisons are those of doubles.  Counts, indices and the fields of
      a date are integers ([nat], [Z]).
    - [this] of the class is an explicit record threaded through the
      methods that assign to its fields.
    - The clock ([new Date()]), the local time zone, the environment
      variable [MAX_HOURS] and the DOM library are inputs of the model. *)

From Stdlib Require Import ZArith NArith List Bool Lia String Ascii QArith.
Import ListNotations.
Close Scope Q_scope.

Set Implicit Arguments.

(** ** Strings as lists of code units *)

Module JsString.

Abbreviation codeUnit := N (only parsing).
Abbreviation jsstring := (list N) (only parsing).

(** Literals: an ASCII literal of the source, one code unit per character. *)
Definition js (s : string) : jsstring :=
  map N_of_ascii (list_ascii_of_string s).

Definition unit_eqb (a b : codeUnit) : bool := N.eqb a b.

Fixpoint jseqb (a b : jsstring) : bool :=
  match a, b with
  | [], [] => true
  | x :: a', y :: b' => unit_eqb x y && jseqb a' b'
  | _, _ => false
  end.

(** [\d] of a regular expression without the [u] flag. *)
Definition isDigit (c : codeUnit) : bool := ((48 <=? c) && (c <=? 57))%N.

(** [\s] of a regular expression, which is also what [trim] strips:
    WhiteSpace and LineTerminator code units. *)
Definition isSpace (c : codeUnit) : bool :=
  (((9 <=? c) && (c <=? 13)) || (c =? 32) || (c =? 160) || (c =? 5760)
   || ((8192 <=? c) && (c <=? 8202)) || (c =? 8232) || (c =? 8233)
   || (c =? 8239) || (c =? 8287) || (c =? 12288) || (c =? 65279))%N.

Definition isHighSurrogate (c : codeUnit) : bool :=
  ((55296 <=? c) && (c <=? 56319))%N.
Definition isLowSurrogate (c : codeUnit) : bool :=
  ((56320 <=? c) && (c <=? 57343))%N.

(** Case folding of the [i] flag (no [u] flag) against an ASCII letter of
    the pattern: only the two ASCII cases of the letter match. *)
Definition foldAscii (c : codeUnit) : codeUnit :=
  (if (65 <=? c) && (c <=? 90) then c + 32 else c)%N.

Fixpoint startsWith (pre s : jsstring) : bool :=
  match pre, s with
  | [], _ => true
  | p :: pre', c :: s' => unit_eqb p c && startsWith pre' s'
  | _ :: _, [] => false
  end.

(** Prefix test under the [i] flag; [pre] is a lower-case ASCII literal. *)
Fixpoint startsWith_ci (pre s : jsstring) : bool :=
  match pre, s with
  | [], _ => true
  | p :: pre', c :: s' => unit_eqb p (foldAscii c) && startsWith_ci pre' s'
  | _ :: _, [] => false
  end.

(** [s.includes(needle)] *)
Fixpoint includes (s needle : jsstring) : bool :=
  startsWith needle s ||
  match s with
  | [] => false
  | _ :: s' => includes s' needle
  end.

Fixpoint takeWhile (p : codeUnit -> bool) (s : jsstring) : jsstring :=
  match s with
  | c :: s' => if p c then c :: takeWhile p s' else []
  | [] => []
  end.

Fixpoint dropWhile (p : codeUnit -> bool) (s : jsstring) : jsstring :=
  match s with
  | c :: s' => if p c then dropWhile p s' else s
  | [] => []
  end.

(** [s.trim()] *)
Definition trimStart (s : jsstring) : jsstring := dropWhile isSpace s.
Definition trimEnd (s : jsstring) : jsstring := rev (dropWhile isSpace (rev s)).
Definition trim (s : jsstring) : jsstring := trimEnd (trimStart s).

(** [s.split(sep)] for a separator of one code unit: the pieces between
    the occurrences of [sep], never an empty array. *)
Fixpoint split (sep : codeUnit) (s : jsstring) : list jsstring :=
  match s with
  | [] => [[]]
  | c :: s' =>
      if unit_eqb c sep then [] :: split sep s'
      else match split sep s' with
           | p :: ps => (c :: p) :: ps
           | [] => [[c]]
           end
  end.

(** The integer a run of decimal digits stands for. *)
Definition mathInt (ds : jsstring) : N :=
  fold_left (fun acc d => 10 * acc + (d - 48))%N ds 0%N.

(** [String(n)] for a natural number. *)
Fixpoint digitsOf (fuel : nat) (n : N) (acc : jsstring) : jsstring :=
  match fuel with
  | O => acc
  | S fuel' =>
      let acc' := (48 + n mod 10)%N :: acc in
      if (n / 10 =? 0)%N then acc' else digitsOf fuel' (n / 10)%N acc'
  end.

Definition N_toString (n : N) : jsstring :=
  digitsOf (S (N.to_nat (N.log2 n))) n [].

(** [String(z)] for an integer. *)
Definition Z_toString (z : Z) : jsstring :=
  match z with
  | Zneg p => js "-" ++ N_toString (Npos p)
  | _ => N_toString (Z.to_N z)
  end.

(** [s.padStart(n, '0')] *)
Definition padStart (n : nat) (s : jsstring) : jsstring :=
  repeat 48%N (n - List.length s) ++ s.

End JsString.
Import JsString.

(** ** Case conversion

    [toLowerCase] of a string is the lower case of its code points by the
    Unicode Character Database (version 14.0): the lowercase mapping of
    each code point, the two code points of U+0130, and U+03A3 by the
    condition Final_Sigma.  The tables list ranges of code points. *)

Module Unicode.
Local Open Scope N_scope.

(** [(first, last, step, lower)]: the code points [first], [first + step],
    ..., [last]; the lower case of [first + k] is [lower + k]. *)
Definition lowercaseMapping : list (N * N * N * N) :=
  [(65, 90, 1, 97); (192, 214, 1, 224); (216, 222, 1, 248);
   (256, 302, 2, 257); (306, 310, 2, 307); (313, 327, 2, 314);
   (330, 374, 2, 331); (376, 376, 1, 255); (377, 381, 2, 378);
   (385, 385, 1, 595); (386, 388, 2, 387); (390, 390, 1, 596);
   (391, 391, 1, 392); (393, 394, 1, 598); (395, 395, 1, 396);
   (398, 398, 1, 477); (399, 399, 1, 601); (400, 400, 1, 603);
   (401, 401, 1, 402); (403, 403, 1, 608); (404, 404, 1, 611);
   (406, 406, 1, 617); (407, 407, 1, 616); (408, 408, 1, 409);
   (412, 412, 1, 623); (413, 413, 1, 626); (415, 415, 1, 629);
   (416, 420, 2, 417); (422, 422, 1, 640); (423, 423, 1, 424);
   (425, 425, 1, 643); (428, 428, 1, 429); (430, 430, 1, 648);
   (431, 431, 1, 432); (433, 434, 1, 650); (435, 437, 2, 436);
   (439, 439, 1, 658); (440, 440, 1, 441); (444, 444, 1, 445);
   (452, 452, 1, 454); (453, 453, 1, 454); (455, 455, 1, 457);
   (456, 456, 1, 457); (458, 458, 1, 460); (459, 475, 2, 460);
   (478, 494, 2, 479); (497, 497, 1, 499); (498, 500, 2, 499);
   (502, 502, 1, 405); (503, 503, 1, 447); (504, 542, 2, 505);
   (544, 544, 1, 414); (546, 562, 2, 547); (570, 570, 1, 11365);
   (571, 571, 1, 572); (573, 573, 1, 410); (574, 574, 1, 11366);
   (577, 577, 1, 578); (579, 579, 1, 384); (580, 580, 1, 649);
   (581, 581, 1, 652); (582, 590, 2, 583); (880, 882, 2, 881);
   (886, 886, 1, 887); (895, 895, 1, 1011); (902, 902, 1, 940);
   (904, 906, 1, 941); (908, 908, 1, 972); (910, 911, 1, 973);
   (913, 929, 1, 945); (932, 939, 1, 964); (975, 975, 1, 983);
   (984, 1006, 2, 985); (1012, 1012, 1, 952); (1015, 1015, 1, 1016);
   (1017, 1017, 1, 1010); (1018, 1018, 1, 1019); (1021, 1023, 1, 891);
   (1024, 1039, 1, 1104); (1040, 1071, 1, 1072); (1120, 1152, 2, 1121);
   (1162, 1214, 2, 1163); (1216, 1216, 1, 1231); (1217, 1229, 2, 1218);
   (1232, 1326, 2, 1233); (1329, 1366, 1, 1377); (4256, 4293, 1, 11520);
   (4295, 4295, 1, 11559); (4301, 4301, 1, 11565); (5024, 5103, 1, 43888);
   (5104, 5109, 1, 5112); (7312, 7354, 1, 4304); (7357, 7359, 1, 4349);
   (7680, 7828, 2, 7681); (7838, 7838, 1, 223); (7840, 7934, 2, 7841);
   (7944, 7951, 1, 7936); (7960, 7965, 1, 7952); (7976, 7983, 1, 7968);
   (7992, 7999, 1, 7984); (8008, 8013, 1, 8000); (8025, 8031, 2, 8017);
   (8040, 8047, 1, 8032); (8072, 8079, 1, 8064); (8088, 8095, 1, 8080);
   (8104, 8111, 1, 8096); (8120, 8121, 1, 8112); (8122, 8123, 1, 8048);
   (8124, 8124, 1, 8115); (8136, 8139, 1, 8050); (8140, 8140, 1, 8131);
   (8152, 8153, 1, 8144); (8154, 8155, 1, 8054); (8168, 8169, 1, 8160);
   (8170, 8171, 1, 8058); (8172, 8172, 1, 8165); (8184, 8185, 1, 8056);
   (8186, 8187, 1, 8060); (8188, 8188, 1, 8179); (8486, 8486, 1, 969);
   (8490, 8490, 1, 107); (8491, 8491, 1, 229); (8498, 8498, 1, 8526);
   (8544, 8559, 1, 8560); (8579, 8579, 1, 8580); (9398, 9423, 1, 9424);
   (11264, 11311, 1, 11312); (11360, 11360, 1, 11361);
   (11362, 11362, 1, 619); (11363, 11363, 1, 7549); (11364, 11364, 1, 637);
   (11367, 11371, 2, 11368); (11373, 11373, 1, 593); (11374, 11374, 1, 625);
   (11375, 11375, 1, 592); (11376, 11376, 1, 594); (11378, 11378, 1, 11379);
   (11381, 11381, 1, 11382); (11390, 11391, 1, 575);
   (11392, 11490, 2, 11393); (11499, 11501, 2, 11500);
   (11506, 11506, 1, 11507); (42560, 42604, 2, 42561);
   (42624, 42650, 2, 42625); (42786, 42798, 2, 42787);
   (42802, 42862, 2, 42803); (42873, 42875, 2, 42874);
   (42877, 42877, 1, 7545); (42878, 42886, 2, 42879);
   (42891, 42891, 1, 42892); (42893, 42893, 1, 613);
   (42896, 42898, 2, 42897); (42902, 42920, 2, 42903);
   (42922, 42922, 1, 614); (42923, 42923, 1, 604); (42924, 42924, 1, 609);
   (42925, 42925, 1, 620); (42926, 42926, 1, 618); (42928, 42928, 1, 670);
   (42929, 42929, 1, 647); (42930, 42930, 1, 669); (42931, 42931, 1, 43859);
   (42932, 42946, 2, 42933); (42948, 42948, 1, 42900);
   (42949, 42949, 1, 642); (42950, 42950, 1, 7566); (42951, 42953, 2, 42952);
   (42960, 42960, 1, 42961); (42966, 42968, 2, 42967);
   (42997, 42997, 1, 42998); (65313, 65338, 1, 65345);
   (66560, 66599, 1, 66600); (66736, 66771, 1, 66776);
   (66928, 66938, 1, 66967); (66940, 66954, 1, 66979);
   (66956, 66962, 1, 66995); (66964, 66965, 1, 67003);
   (68736, 68786, 1, 68800); (71840, 71871, 1, 71872);
   (93760, 93791, 1, 93792); (125184, 125217, 1, 125218)].

(** The code points with the property Cased. *)
Definition casedRanges : list (N * N) :=
  [(65, 90); (97, 122); (170, 170); (181, 181); (186, 186); (192, 214);
   (216, 246); (248, 442); (444, 447); (452, 659); (661, 696); (704, 705);
   (736, 740); (837, 837); (880, 883); (886, 887); (890, 893); (895, 895);
   (902, 902); (904, 906); (908, 908); (910, 929); (931, 1013); (1015, 1153);
   (1162, 1327); (1329, 1366); (1376, 1416); (4256, 4293); (4295, 4295);
   (4301, 4301); (4304, 4346); (4349, 4351); (5024, 5109); (5112, 5117);
   (7296, 7304); (7312, 7354); (7357, 7359); (7424, 7615); (7680, 7957);
   (7960, 7965); (7968, 8005); (8008, 8013); (8016, 8023); (8025, 8025);
   (8027, 8027); (8029, 8029); (8031, 8061); (8064, 8116); (8118, 8124);
   (8126, 8126); (8130, 8132); (8134, 8140); (8144, 8147); (8150, 8155);
   (8160, 8172); (8178, 8180); (8182, 8188); (8305, 8305); (8319, 8319);
   (8336, 8348); (8450, 8450); (8455, 8455); (8458, 8467); (8469, 8469);
   (8473, 8477); (8484, 8484); (8486, 8486); (8488, 8488); (8490, 8493);
   (8495, 8500); (8505, 8505); (8508, 8511); (8517, 8521); (8526, 8526);
   (8544, 8575); (8579, 8580); (9398, 9449); (11264, 11492); (11499, 11502);
   (11506, 11507); (11520, 11557); (11559, 11559); (11565, 11565);
   (42560, 42605); (42624, 42653); (42786, 42887); (42891, 42894);
   (42896, 42954); (42960, 42961); (42963, 42963); (42965, 42969);
   (42997, 42998); (43000, 43002); (43824, 43866); (43868, 43880);
   (43888, 43967); (64256, 64262); (64275, 64279); (65313, 65338);
   (65345, 65370); (66560, 66639); (66736, 66771); (66776, 66811);
   (66928, 66938); (66940, 66954); (66956, 66962); (66964, 66965);
   (66967, 66977); (66979, 66993); (66995, 67001); (67003, 67004);
   (67456, 67456); (67459, 67461); (67463, 67504); (67506, 67514);
   (68736, 68786); (68800, 68850); (71840, 71903); (93760, 93823);
   (119808, 119892); (119894, 119964); (119966, 119967); (119970, 119970);
   (119973, 119974); (119977, 119980); (119982, 119993); (119995, 119995);
   (119997, 120003); (120005, 120069); (120071, 120074); (120077, 120084);
   (120086, 120092); (120094, 120121); (120123, 120126); (120128, 120132);
   (120134, 120134); (120138, 120144); (120146, 120485); (120488, 120512);
   (120514, 120538); (120540, 120570); (120572, 120596); (120598, 120628);
   (120630, 120654); (120656, 120686); (120688, 120712); (120714, 120744);
   (120746, 120770); (120772, 120779); (122624, 122633); (122635, 122654);
   (125184, 125251); (127280, 127305); (127312, 127337); (127344, 127369)].

(** The code points with the property Case_Ignorable. *)
Definition caseIgnorableRanges : list (N * N) :=
  [(39, 39); (46, 46); (58, 58); (94, 94); (96, 96); (168, 168); (173, 173);
   (175, 175); (180, 180); (183, 184); (688, 879); (884, 885); (890, 890);
   (900, 901); (903, 903); (1155, 1161); (1369, 1369); (1375, 1375);
   (1425, 1469); (1471, 1471); (1473, 1474); (1476, 1477); (1479, 1479);
   (1524, 1524); (1536, 1541); (1552, 1562); (1564, 1564); (1600, 1600);
   (1611, 1631); (1648, 1648); (1750, 1757); (1759, 1768); (1770, 1773);
   (1807, 1807); (1809, 1809); (1840, 1866); (1958, 1968); (2027, 2037);
   (2042, 2042); (2045, 2045); (2070, 2093); (2137, 2139); (2184, 2184);
   (2192, 2193); (2200, 2207); (2249, 2306); (2362, 2362); (2364, 2364);
   (2369, 2376); (2381, 2381); (2385, 2391); (2402, 2403); (2417, 2417);
   (2433, 2433); (2492, 2492); (2497, 2500); (2509, 2509); (2530, 2531);
   (2558, 2558); (2561, 2562); (2620, 2620); (2625, 2626); (2631, 2632);
   (2635, 2637); (2641, 2641); (2672, 2673); (2677, 2677); (2689, 2690);
   (2748, 2748); (2753, 2757); (2759, 2760); (2765, 2765); (2786, 2787);
   (2810, 2815); (2817, 2817); (2876, 2876); (2879, 2879); (2881, 2884);
   (2893, 2893); (2901, 2902); (2914, 2915); (2946, 2946); (3008, 3008);
   (3021, 3021); (3072, 3072); (3076, 3076); (3132, 3132); (3134, 3136);
   (3142, 3144); (3146, 3149); (3157, 3158); (3170, 3171); (3201, 3201);
   (3260, 3260); (3263, 3263); (3270, 3270); (3276, 3277); (3298, 3299);
   (3328, 3329); (3387, 3388); (3393, 3396); (3405, 3405); (3426, 3427);
   (3457, 3457); (3530, 3530); (3538, 3540); (3542, 3542); (3633, 3633);
   (3636, 3642); (3654, 3662); (3761, 3761); (3764, 3772); (3782, 3782);
   (3784, 3789); (3864, 3865); (3893, 3893); (3895, 3895); (3897, 3897);
   (3953, 3966); (3968, 3972); (3974, 3975); (3981, 3991); (3993, 4028);
   (4038, 4038); (4141, 4144); (4146, 4151); (4153, 4154); (4157, 4158);
   (4184, 4185); (4190, 4192); (4209, 4212); (4226, 4226); (4229, 4230);
   (4237, 4237); (4253, 4253); (4348, 4348); (4957, 4959); (5906, 5908);
   (5938, 5939); (5970, 5971); (6002, 6003); (6068, 6069); (6071, 6077);
   (6086, 6086); (6089, 6099); (6103, 6103); (6109, 6109); (6155, 6159);
   (6211, 6211); (6277, 6278); (6313, 6313); (6432, 6434); (6439, 6440);
   (6450, 6450); (6457, 6459); (6679, 6680); (6683, 6683); (6742, 6742);
   (6744, 6750); (6752, 6752); (6754, 6754); (6757, 6764); (6771, 6780);
   (6783, 6783); (6823, 6823); (6832, 6862); (6912, 6915); (6964, 6964);
   (6966, 6970); (6972, 6972); (6978, 6978); (7019, 7027); (7040, 7041);
   (7074, 7077); (7080, 7081); (7083, 7085); (7142, 7142); (7144, 7145);
   (7149, 7149); (7151, 7153); (7212, 7219); (7222, 7223); (7288, 7293);
   (7376, 7378); (7380, 7392); (7394, 7400); (7405, 7405); (7412, 7412);
   (7416, 7417); (7468, 7530); (7544, 7544); (7579, 7679); (8125, 8125);
   (8127, 8129); (8141, 8143); (8157, 8159); (8173, 8175); (8189, 8190);
   (8203, 8207); (8216, 8217); (8228, 8228); (8231, 8231); (8234, 8238);
   (8288, 8292); (8294, 8303); (8305, 8305); (8319, 8319); (8336, 8348);
   (8400, 8432); (11388, 11389); (11503, 11505); (11631, 11631);
   (11647, 11647); (11744, 11775); (11823, 11823); (12293, 12293);
   (12330, 12333); (12337, 12341); (12347, 12347); (12441, 12446);
   (12540, 12542); (40981, 40981); (42232, 42237); (42508, 42508);
   (42607, 42610); (42612, 42621); (42623, 42623); (42652, 42655);
   (42736, 42737); (42752, 42785); (42864, 42864); (42888, 42890);
   (42994, 42996); (43000, 43001); (43010, 43010); (43014, 43014);
   (43019, 43019); (43045, 43046); (43052, 43052); (43204, 43205);
   (43232, 43249); (43263, 43263); (43302, 43309); (43335, 43345);
   (43392, 43394); (43443, 43443); (43446, 43449); (43452, 43453);
   (43471, 43471); (43493, 43494); (43561, 43566); (43569, 43570);
   (43573, 43574); (43587, 43587); (43596, 43596); (43632, 43632);
   (43644, 43644); (43696, 43696); (43698, 43700); (43703, 43704);
   (43710, 43711); (43713, 43713); (43741, 43741); (43756, 43757);
   (43763, 43764); (43766, 43766); (43867, 43871); (43881, 43883);
   (44005, 44005); (44008, 44008); (44013, 44013); (64286, 64286);
   (64434, 64450); (65024, 65039); (65043, 65043); (65056, 65071);
   (65106, 65106); (65109, 65109); (65279, 65279); (65287, 65287);
   (65294, 65294); (65306, 65306); (65342, 65342); (65344, 65344);
   (65392, 65392); (65438, 65439); (65507, 65507); (65529, 65531);
   (66045, 66045); (66272, 66272); (66422, 66426); (67456, 67461);
   (67463, 67504); (67506, 67514); (68097, 68099); (68101, 68102);
   (68108, 68111); (68152, 68154); (68159, 68159); (68325, 68326);
   (68900, 68903); (69291, 69292); (69446, 69456); (69506, 69509);
   (69633, 69633); (69688, 69702); (69744, 69744); (69747, 69748);
   (69759, 69761); (69811, 69814); (69817, 69818); (69821, 69821);
   (69826, 69826); (69837, 69837); (69888, 69890); (69927, 69931);
   (69933, 69940); (70003, 70003); (70016, 70017); (70070, 70078);
   (70089, 70092); (70095, 70095); (70191, 70193); (70196, 70196);
   (70198, 70199); (70206, 70206); (70367, 70367); (70371, 70378);
   (70400, 70401); (70459, 70460); (70464, 70464); (70502, 70508);
   (70512, 70516); (70712, 70719); (70722, 70724); (70726, 70726);
   (70750, 70750); (70835, 70840); (70842, 70842); (70847, 70848);
   (70850, 70851); (71090, 71093); (71100, 71101); (71103, 71104);
   (71132, 71133); (71219, 71226); (71229, 71229); (71231, 71232);
   (71339, 71339); (71341, 71341); (71344, 71349); (71351, 71351);
   (71453, 71455); (71458, 71461); (71463, 71467); (71727, 71735);
   (71737, 71738); (71995, 71996); (71998, 71998); (72003, 72003);
   (72148, 72151); (72154, 72155); (72160, 72160); (72193, 72202);
   (72243, 72248); (72251, 72254); (72263, 72263); (72273, 72278);
   (72281, 72283); (72330, 72342); (72344, 72345); (72752, 72758);
   (72760, 72765); (72767, 72767); (72850, 72871); (72874, 72880);
   (72882, 72883); (72885, 72886); (73009, 73014); (73018, 73018);
   (73020, 73021); (73023, 73029); (73031, 73031); (73104, 73105);
   (73109, 73109); (73111, 73111); (73459, 73460); (78896, 78904);
   (92912, 92916); (92976, 92982); (92992, 92995); (94031, 94031);
   (94095, 94111); (94176, 94177); (94179, 94180); (110576, 110579);
   (110581, 110587); (110589, 110590); (113821, 113822); (113824, 113827);
   (118528, 118573); (118576, 118598); (119143, 119145); (119155, 119170);
   (119173, 119179); (119210, 119213); (119362, 119364); (121344, 121398);
   (121403, 121452); (121461, 121461); (121476, 121476); (121499, 121503);
   (121505, 121519); (122880, 122886); (122888, 122904); (122907, 122913);
   (122915, 122916); (122918, 122922); (123184, 123197); (123566, 123566);
   (123628, 123631); (125136, 125142); (125252, 125259); (127995, 127999);
   (917505, 917505); (917536, 917631); (917760, 917999)].

(** The lower case of a code point other than U+03A3 and U+0130. *)
Definition lowerIn (cp : N) (r : N * N * N * N) : option N :=
  let '(first, last, step, lower) := r in
  if (first <=? cp) && (cp <=? last) && ((cp - first) mod step =? 0)
  then Some (lower + (cp - first))
  else None.

Fixpoint lookup (cp : N) (table : list (N * N * N * N)) : option N :=
  match table with
  | [] => None
  | r :: rest =>
      match lowerIn cp r with
      | Some l => Some l
      | None => lookup cp rest
      end
  end.

Definition simpleLowercase (cp : N) : N :=
  match lookup cp lowercaseMapping with
  | Some l => l
  | None => cp
  end.

Definition inRanges (cp : N) (ranges : list (N * N)) : bool :=
  existsb (fun r => (fst r <=? cp) && (cp <=? snd r)) ranges.

Definition isCased (cp : N) : bool := inRanges cp casedRanges.
Definition isCaseIgnorable (cp : N) : bool := inRanges cp caseIgnorableRanges.

Definition capitalSigma : N := 931.
Definition finalSigma : N := 962.
Definition smallSigma : N := 963.
Definition capitalIWithDot : N := 304.

(** StringToCodePoints: a surrogate pair is one code point, a surrogate
    without its partner stands for itself. *)
Fixpoint codePoints (s : jsstring) : list N :=
  match s with
  | [] => []
  | c :: s' =>
      if isHighSurrogate c then
        match s' with
        | d :: s'' =>
            if isLowSurrogate d
            then (65536 + (c - 55296) * 1024 + (d - 56320)) :: codePoints s''
            else c :: codePoints s'
        | [] => [c]
        end
      else c :: codePoints s'
  end.

(** The code units of a code point. *)
Definition codeUnits (cp : N) : jsstring :=
  if cp <? 65536 then [cp]
  else [55296 + (cp - 65536) / 1024; 56320 + (cp - 65536) mod 1024].

(** The second half of the condition Final_Sigma: after any case-ignorable
    code points comes a cased letter. *)
Fixpoint beforeCased (rest : list N) : bool :=
  match rest with
  | [] => false
  | c :: rest' => if isCaseIgnorable c then beforeCased rest' else isCased c
  end.

(** The lower case of the code points [cps]; [afterCased] tells whether
    they are preceded by a cased letter and then case-ignorable code
    points only. *)
Fixpoint lowerFrom (afterCased : bool) (cps : list N) : list N :=
  match cps with
  | [] => []
  | c :: rest =>
      let lower :=
        if c =? capitalSigma
        then [if afterCased && negb (beforeCased rest) then finalSigma
              else smallSigma]
        else if c =? capitalIWithDot then [105; 775]
        else [simpleLowercase c] in
      lower ++ lowerFrom (if isCaseIgnorable c then afterCased else isCased c) rest
  end.

End Unicode.

(** [s.toLowerCase()] *)
Definition toLowerCase (s : jsstring) : jsstring :=
  flat_map Unicode.codeUnits (Unicode.lowerFrom false (Unicode.codePoints s)).

(** ** Numbers

    A Number is a double: NaN, an infinity, or a finite value, which is
    kept as the rational number it stands for, in lowest terms (the sign
    of zero is not kept).  [round] is the rounding of an exact value to a
    double: the nearest one, the even one of two nearest, an infinity
    from 2^1024 - 2^970 on.  The operations round their exact result. *)

Module JsNumber.
Local Open Scope Z_scope.

Inductive number :=
| NaN
| Finite (q : Q)
| PlusInfinity
| MinusInfinity.

(** The [e] with [2^e <= num/den < 2^(e+1)]. *)
Definition floorLog2 (num den : positive) : Z :=
  let l := Z.log2 (Zpos num) - Z.log2 (Zpos den) in
  if 0 <=? l
  then (if Zpos den * 2 ^ l <=? Zpos num then l else l - 1)
  else (if Zpos den <=? Zpos num * 2 ^ (- l) then l else l - 1).

(** The double nearest to [num/den]: an integer up to 2^53 is a double;
    otherwise the value is cut to 53 significant bits, [p] being the
    exponent of the last of them (-1074 at least). *)
Definition roundPositive (num den : positive) : number :=
  if (Zpos den =? 1) && (Zpos num <=? 2 ^ 53) then Finite (Zpos num # 1)
  else
    let e := floorLog2 num den in
    let p := Z.max (e - 52) (-1074) in
    let n := if 0 <=? p then Zpos num else Zpos num * 2 ^ (- p) in
    let d := if 0 <=? p then Zpos den * 2 ^ p else Zpos den in
    let m := n / d in
    let r := n mod d in
    let m' := if 2 * r <? d then m
              else if d <? 2 * r then m + 1
              else if Z.even m then m else m + 1 in
    if 0 <=? p
    then (if 2 ^ 1024 <=? m' * 2 ^ p then PlusInfinity
          else Finite (inject_Z (m' * 2 ^ p)))
    else Finite (Qred (m' # Z.to_pos (2 ^ (- p)))).

Definition neg (x : number) : number :=
  match x with
  | NaN => NaN
  | Finite q => Finite (Qopp q)
  | PlusInfinity => MinusInfinity
  | MinusInfinity => PlusInfinity
  end.

Definition round (q : Q) : number :=
  match Qnum q with
  | Z0 => Finite 0
  | Zpos n => roundPositive n (Qden q)
  | Zneg n => neg (roundPositive n (Qden q))
  end.

(** The Number of an integer of magnitude up to 2^53, which is a double. *)
Definition ofZ (z : Z) : number := Finite (inject_Z z).

(** [x + y] and [x - y] *)
Definition add (x y : number) : number :=
  match x, y with
  | NaN, _ | _, NaN => NaN
  | PlusInfinity, MinusInfinity | MinusInfinity, PlusInfinity => NaN
  | PlusInfinity, _ | _, PlusInfinity => PlusInfinity
  | MinusInfinity, _ | _, MinusInfinity => MinusInfinity
  | Finite a, Finite b => round (Qplus a b)
  end.

Definition sub (x y : number) : number := add x (neg y).

(** [x <= y], [x < y], [x > y], [x === y]: false when either is NaN. *)
Definition leb (x y : number) : bool :=
  match x, y with
  | NaN, _ | _, NaN => false
  | MinusInfinity, _ => true
  | _, PlusInfinity => true
  | Finite a, Finite b => Qle_bool a b
  | _, _ => false
  end.

Definition ltb (x y : number) : bool := leb x y && negb (leb y x).
Definition gtb (x y : number) : bool := ltb y x.
Definition eqb (x y : number) : bool := leb x y && leb y x.

(** ToIntegerOrInfinity of a finite number: the fraction is dropped.
    The functions of dates that use it return NaN for an argument that is
    not finite, which is [None] here. *)
Definition toInteger (x : number) : option Z :=
  match x with
  | Finite q => Some (Z.quot (Qnum q) (Zpos (Qden q)))
  | _ => None
  end.

End JsNumber.
Import JsNumber.

(** [parseInt] on a run of decimal digits: the double nearest to the
    integer they stand for. *)
Definition parseInt (ds : jsstring) : number :=
  round (inject_Z (Z.of_N (mathInt ds))).

(** ** Dates

    The time value of a [Date] is the number of milliseconds since the
    epoch, UTC; an invalid date (time value NaN) is [None].  The functions
    are those of the language definition (Day, TimeWithinDay, DayFromYear,
    YearFromTime, MonthFromTime, DateFromTime, MakeTime, MakeDay, MakeDate,
    TimeClip, LocalTime, UTC).  A setter or the constructor gets Numbers;
    a time value and the integers it is computed from are kept exactly,
    which is what the arithmetic of doubles gives while the values stay
    below 2^53, the range of the dates being 8.64e15 on either side. *)

Module JsDate.
Local Open Scope Z_scope.

Definition Date := option Z.

Definition msPerSecond := 1000.
Definition msPerMinute := 60000.
Definition msPerHour := 3600000.
Definition msPerDay := 86400000.

Definition TimeClip (t : Z) : Date :=
  if Z.abs t <=? 8640000000000000 then Some t else None.

Definition Day (t : Z) : Z := t / msPerDay.
Definition TimeWithinDay (t : Z) : Z := t mod msPerDay.

Definition isLeapYear (y : Z) : bool :=
  (y mod 4 =? 0) && (negb (y mod 100 =? 0) || (y mod 400 =? 0)).

Definition DaysInYear (y : Z) : Z := if isLeapYear y then 366 else 365.

Definition DayFromYear (y : Z) : Z :=
  365 * (y - 1970) + (y - 1969) / 4 - (y - 1901) / 100 + (y - 1601) / 400.

(** The largest year [y] with [DayFromYear y <= d]: the mean year length
    gives an estimate that is off by at most one year (the bounds are
    proved as [YearFromDay_spec]). *)
Definition YearFromDay (d : Z) : Z :=
  let y0 := 1970 + (400 * d) / 146097 in
  if d <? DayFromYear y0 then y0 - 1
  else if DayFromYear (y0 + 1) <=? d then y0 + 1
  else y0.

Definition YearFromTime (t : Z) : Z := YearFromDay (Day t).

Definition DayWithinYear (t : Z) : Z := Day t - DayFromYear (YearFromTime t).

Definition InLeapYear (t : Z) : Z :=
  if isLeapYear (YearFromTime t) then 1 else 0.

(** Day number, within its year, of the first day of month [m] (0-11). *)
Definition monthStart (leap m : Z) : Z :=
  match m with
  | 0 => 0 | 1 => 31 | 2 => 59 + leap | 3 => 90 + leap | 4 => 120 + leap
  | 5 => 151 + leap | 6 => 181 + leap | 7 => 212 + leap | 8 => 243 + leap
  | 9 => 273 + leap | 10 => 304 + leap | _ => 334 + leap
  end.

Definition monthOfDay (leap dwy : Z) : Z :=
  if dwy <? 31 then 0
  else if dwy <? 59 + leap then 1
  else if dwy <? 90 + leap then 2
  else if dwy <? 120 + leap then 3
  else if dwy <? 151 + leap then 4
  else if dwy <? 181 + leap then 5
  else if dwy <? 212 + leap then 6
  else if dwy <? 243 + leap then 7
  else if dwy <? 273 + leap then 8
  else if dwy <? 304 + leap then 9
  else if dwy <? 334 + leap then 10
  else 11.

Definition MonthFromTime (t : Z) : Z :=
  monthOfDay (InLeapYear t) (DayWithinYear t).

Definition DateFromTime (t : Z) : Z :=
  DayWithinYear t - monthStart (InLeapYear t) (MonthFromTime t) + 1.

Definition HourFromTime (t : Z) : Z := (t / msPerHour) mod 24.
Definition MinFromTime (t : Z) : Z := (t / msPerMinute) mod 60.
Definition SecFromTime (t : Z) : Z := (t / msPerSecond) mod 60.
Definition msFromTime (t : Z) : Z := t mod msPerSecond.

Definition MakeTime (hour min sec ms : Z) : Z :=
  hour * msPerHour + min * msPerMinute + sec * msPerSecond + ms.

Definition MakeDay (year month date : Z) : Z :=
  let ym := year + month / 12 in
  let mn := month mod 12 in
  DayFromYear ym + monthStart (if isLeapYear ym then 1 else 0) mn + date - 1.

Definition MakeDate (day time : Z) : Z := day * msPerDay + time.

(** The local time zone: [LocalTZA tz t isUTC] is the offset of local
    time from UTC, in milliseconds, at the instant [t] when [isUTC] is
    true, and at the local time [t] otherwise.  With daylight saving the
    offset changes from one time to another. *)
Record TimeZone := { LocalTZA : Z -> bool -> Z }.

(** A zone with one offset at all times; an offset is read as such a
    zone. *)
Definition fixedOffset (offset : Z) : TimeZone :=
  {| LocalTZA := fun _ _ => offset |}.
Coercion fixedOffset : Z >-> TimeZone.

Definition LocalTime (tz : TimeZone) (t : Z) : Z := t + LocalTZA tz t true.
Definition UTC (tz : TimeZone) (t : Z) : Z := t - LocalTZA tz t false.

(** Getters of a valid date, in local time. *)
Definition getFullYear (tz : TimeZone) (t : Z) : Z := YearFromTime (LocalTime tz t).
Definition getMonth (tz : TimeZone) (t : Z) : Z := MonthFromTime (LocalTime tz t).
Definition getDate (tz : TimeZone) (t : Z) : Z := DateFromTime (LocalTime tz t).
Definition getHours (tz : TimeZone) (t : Z) : Z := HourFromTime (LocalTime tz t).
Definition getMinutes (tz : TimeZone) (t : Z) : Z := MinFromTime (LocalTime tz t).

(** Setters of a valid date; each returns the date after the assignment,
    which is invalid when the argument is not finite. *)
Definition setMinutes (tz : TimeZone) (t : Z) (min : number) : Date :=
  match toInteger min with
  | Some m =>
      let lt := LocalTime tz t in
      TimeClip (UTC tz (MakeDate (Day lt)
        (MakeTime (HourFromTime lt) m (SecFromTime lt) (msFromTime lt))))
  | None => None
  end.

Definition setHours (tz : TimeZone) (t : Z) (hour : number) : Date :=
  match toInteger hour with
  | Some h =>
      let lt := LocalTime tz t in
      TimeClip (UTC tz (MakeDate (Day lt)
        (MakeTime h (MinFromTime lt) (SecFromTime lt) (msFromTime lt))))
  | None => None
  end.

Definition setDate (tz : TimeZone) (t : Z) (date : number) : Date :=
  match toInteger date with
  | Some dt =>
      let lt := LocalTime tz t in
      TimeClip (UTC tz (MakeDate
        (MakeDay (YearFromTime lt) (MonthFromTime lt) dt) (TimeWithinDay lt)))
  | None => None
  end.

(** [new Date(year, month, day, hours, minutes)]; the date is invalid
    when an argument is not finite.  Years 0 to 99 stand for 1900 to
    1999. *)
Definition newDate (tz : TimeZone) (year month day hours minutes : number)
  : Date :=
  match toInteger year, toInteger month, toInteger day,
        toInteger hours, toInteger minutes with
  | Some y, Some m, Some d, Some h, Some mi =>
      let yr := if (0 <=? y) && (y <=? 99) then 1900 + y else y in
      TimeClip (UTC tz (MakeDate (MakeDay yr m d) (MakeTime h mi 0 0)))
  | _, _, _, _, _ => None
  end.

(** [date.toISOString()] of a valid date. *)
Definition toISOString (t : Z) : jsstring :=
  let y := YearFromTime t in
  let year :=
    if (0 <=? y) && (y <=? 9999) then padStart 4 (Z_toString y)
    else (if y <? 0 then js "-" else js "+") ++ padStart 6 (Z_toString (Z.abs y)) in
  year ++ js "-" ++ padStart 2 (Z_toString (MonthFromTime t + 1))
       ++ js "-" ++ padStart 2 (Z_toString (DateFromTime t))
       ++ js "T" ++ padStart 2 (Z_toString (HourFromTime t))
       ++ js ":" ++ padStart 2 (Z_toString (MinFromTime t))
       ++ js ":" ++ padStart 2 (Z_toString (SecFromTime t))
       ++ js "." ++ padStart 3 (Z_toString (msFromTime t))
       ++ js "Z".

End JsDate.
Import JsDate.

(** ** Node's [Buffer]: UTF-8 bytes and base64 *)

Module JsBuffer.
Local Open Scope N_scope.

Definition replacement : list N := [239; 191; 189].

(** [Buffer.from(s)]: the UTF-8 encoding of the string; a surrogate
    without its partner becomes U+FFFD. *)
Fixpoint utf8 (s : jsstring) : list N :=
  match s with
  | [] => []
  | c :: s' =>
      if c <? 128 then c :: utf8 s'
      else if c <? 2048 then (192 + c / 64) :: (128 + c mod 64) :: utf8 s'
      else if isHighSurrogate c then
        match s' with
        | d :: s'' =>
            if isLowSurrogate d then
              let cp := 65536 + (c - 55296) * 1024 + (d - 56320) in
              (240 + cp / 262144) :: (128 + (cp / 4096) mod 64)
                :: (128 + (cp / 64) mod 64) :: (128 + cp mod 64) :: utf8 s''
            else replacement ++ utf8 s'
        | [] => replacement
        end
      else if isLowSurrogate c then replacement ++ utf8 s'
      else (224 + c / 4096) :: (128 + (c / 64) mod 64) :: (128 + c mod 64)
             :: utf8 s'
  end.

Definition base64Digit (i : N) : codeUnit :=
  if i <? 26 then 65 + i
  else if i <? 52 then 97 + (i - 26)
  else if i <? 62 then 48 + (i - 52)
  else if i =? 62 then 43
  else 47.

(** [buffer.toString('base64')] *)
Fixpoint base64 (bytes : list N) : jsstring :=
  match bytes with
  | [] => []
  | a :: bytes1 =>
      match bytes1 with
      | [] => [base64Digit (a / 4); base64Digit ((a mod 4) * 16); 61; 61]
      | b :: bytes2 =>
          match bytes2 with
          | [] => [base64Digit (a / 4); base64Digit ((a mod 4) * 16 + b / 16);
                   base64Digit ((b mod 16) * 4); 61]
          | c :: rest =>
              base64Digit (a / 4) :: base64Digit ((a mod 4) * 16 + b / 16)
                :: base64Digit ((b mod 16) * 4 + c / 64)
                :: base64Digit (c mod 64) :: base64 rest
          end
      end
  end.

End JsBuffer.
Import JsBuffer.

(** ** Regular expressions of the scraper

    The three patterns have the shape [(\d+)\s*(u1|u2|...)] with an
    optional tail.  A match that starts at a digit takes the whole run of
    digits and the whole run of white space after it: giving back a digit
    or a space leaves a digit or a space where a letter is required, so
    backtracking never finds another match. *)

Module Regex.

(** The alternatives are tried from left to right. *)
Definition firstAlternative (units : list jsstring) (s : jsstring)
  : option jsstring :=
  find (fun u => startsWith u s) units.

(** One attempt at the start of [s]: the groups [(\d+)] and [(u1|...)]. *)
Definition matchAt (units : list jsstring) (s : jsstring)
  : option (jsstring * jsstring) :=
  match takeWhile isDigit s with
  | [] => None
  | ds =>
      match firstAlternative units (dropWhile isSpace (dropWhile isDigit s)) with
      | Some u => Some (ds, u)
      | None => None
      end
  end.

(** [s.match(re)] without the [g] flag: the leftmost match. *)
Fixpoint exec (units : list jsstring) (s : jsstring)
  : option (jsstring * jsstring) :=
  match matchAt units s with
  | Some m => Some m
  | None =>
      match s with
      | [] => None
      | _ :: s' => exec units s'
      end
  end.

(** [/(\d+)\s*(hour|hours|day|days|minute|minutes)\s*ago/gi] *)
Definition timeUnits : list jsstring :=
  [js "hour"; js "hours"; js "day"; js "days"; js "minute"; js "minutes"].

(** Length of the match of [timeRegex] at the start of [s], if any. *)
Definition timeRegexAt (s : jsstring) : option nat :=
  match takeWhile isDigit s with
  | [] => None
  | ds =>
      let r1 := dropWhile isDigit s in
      let ws := takeWhile isSpace r1 in
      let r2 := dropWhile isSpace r1 in
      match find (fun u =>
                    startsWith_ci u r2 &&
                    startsWith_ci (js "ago")
                      (dropWhile isSpace (skipn (List.length u) r2)))
                 timeUnits with
      | Some u =>
          let ws2 := takeWhile isSpace (skipn (List.length u) r2) in
          Some (List.length ds + List.length ws + List.length u
                + List.length ws2 + 3)
      | None => None
      end
  end.

(** [html.match(timeRegex) || []]: all matches from left to right, the
    search resuming where the previous match ended.  [skip] counts the
    code units of the current match still to pass over. *)
Fixpoint matchAll (s : jsstring) (skip : nat) : list jsstring :=
  match s with
  | [] => []
  | _ :: s' =>
      match skip with
      | S k => matchAll s' k
      | O =>
          match timeRegexAt s with
          | Some n => firstn n s :: matchAll s' (n - 1)
          | None => matchAll s' 0
          end
      end
  end.

End Regex.

(** ** Configuration and records *)

Module CONFIG.
Definition maxJobs : nat := 100.
End CONFIG.

(** An entry of a JSON array. *)
Inductive jsvalue :=
| JString (s : jsstring)
| JOther.

Module Service.
(** Modelled from the spec: the service descriptor, an entry of
    [services.json], which is not among the sources.  The fields are
    [{ name, display_name, table, enabled, validationWords?,
    maxHoursWindow? }]; an absent optional field is [None], and
    [validationWords] is [None] as well when it is not an array. *)
Record t := {
  name : jsstring;
  display_name : jsstring;
  table : jsstring;
  enabled : bool;
  validationWords : option (list jsvalue);
  maxHoursWindow : option Z
}.
End Service.

Module Job.
Record t := {
  service : jsstring;
  service_display_name : jsstring;
  title : jsstring;
  company : jsstring;
  city : jsstring;
  state : jsstring;
  location : jsstring;
  posted_date : jsstring;
  scraped_at : jsstring;
  found_time : option jsstring
}.
End Job.

Module Loc.
Record t := { city : jsstring; state : jsstring }.
End Loc.

(** A row sent to the store; [null] is [None]. *)
Module Row.
Record t := {
  title : jsstring;
  job_name : jsstring;
  posted_at : option jsstring;
  location : jsstring;
  city : jsstring;
  state : jsstring;
  source_url : option jsstring;
  fingerprint : jsstring;
  found_time : option jsstring
}.
End Row.

(** The fields of [this] that the pipeline reads and assigns. *)
Record Scraper := {
  maxHoursWindow : number;
  _availableTimes : list jsstring;
  _timeIndex : nat;
  _lastTimeString : option jsstring
}.

(** The result of a call: a value, or an exception that reaches the caller. *)
Inductive Completion (A : Type) :=
| Normal (a : A)
| Throw.
Arguments Normal {A} a.
Arguments Throw {A}.

Record ParseResult := { jobs : list Job.t; totalFound : nat }.

(** The part of jsdom the class calls.  [JSDOM html] is [None] when the
    constructor throws; [textContent] of an element is a string. *)
Class DOM := {
  Document : Type;
  Element : Type;
  JSDOM : jsstring -> option Document;
  querySelectorAll : Document -> jsstring -> list Element;
  querySelector : Element -> jsstring -> option Element;
  textContent : Element -> jsstring
}.

(** ** A JavaScript [Map] keyed by strings: insertion order is kept. *)

Module JsMap.
Section JsMap.
Variable V : Type.
Definition t := list (jsstring * V).
Definition empty : t := [].
Definition has (m : t) (k : jsstring) : bool :=
  existsb (fun kv => jseqb (fst kv) k) m.
Fixpoint set (m : t) (k : jsstring) (v : V) : t :=
  match m with
  | [] => [(k, v)]
  | (k', v') :: m' => if jseqb k' k then (k', v) :: m' else (k', v') :: set m' k v
  end.
Definition values (m : t) : list V := map snd m.
End JsMap.
End JsMap.

(** ** The class [JobScraper] *)

Definition nonEmpty (s : jsstring) : bool :=
  match s with [] => false | _ :: _ => true end.

Definition numToString (x : option Z) : jsstring :=
  match x with
  | Some z => Z_toString z
  | None => js "NaN"
  end.

(** [parseInt(s)] on any string: leading white space, a sign, then decimal
    digits, or hexadecimal digits after [0x]; NaN without digits. *)
Definition hexValue (c : codeUnit) : option N :=
  (if isDigit c then Some (c - 48)
   else if (97 <=? c) && (c <=? 102) then Some (c - 87)
   else if (65 <=? c) && (c <=? 70) then Some (c - 55)
   else None)%N.

Fixpoint parseHex (s : jsstring) (acc : option N) : option N :=
  match s with
  | [] => acc
  | c :: s' =>
      match hexValue c with
      | Some v =>
          parseHex s' (Some (16 * match acc with Some a => a | None => 0 end + v)%N)
      | None => acc
      end
  end.

Definition parseIntAny (s : jsstring) : number :=
  let s1 := trimStart s in
  let (negative, s2) :=
    match s1 with
    | [] => (false, s1)
    | c :: r =>
        if unit_eqb c 45%N then (true, r)
        else if unit_eqb c 43%N then (false, r)
        else (false, s1)
    end in
  let magnitude :=
    if startsWith (js "0x") s2 || startsWith (js "0X") s2
    then parseHex (skipn 2 s2) None
    else match takeWhile isDigit s2 with
         | [] => None
         | ds => Some (mathInt ds)
         end in
  match magnitude with
  | Some n =>
      round (inject_Z (if negative then (- Z.of_N n)%Z else Z.of_N n))
  | None => NaN
  end.

(** [parseInt(x)] where [x] may be [undefined]. *)
Definition parseIntOf (x : option jsstring) : number :=
  match x with
  | Some s => parseIntAny s
  | None => NaN
  end.

(** [Number(s)] of a string, StringToNumber of the language definition:
    white space around the literal is dropped, the empty string is 0, and
    the literal is a decimal one (an optional sign, then [Infinity] or
    digits with an optional fraction and an optional exponent) or digits
    in radix 2, 8 or 16 after [0b], [0o] or [0x]; anything else is NaN. *)

(** The digits after a radix prefix. *)
Definition radixLiteral (radix : N) (digits : jsstring) : number :=
  match digits with
  | [] => NaN
  | _ :: _ =>
      match fold_left
              (fun acc c =>
                 match acc, hexValue c with
                 | Some a, Some v =>
                     if (v <? radix)%N then Some (radix * a + v)%N else None
                 | _, _ => None
                 end)
              digits (Some 0%N) with
      | Some n => round (inject_Z (Z.of_N n))
      | None => NaN
      end
  end.

(** What follows the digits of a decimal literal: nothing, or an
    exponent; [None] for anything else. *)
Definition exponentPart (s : jsstring) : option Z :=
  match s with
  | [] => Some 0%Z
  | c :: r =>
      if unit_eqb c 101%N || unit_eqb c 69%N then
        let (negative, ds) :=
          match r with
          | x :: r' =>
              if unit_eqb x 45%N then (true, r')
              else if unit_eqb x 43%N then (false, r')
              else (false, r)
          | [] => (false, r)
          end in
        if nonEmpty ds && forallb isDigit ds
        then Some (if negative then (- Z.of_N (mathInt ds))%Z
                   else Z.of_N (mathInt ds))
        else None
      else None
  end.

(** A decimal literal without its sign. *)
Definition unsignedDecimal (s : jsstring) : number :=
  if jseqb s (js "Infinity") then PlusInfinity
  else
    let intDigits := takeWhile isDigit s in
    let r1 := dropWhile isDigit s in
    let (fracDigits, r2) :=
      match r1 with
      | c :: r =>
          if unit_eqb c 46%N then (takeWhile isDigit r, dropWhile isDigit r)
          else ([], r1)
      | [] => ([], r1)
      end in
    if nonEmpty intDigits || nonEmpty fracDigits then
      match exponentPart r2 with
      | Some e =>
          let mantissa := Z.of_N (mathInt (intDigits ++ fracDigits)) in
          let scale := (e - Z.of_nat (List.length fracDigits))%Z in
          round (if (0 <=? scale)%Z
                 then inject_Z (mantissa * 10 ^ scale)
                 else mantissa # Z.to_pos (10 ^ (- scale)))
      | None => NaN
      end
    else NaN.

Definition hasPrefix (lower upper s : jsstring) : bool :=
  startsWith lower s || startsWith upper s.

Definition toNumber (s : option jsstring) : number :=
  match s with
  | None => NaN
  | Some s0 =>
      let s1 := trim s0 in
      match s1 with
      | [] => ofZ 0
      | c :: r =>
          if hasPrefix (js "0x") (js "0X") s1 then radixLiteral 16 (skipn 2 s1)
          else if hasPrefix (js "0o") (js "0O") s1 then radixLiteral 8 (skipn 2 s1)
          else if hasPrefix (js "0b") (js "0B") s1 then radixLiteral 2 (skipn 2 s1)
          else if unit_eqb c 45%N then neg (unsignedDecimal r)
          else if unit_eqb c 43%N then unsignedDecimal r
          else unsignedDecimal s1
      end
  end.

Definition bullet : codeUnit := 8226%N.
Definition comma : codeUnit := 44%N.
Definition space : codeUnit := 32%N.
Definition hyphen : codeUnit := 45%N.
Definition colon : codeUnit := 58%N.

(** [this.maxHoursWindow] as the constructor sets it; [MAX_HOURS] is
    [process.env.MAX_HOURS], a string, or [undefined] ([None]) when the
    variable is unset.  The other fields are those [parseJobsFromHTML]
    assigns before they are read. *)
Definition constructor (MAX_HOURS : option jsstring) : Scraper :=
  {| maxHoursWindow :=
       if gtb (toNumber MAX_HOURS) (ofZ 0) then toNumber MAX_HOURS
       else ofZ 6;
     _availableTimes := [];
     _timeIndex := 0;
     _lastTimeString := None |}.

Definition isTimeWithin6Hours (this : Scraper) (timeString : jsstring) : bool :=
  if negb (nonEmpty timeString) then false
  else
    let lowerTime := toLowerCase timeString in
    match Regex.exec [js "hour"; js "minute"; js "min"] lowerTime with
    | None => false
    | Some (digits, unit) =>
        let number := parseInt digits in
        if includes unit (js "minute") || includes unit (js "min") then true
        else if includes unit (js "hour")
             then leb number (maxHoursWindow this)
             else false
    end.

Definition isWithin6Hours (this : Scraper) (dateTimeString : jsstring) : bool :=
  if negb (nonEmpty dateTimeString) then false
  else match _lastTimeString this with
       | Some last => isTimeWithin6Hours this last
       | None => false
       end.

Definition isValidJobData (this : Scraper) (jobData : Job.t) (service : Service.t)
  : bool :=
  let title := Job.title jobData in
  let hasRequiredData :=
    nonEmpty title
    && (3 <? List.length title)
    && negb (jseqb title (js "Jobs"))
    && negb (includes title (js "Search"))
    && (nonEmpty (Job.company jobData) || nonEmpty (Job.location jobData)) in
  let isWithin6Hours := isWithin6Hours this (Job.posted_date jobData) in
  let passesValidationWords :=
    match Service.validationWords service with
    | Some ((_ :: _) as words) =>
        let lowerTitle := toLowerCase title in
        existsb (fun word =>
                   match word with
                   | JString w => includes lowerTitle (toLowerCase w)
                   | JOther => false
                   end) words
    | _ => true
    end in
  hasRequiredData && isWithin6Hours && passesValidationWords.

Definition parseLocation (locationString : jsstring) : Loc.t :=
  let cleanLocation := trim (hd [] (split bullet locationString)) in
  let parts := map trim (split comma cleanLocation) in
  match parts with
  | p0 :: p1 :: _ => {| Loc.city := p0; Loc.state := p1 |}
  | _ => {| Loc.city := cleanLocation; Loc.state := [] |}
  end.

Definition generateFingerprint (job : Job.t) : jsstring :=
  let data := Job.title job ++ js "-" ++ Job.location job ++ js "-"
              ++ Job.service job in
  firstn 32 (base64 (utf8 data)).

Section LocalTime.

(** The local time zone. *)
Variable tz : TimeZone.

Definition formatDateTime (date : Date) : jsstring :=
  let year := option_map (getFullYear tz) date in
  let month := padStart 2 (numToString (option_map (fun t => getMonth tz t + 1)%Z date)) in
  let day := padStart 2 (numToString (option_map (getDate tz) date)) in
  let hours := option_map (getHours tz) date in
  let minutes := padStart 2 (numToString (option_map (getMinutes tz) date)) in
  let ampm :=
    match hours with
    | Some h => if (12 <=? h)%Z then js "PM" else js "AM"
    | None => js "AM"
    end in
  let hours := option_map (fun h => h mod 12)%Z hours in
  let hours :=
    match hours with
    | Some h => if (h =? 0)%Z then 12%Z else h
    | None => 12%Z
    end in
  let hours := padStart 2 (Z_toString hours) in
  numToString year ++ js "-" ++ month ++ js "-" ++ day ++ js " "
    ++ hours ++ js ":" ++ minutes ++ js " " ++ ampm.

(** [now] is the instant [new Date()] returns. *)
Definition convertToActualDateTime (this : Scraper) (timeString : jsstring)
  (now : Z) : jsstring * Scraper :=
  if negb (nonEmpty timeString) then ([], this)
  else
    let this1 :=
      {| maxHoursWindow := maxHoursWindow this;
         _availableTimes := _availableTimes this;
         _timeIndex := _timeIndex this;
         _lastTimeString := Some timeString |} in
    let lowerTime := toLowerCase timeString in
    match Regex.exec [js "hour"; js "minute"; js "min"; js "day"] lowerTime with
    | None => (formatDateTime (Some now), this1)
    | Some (digits, unit) =>
        let number := parseInt digits in
        let pastDate :=
          if includes unit (js "minute") || includes unit (js "min")
          then setMinutes tz now (sub (ofZ (getMinutes tz now)) number)
          else if includes unit (js "hour")
          then setHours tz now (sub (ofZ (getHours tz now)) number)
          else if includes unit (js "day")
          then setDate tz now (sub (ofZ (getDate tz now)) number)
          else Some now in
        (formatDateTime pastDate, this1)
    end.

(** The arguments [convertToISOString] hands to [new Date(...)]:
    year, month - 1, day, hour24, parseInt(minutes).  [None] as a whole
    is the exception of [timePart.split] on [undefined]. *)
Definition dateArguments (dateTimeString : jsstring)
  : option (number * number * number * number * number) :=
  let parts := split space dateTimeString in
  let datePart := nth_error parts 0 in
  let timePart := nth_error parts 1 in
  let ampm := nth_error parts 2 in
  match datePart, timePart with
  | Some datePart, Some timePart =>
      let dateParts := split hyphen datePart in
      let year := nth_error dateParts 0 in
      let month := nth_error dateParts 1 in
      let day := nth_error dateParts 2 in
      let timeParts := split colon timePart in
      let hours := nth_error timeParts 0 in
      let minutes := nth_error timeParts 1 in
      let hour24 := parseIntOf hours in
      let isPM := match ampm with Some a => jseqb a (js "PM") | None => false end in
      let isAM := match ampm with Some a => jseqb a (js "AM") | None => false end in
      let is12 := eqb hour24 (ofZ 12) in
      let hour24 :=
        if isPM && negb is12 then add hour24 (ofZ 12)
        else if isAM && is12 then ofZ 0
        else hour24 in
      Some (toNumber year,
            sub (toNumber month) (ofZ 1),
            toNumber day,
            hour24,
            parseIntOf minutes)
  | _, _ => None
  end.

Definition convertToISOString (dateTimeString : jsstring) : option jsstring :=
  if negb (nonEmpty dateTimeString) then None
  else
    match dateArguments dateTimeString with
    | None => None
    | Some (year, month, day, hour24, minutes) =>
        match newDate tz year month day hour24 minutes with
        | Some t => Some (toISOString t)
        | None => None
        end
    end.

End LocalTime.

Section Pipeline.

Context {dom : DOM}.
Variable tz : TimeZone.

Definition dquote : jsstring := [34%N].

Definition jobSelectors : list jsstring :=
  [js ".MQUd2b"; js ".g";
   js "div[jscontroller=" ++ dquote ++ js "b11o3b" ++ dquote ++ js "]"].

Definition titleSelectors : list jsstring :=
  [js ".tNxQIb.PUpOsf"; js ".tNxQIb"; js "h3";
   js "[role=" ++ dquote ++ js "heading" ++ dquote ++ js "]"; js ".LC20lb"].

Definition companySelectors : list jsstring :=
  [js ".wHYlTd.MKCbgd.a3jPc"; js ".wHYlTd.MKCbgd"; js ".MKCbgd"; js ".vNEEBe"].

Definition locationSelectors : list jsstring :=
  [js ".wHYlTd.FqK3wc.MKCbgd"; js ".FqK3wc.MKCbgd"; js ".FqK3wc"; js ".Qk80Jf"].

(** The loop over the selectors of one field: the trimmed text of the
    first selector that finds an element with non-blank text. *)
Fixpoint firstText (jobElement : Element) (selectors : list jsstring)
  : option jsstring :=
  match selectors with
  | [] => None
  | selector :: rest =>
      match querySelector jobElement selector with
      | Some elem =>
          if nonEmpty (textContent elem) then
            let text := trim (textContent elem) in
            if (0 <? List.length text) then Some text
            else firstText jobElement rest
          else firstText jobElement rest
      | None => firstText jobElement rest
      end
  end.

Definition fallbackTime : jsstring := js "3 hours ago".

(** [now] is the instant of the two [new Date()] of one extraction.  The
    calls inside the [try] block are total here, so its handler is never
    entered. *)
Definition extractJobDataFromElement (this : Scraper) (jobElement : Element)
  (service : Service.t) (now : Z) : Job.t * Scraper :=
  let title := match firstText jobElement titleSelectors with
               | Some t => t | None => [] end in
  let company := match firstText jobElement companySelectors with
                 | Some c => c | None => [] end in
  let location := firstText jobElement locationSelectors in
  let parsedLocation := option_map parseLocation location in
  let timeString :=
    if _timeIndex this <? List.length (_availableTimes this)
    then nth (_timeIndex this) (_availableTimes this) []
    else fallbackTime in
  let (posted_date, this1) := convertToActualDateTime tz this timeString now in
  let this2 :=
    {| maxHoursWindow := maxHoursWindow this1;
       _availableTimes := _availableTimes this1;
       _timeIndex :=
         if _timeIndex this <? List.length (_availableTimes this)
         then S (_timeIndex this1) else _timeIndex this1;
       _lastTimeString := Some timeString |} in
  ({| Job.service := Service.name service;
      Job.service_display_name := Service.display_name service;
      Job.title := title;
      Job.company := company;
      Job.city := match parsedLocation with Some l => Loc.city l | None => [] end;
      Job.state := match parsedLocation with Some l => Loc.state l | None => [] end;
      Job.location := match location with Some l => l | None => [] end;
      Job.posted_date := posted_date;
      Job.scraped_at := toISOString now;
      Job.found_time := Some timeString |},
   this2).

(** The selector cascade of [parseJobsFromHTML]: the elements of the first
    selector that matches any. *)
Fixpoint findJobElements (document : Document) (selectors : list jsstring)
  : list Element :=
  match selectors with
  | [] => []
  | selector :: rest =>
      match querySelectorAll document selector with
      | [] => findJobElements document rest
      | jobElements => jobElements
      end
  end.

(** The [for] loop of [parseJobsFromHTML]: each element is extracted and
    then validated in the state the extraction leaves; the result lists,
    in order, every extracted record with the verdict of the validator. *)
Fixpoint processElements (this : Scraper) (jobElements : list Element)
  (service : Service.t) (now : Z) : list (Job.t * bool) * Scraper :=
  match jobElements with
  | [] => ([], this)
  | jobElement :: rest =>
      let (jobData, this1) := extractJobDataFromElement this jobElement service now in
      let valid := isValidJobData this1 jobData service in
      let (processed, this2) := processElements this1 rest service now in
      ((jobData, valid) :: processed, this2)
  end.

(** [serviceJobs]: the records that were pushed. *)
Definition accepted (processed : list (Job.t * bool)) : list Job.t :=
  map fst (filter snd processed).

(** The state after the time patterns of the document are stored. *)
Definition withTimes (this : Scraper) (html : jsstring) : Scraper :=
  {| maxHoursWindow := maxHoursWindow this;
     _availableTimes := Regex.matchAll html 0;
     _timeIndex := 0;
     _lastTimeString := _lastTimeString this |}.

Definition noJobs : ParseResult := {| jobs := []; totalFound := 0 |}.

(** The result and the state of [this] after the call.  The clock is
    read as [now] for every container of the document. *)
Definition parseJobsFromHTML (this : Scraper) (html : jsstring)
  (service : Service.t) (now : Z) : Completion ParseResult * Scraper :=
  (* const dom = new JSDOM(html), before the try block *)
  match JSDOM html with
  | None => (Throw, this)
  | Some _ =>
      let this1 := withTimes this html in
      (* try { const dom = new JSDOM(html); ... } catch { return empty } *)
      match JSDOM html with
      | None => (Normal noJobs, this1)
      | Some document =>
          let jobElements := findJobElements document jobSelectors in
          if List.length jobElements =? 0 then (Normal noJobs, this1)
          else
            let maxJobs := Nat.min (List.length jobElements) CONFIG.maxJobs in
            let totalJobsFound := List.length jobElements in
            let (processed, this2) :=
              processElements this1 (firstn maxJobs jobElements) service now in
            (Normal {| jobs := accepted processed; totalFound := totalJobsFound |},
             this2)
      end
  end.

(** [insertJobsToSupabase], up to the first request: the rows and the
    body of the request, after the deduplication by fingerprint. *)
Definition supabaseRow (service : Service.t) (job : Job.t) : Row.t :=
  {| Row.title := Job.title job;
     Row.job_name := Service.display_name service;
     Row.posted_at := convertToISOString tz (Job.posted_date job);
     Row.location := Job.location job;
     Row.city := Job.city job;
     Row.state := Job.state job;
     Row.source_url := None;
     Row.fingerprint := generateFingerprint job;
     Row.found_time :=
       match Job.found_time job with
       | Some ((_ :: _) as f) => Some f
       | _ => None
       end |}.

Definition supabaseJobs (service : Service.t) (jobs : list Job.t) : list Row.t :=
  map (supabaseRow service) jobs.

Definition dedupe (rows : list Row.t) : list Row.t :=
  let fingerprintToJob :=
    fold_left (fun m row =>
                 if negb (JsMap.has m (Row.fingerprint row))
                 then JsMap.set m (Row.fingerprint row) row
                 else m)
              rows (JsMap.empty Row.t) in
  JsMap.values fingerprintToJob.

(** The body of the first [fetch]; [None] when the method returns before
    any request. *)
Definition insertJobsToSupabase (service : Service.t) (jobs : list Job.t)
  : option (list Row.t) :=
  match jobs with
  | [] => None
  | _ => Some (dedupe (supabaseJobs service jobs))
  end.

End Pipeline.

(** ** A table-driven DOM for concrete runs

    A document is a list of cards; a card records the job selector that
    finds it and, for each field selector, the text of the element that
    selector finds inside it.  [parse] stands for the parser. *)

Module TestDOM.

Inductive element :=
| Card (selector : jsstring) (fields : list (jsstring * jsstring))
| Leaf (text : jsstring).

Definition isCardOf (selector : jsstring) (e : element) : bool :=
  match e with
  | Card s _ => jseqb s selector
  | Leaf _ => false
  end.

Definition lookupField (e : element) (selector : jsstring) : option element :=
  match e with
  | Card _ fields =>
      option_map (fun kv => Leaf (snd kv))
                 (find (fun kv => jseqb (fst kv) selector) fields)
  | Leaf _ => None
  end.

Definition text (e : element) : jsstring :=
  match e with
  | Card _ fields => List.concat (map snd fields)
  | Leaf t => t
  end.

Definition make (parse : jsstring -> option (list element)) : DOM :=
  {| Document := list element;
     Element := element;
     JSDOM := parse;
     querySelectorAll := fun d selector => filter (isCardOf selector) d;
     querySelector := lookupField;
     textContent := text |}.

(** A job card with a title and a location. *)
Definition card (title location : jsstring) : element :=
  Card (js ".MQUd2b") [(js ".tNxQIb", title); (js ".FqK3wc", location)].

End TestDOM.

(** ** Specification vocabulary *)

(** *** Time tokens and the recency window *)

(** Units of a relative-time token. *)
Inductive timeUnit := InMinutes | InHours | InDays | InWeeks | InMonths | InYears.

Definition unitWords (u : timeUnit) : list jsstring :=
  match u with
  | InMinutes => [js "minute"; js "minutes"]
  | InHours => [js "hour"; js "hours"]
  | InDays => [js "day"; js "days"]
  | InWeeks => [js "week"; js "weeks"]
  | InMonths => [js "month"; js "months"]
  | InYears => [js "year"; js "years"]
  end.

(** [isToken u ds tok]: [tok] reads "<ds> <unit word of u> ago", with any
    white space between the parts and letters in either case. *)
Definition isToken (u : timeUnit) (ds tok : jsstring) : Prop :=
  exists ws1 word ws2 ago,
    tok = ds ++ ws1 ++ word ++ ws2 ++ ago
    /\ ds <> []
    /\ Forall (fun c => isDigit c = true) ds
    /\ Forall (fun c => isSpace c = true) ws1
    /\ In (map foldAscii word) (unitWords u)
    /\ Forall (fun c => isSpace c = true) ws2
    /\ map foldAscii ago = js "ago".

(** The verdict the recency window gives by unit. *)
Definition recentByUnit (T : number) (u : timeUnit) (value : number) : bool :=
  match u with
  | InMinutes => true
  | InHours => leb value T
  | _ => false
  end.


(** "<n> hours ago" *)
Definition hoursAgo (n : Z) : jsstring := Z_toString n ++ js " hours ago".

(** [inOrder tokens s]: the tokens occur in [s] one after the other,
    without overlap, in the order of the list. *)
Inductive inOrder : list jsstring -> jsstring -> Prop :=
| inOrder_nil s : inOrder [] s
| inOrder_cons pre token rest tokens :
    inOrder tokens rest -> inOrder (token :: tokens) (pre ++ token ++ rest).

(** The time tokens given to the records of a run of the loop. *)
Definition foundTimes (processed : list (Job.t * bool)) : list (option jsstring) :=
  map (fun p => Job.found_time (fst p)) processed.

(** *** Records *)

(** [needle] occurs in [s] as a run of consecutive code units. *)
Definition isSubstring (needle s : jsstring) : Prop :=
  exists pre post, s = pre ++ needle ++ post.

(** The three conditions of a qualified record, in the words of their
    description. *)
Definition structurallyComplete (j : Job.t) : Prop :=
  Job.title j <> []
  /\ 3 < List.length (Job.title j)
  /\ Job.title j <> js "Jobs"
  /\ ~ isSubstring (js "Search") (Job.title j)
  /\ (Job.company j <> [] \/ Job.location j <> []).

Definition tokenIsRecent (this : Scraper) (j : Job.t) : Prop :=
  exists token, Job.found_time j = Some token
                /\ isTimeWithin6Hours this token = true.

Definition passesAllowlist (j : Job.t) (service : Service.t) : Prop :=
  forall words,
    Service.validationWords service = Some words -> words <> [] ->
    exists word,
      In (JString word) words
      /\ isSubstring (toLowerCase word) (toLowerCase (Job.title j)).

(** A descriptor with another [maxHoursWindow]. *)
Definition setWindow (service : Service.t) (w : option Z) : Service.t :=
  {| Service.name := Service.name service;
     Service.display_name := Service.display_name service;
     Service.table := Service.table service;
     Service.enabled := Service.enabled service;
     Service.validationWords := Service.validationWords service;
     Service.maxHoursWindow := w |}.

(** The reading under which the descriptor supplies the threshold: a
    record that is otherwise qualified and carries the token
    "<n> hours ago" is accepted exactly when [n] is at most the
    [maxHoursWindow] of its descriptor. *)
Definition thresholdFromDescriptor : Prop :=
  forall this jobData service T n,
    Service.maxHoursWindow service = Some T -> (0 < T)%Z -> (0 <= n)%Z ->
    _lastTimeString this = Some (hoursAgo n) ->
    Job.found_time jobData = Some (hoursAgo n) ->
    Job.posted_date jobData <> [] ->
    structurallyComplete jobData ->
    passesAllowlist jobData service ->
    (isValidJobData this jobData service = true <-> (n <= T)%Z).

(** *** Locations *)

(** The text before the first occurrence of [sep]. *)
Definition beforeFirst (sep : codeUnit) (s : jsstring) : jsstring :=
  takeWhile (fun c => negb (unit_eqb c sep)) s.

(** The location parser in the words of its description: cut at the first
    bullet, split the rest on commas; the first segment is the city, the
    second, when there is one, the state (segments without the white space
    around them). *)
Definition parseLocation_spec (locationString : jsstring) : Loc.t :=
  let segments := split comma (trim (beforeFirst bullet locationString)) in
  {| Loc.city := trim (nth 0 segments []);
     Loc.state := match nth_error segments 1 with
                  | Some segment => trim segment
                  | None => []
                  end |}.

(** *** Deduplication *)

(** Deduplication in the words of its description: going through the
    batch in order, a row is kept when its fingerprint has not been seen
    and dropped otherwise. *)
Fixpoint keepFirst (seen : list jsstring) (rows : list Row.t) : list Row.t :=
  match rows with
  | [] => []
  | row :: rest =>
      if existsb (fun k => jseqb k (Row.fingerprint row)) seen
      then keepFirst seen rest
      else row :: keepFirst (Row.fingerprint row :: seen) rest
  end.

Definition dedupBatch (rows : list Row.t) : list Row.t := keepFirst [] rows.

(** [Subseq l1 l2]: [l1] is [l2] with some elements left out, the others
    in their order. *)
Inductive Subseq {A : Type} : list A -> list A -> Prop :=
| Subseq_nil : Subseq [] []
| Subseq_skip x l1 l2 : Subseq l1 l2 -> Subseq l1 (x :: l2)
| Subseq_keep x l1 l2 : Subseq l1 l2 -> Subseq (x :: l1) (x :: l2).

(** *** The local time format *)

(** The hour of the 12-hour clock. *)
Definition hour12 (h : Z) : Z := if (h mod 12 =? 0)%Z then 12%Z else (h mod 12)%Z.

(** The instant [t] without its seconds and milliseconds, in local time. *)
Definition startOfMinute (tz t : Z) : Z := (t - (LocalTime tz t) mod msPerMinute)%Z.

(** The hour and the meridiem written in a string of the local format
    "YYYY-MM-DD HH:MM AM/PM". *)
Definition hoursField (s : jsstring) : jsstring :=
  nth 0 (split colon (nth 1 (split space s) [])) [].

Definition meridiem (s : jsstring) : jsstring := nth 2 (split space s) [].

(** ** Concrete data *)

(** A parser that always returns the document [cards]. *)
Definition domOf (cards : list TestDOM.element) : DOM :=
  TestDOM.make (fun _ => Some cards).

(** A document of 101 job cards. *)
Definition cards101 : list TestDOM.element :=
  repeat (TestDOM.card (js "Delivery Driver") (js "Austin, TX")) 101.

(** The sizes of what [parseJobsFromHTML] returns: the number of jobs and
    [totalFound]. *)
Definition resultSizes (c : Completion ParseResult) : option (nat * nat) :=
  match c with
  | Normal r => Some (List.length (jobs r), totalFound r)
  | Throw => None
  end.

(** A document of three cards whose text mentions two times. *)
Definition threeCards : list TestDOM.element :=
  [TestDOM.card (js "Delivery Driver") (js "Austin, TX");
   TestDOM.card (js "Courier") (js "Dallas, TX");
   TestDOM.card (js "Warehouse Associate") (js "Remote")].

Definition twoTimes : jsstring := js "posted 1 hour ago, updated 9 hours ago".

(** 2024-03-01 01:15:30 UTC, in milliseconds since the epoch. *)
Definition march1st : Z := 1709255730000%Z.

(** Two records with one title, in different cities and for different
    services. *)
Definition jobAustin : Job.t :=
  {| Job.service := js "instacart";
     Job.service_display_name := js "Instacart";
     Job.title := js "Instacart Full Service Shopper";
     Job.company := js "Instacart";
     Job.city := js "Austin";
     Job.state := js "TX";
     Job.location := js "Austin, TX";
     Job.posted_date := js "2024-03-01 01:15 AM";
     Job.scraped_at := js "2024-03-01T06:15:30.000Z";
     Job.found_time := Some (js "2 hours ago") |}.

Definition jobDallas : Job.t :=
  {| Job.service := js "shipt";
     Job.service_display_name := js "Shipt";
     Job.title := js "Instacart Full Service Shopper";
     Job.company := js "Instacart";
     Job.city := js "Dallas";
     Job.state := js "TX";
     Job.location := js "Dallas, TX";
     Job.posted_date := js "2024-03-01 01:15 AM";
     Job.scraped_at := js "2024-03-01T06:15:30.000Z";
     Job.found_time := Some (js "2 hours ago") |}.

(** A record whose title is the placeholder "Jobs". *)
Definition jobsPlaceholder : Job.t :=
  {| Job.service := js "spark_delivery";
     Job.service_display_name := js "Spark";
     Job.title := js "Jobs";
     Job.company := js "Spark";
     Job.city := js "Austin";
     Job.state := js "TX";
     Job.location := js "Austin, TX";
     Job.posted_date := js "2024-03-01 01:15 AM";
     Job.scraped_at := js "2024-03-01T06:15:30.000Z";
     Job.found_time := Some (js "1 hour ago") |}.

(** Concrete data: a descriptor whose window is 2 hours, a complete
    record that carries "5 hours ago", and the scraper built without
    [MAX_HOURS] after it has handed out that token. *)
Definition service2h : Service.t :=
  {| Service.name := js "spark_delivery";
     Service.display_name := js "Spark";
     Service.table := js "spark_jobs";
     Service.enabled := true;
     Service.validationWords := None;
     Service.maxHoursWindow := Some 2%Z |}.

Definition job5h : Job.t :=
  {| Job.service := js "spark_delivery";
     Job.service_display_name := js "Spark";
     Job.title := js "Delivery Driver";
     Job.company := js "Spark";
     Job.city := js "Austin";
     Job.state := js "TX";
     Job.location := js "Austin, TX";
     Job.posted_date := js "2024-03-01 01:15 AM";
     Job.scraped_at := js "2024-03-01T06:15:30.000Z";
     Job.found_time := Some (hoursAgo 5) |}.

Definition scraper5h : Scraper :=
  {| maxHoursWindow := maxHoursWindow (constructor None);
     _availableTimes := [hoursAgo 5];
     _timeIndex := 1;
     _lastTimeString := Some (hoursAgo 5) |}.

(** The state after the token "1 hour ago" was handed out. *)
Definition scraper1h : Scraper :=
  {| maxHoursWindow := maxHoursWindow (constructor None);
     _availableTimes := [js "1 hour ago"];
     _timeIndex := 1;
     _lastTimeString := Some (js "1 hour ago") |}.

(** A complete record with the title [title] and the token "1 hour
    ago", and a descriptor with the keyword list [words]. *)
Definition jobTitled (title : jsstring) : Job.t :=
  {| Job.service := js "spark_delivery";
     Job.service_display_name := js "Spark";
     Job.title := title;
     Job.company := js "Spark";
     Job.city := js "Austin";
     Job.state := js "TX";
     Job.location := js "Austin, TX";
     Job.posted_date := js "2024-03-01 12:15 AM";
     Job.scraped_at := js "2024-03-01T01:15:30.000Z";
     Job.found_time := Some (js "1 hour ago") |}.

Definition serviceWith (words : list jsvalue) : Service.t :=
  {| Service.name := js "spark_delivery";
     Service.display_name := js "Spark";
     Service.table := js "spark_jobs";
     Service.enabled := true;
     Service.validationWords := Some words;
     Service.maxHoursWindow := None |}.

(** The Cyrillic word for driver in capitals (U+0412 U+041E U+0414 U+0418
    U+0422 U+0415 U+041B U+042C) and in small letters, and the Greek one
    in capitals (U+039F U+0394 U+0397 U+0393 U+039F U+03A3) and in small
    letters with the sigma of the end of a word (U+03C2). *)
Definition driverCyrillicCapitals : jsstring :=
  [1042; 1054; 1044; 1048; 1058; 1045; 1051; 1068]%N.
Definition driverCyrillic : jsstring :=
  [1074; 1086; 1076; 1080; 1090; 1077; 1083; 1100]%N.
Definition driverGreekCapitals : jsstring := [927; 916; 919; 915; 927; 931]%N.
Definition driverGreek : jsstring := [959; 948; 951; 947; 959; 962]%N.

(** A batch of three rows, the first two with one fingerprint. *)
Definition batchOfThree : list Row.t :=
  [supabaseRow 0%Z service2h jobAustin;
   supabaseRow 0%Z service2h jobDallas;
   supabaseRow 0%Z service2h job5h].

(** ** Auxiliary notions of the proofs *)

(** The step of the deduplication loop of [insertJobsToSupabase]. *)
Definition dedupeStep (m : JsMap.t Row.t) (row : Row.t) : JsMap.t Row.t :=
  if negb (JsMap.has m (Row.fingerprint row))
  then JsMap.set m (Row.fingerprint row) row
  else m.

(** The characters of a numeral: digits and the minus sign. *)
Definition numeralChar (c : codeUnit) : Prop := isDigit c = true \/ c = hyphen.

(** A string that does not begin with a code unit satisfying [p]. *)
Definition headFails (p : codeUnit -> bool) (s : jsstring) : Prop :=
  match s with
  | [] => True
  | c :: _ => p c = false
  end.

(** The code units of a time token: ASCII, or white space. *)
Definition plain (c : codeUnit) : bool := (c <? 128)%N || isSpace c.

(** The code units that are white space, and those below 128. *)
Definition spaceUnits : list codeUnit :=
  [9; 10; 11; 12; 13; 32; 160; 5760; 8192; 8193; 8194; 8195; 8196; 8197;
   8198; 8199; 8200; 8201; 8202; 8232; 8233; 8239; 8287; 12288; 65279]%N.

Definition asciiUnits : list codeUnit := map N.of_nat (seq 0 128).

(** A code unit that is a code point of its own, and whose lower case
    is the other case of an ASCII capital or the code unit itself. *)
Definition lowersAsAscii (c : codeUnit) : bool :=
  (negb (isHighSurrogate c) && negb (c =? Unicode.capitalSigma)
   && negb (c =? Unicode.capitalIWithDot)
   && (Unicode.simpleLowercase c =? foldAscii c) && (foldAscii c <? 65536))%N.

(** One step of [mathInt]. *)
Definition digitStep (acc d : N) : N := (10 * acc + (d - 48))%N.

(** The alternatives of the pattern of [isTimeWithin6Hours]. *)
Definition windowUnits : list jsstring := [js "hour"; js "minute"; js "min"].

(** Tactics of the proofs: boolean tests as propositions, and the
    constants of the time arithmetic. *)

Ltac bool_prop :=
  repeat match goal with
  | H : _ && _ = true |- _ => apply andb_true_iff in H; destruct H
  | H : _ || _ = true |- _ => apply orb_true_iff in H; destruct H
  | H : _ || _ = false |- _ => apply orb_false_iff in H; destruct H
  | H : _ && _ = false |- _ => apply andb_false_iff in H; destruct H
  | H : negb _ = true |- _ => apply negb_true_iff in H
  | H : negb _ = false |- _ => apply negb_false_iff in H
  | H : (_ <=? _)%N = true |- _ => apply N.leb_le in H
  | H : (_ <=? _)%N = false |- _ => apply N.leb_gt in H
  | H : (_ <? _)%N = true |- _ => apply N.ltb_lt in H
  | H : (_ <? _)%N = false |- _ => apply N.ltb_ge in H
  | H : (_ =? _)%N = true |- _ => apply N.eqb_eq in H
  | H : (_ =? _)%N = false |- _ => apply N.eqb_neq in H
  end.

Ltac time_units :=
  unfold MakeDate, MakeTime, Day, TimeWithinDay, HourFromTime, MinFromTime,
    SecFromTime, msFromTime, msPerDay, msPerHour, msPerMinute, msPerSecond in *.

(** ** Further methods of the class *)

(** [array.join(sep)] on an array of strings. *)
Fixpoint join (sep : jsstring) (parts : list jsstring) : jsstring :=
  match parts with
  | [] => []
  | [p] => p
  | p :: rest => p ++ sep ++ join sep rest
  end.

(** The test of the Spark alert; [relativeString] is the [found_time] of
    a record, [undefined] being [None]. *)
Definition isTimeWithinHours (relativeString : option jsstring)
  (limitHours : number) : bool :=
  match relativeString with
  | None => false
  | Some r =>
      if negb (nonEmpty r) then false
      else
        let s := toLowerCase r in
        match Regex.exec
                [js "hour"; js "hours"; js "minute"; js "min"; js "minutes"] s with
        | None => false
        | Some (digits, unit) =>
            let n := parseInt digits in
            if startsWith (js "min") unit then true
            else if startsWith (js "minute") unit then true
            else if startsWith (js "hour") unit then leb n limitHours
            else false
        end
  end.

(** [sendNtfySparkAlert]: the body of the message it posts. *)
Definition sendNtfySparkAlert (city state : jsstring)
  (relativeString : option jsstring) : jsstring :=
  let loc := join (js ", ") (filter nonEmpty [city; state]) in
  let rel := match relativeString with
             | Some ((_ :: _) as r) => r
             | _ => js "recently"
             end in
  js "Alert! Spark job found in " ++ loc ++ js " in last " ++ rel ++ js "!".

(** *** Vocabulary of the properties *)

(** No element under [selector], or one whose text is blank. *)
Definition blankUnder {dom : DOM} (jobElement : Element) (selector : jsstring)
  : Prop :=
  match querySelector jobElement selector with
  | Some elem => trim (textContent elem) = []
  | None => True
  end.

(** A string without white space at either end. *)
Definition trimmed (s : jsstring) : Prop :=
  headFails isSpace s /\ headFails isSpace (rev s).

(** The length of a unit of time, in milliseconds, for the units the
    normaliser knows. *)
Definition unitMs (u : timeUnit) : option Z :=
  match u with
  | InMinutes => Some msPerMinute
  | InHours => Some msPerHour
  | InDays => Some msPerDay
  | _ => None
  end.

(** The date a token of unit [u] and number [n] stands for: the instant
    at which the local clock shows [n] units less than it shows at [now]
    (by the rules of the zone for a local time that is skipped or occurs
    twice), or no date when that lies outside the range. *)
Definition instantOf (tz : TimeZone) (u : timeUnit) (n : Z) (now : Z) : Date :=
  match unitMs u with
  | Some ms => TimeClip (UTC tz (LocalTime tz now - n * ms))
  | None => Some now
  end.


(** The instant at which the local minute of [t] begins. *)
Definition minuteOf (tz : TimeZone) (t : Z) : Z :=
  UTC tz (LocalTime tz t - (LocalTime tz t) mod msPerMinute)%Z.


(** America/New_York in 2024: five hours behind UTC, and four between
    10 March 07:00 UTC and 3 November 06:00 UTC.  A local time that is
    skipped (10 March, 02:00 to 03:00) or occurs twice (3 November, 01:00
    to 02:00) is read with the offset before the transition. *)
Definition newYork2024 : TimeZone :=
  {| LocalTZA := fun t isUTC =>
       if isUTC
       then (if (1710054000000 <=? t)%Z && (t <? 1730613600000)%Z
             then (-14400000)%Z else (-18000000)%Z)
       else (if (1710039600000 <=? t)%Z && (t <? 1730599200000)%Z
             then (-14400000)%Z else (-18000000)%Z) |}.

(** The reading under which "2 hours ago" always stands, in the zone
    [tz], for the instant two hours before [now]: the local string
    parses back to the minute of that instant. *)
Definition exactlyTwoHoursBefore (tz : TimeZone) : Prop :=
  forall this now,
    (2 * msPerDay <= now <= 8640000000000000)%Z ->
    convertToISOString tz
      (fst (convertToActualDateTime tz this (js "2 hours ago") now))
    = Some (toISOString (minuteOf tz (now - 2 * msPerHour))).

(** 2^53: every integer up to it is a double. *)
Definition maxSafe : Z := 9007199254740992.


(** The alternatives of the patterns of [convertToActualDateTime] and of
    [isTimeWithinHours]. *)
Definition normaliserUnits : list jsstring :=
  [js "hour"; js "minute"; js "min"; js "day"].

Definition alertUnits : list jsstring :=
  [js "hour"; js "hours"; js "minute"; js "min"; js "minutes"].


(** The state after [timeString] was handed out as the last token. *)
Definition withLast (this : Scraper) (timeString : jsstring) : Scraper :=
  {| maxHoursWindow := maxHoursWindow this;
     _availableTimes := _availableTimes this;
     _timeIndex := _timeIndex this;
     _lastTimeString := Some timeString |}.

(** "<n> minutes ago" *)
Definition minutesAgo (n : Z) : jsstring := Z_toString n ++ js " minutes ago".

(** The result of a call that returned. *)
Definition resultOf (c : Completion ParseResult) : ParseResult :=
  match c with
  | Normal r => r
  | Throw => noJobs
  end.

(** *** Saved files *)

Definition dot : codeUnit := 46%N.

(** The [timestamp] in the names of the files [saveResults] and
    [saveCombinedResults] write:
    [new Date().toISOString().replace(/[:.]/g, '-').slice(0, -5)]. *)
Definition timestamp (now : Z) : jsstring :=
  let replaced :=
    map (fun c => if unit_eqb c colon || unit_eqb c dot then hyphen else c)
        (toISOString now) in
  firstn (List.length replaced - 5) replaced.

(** The year as [toISOString] writes it. *)
Definition isoYear (y : Z) : jsstring :=
  if ((0 <=? y) && (y <=? 9999))%Z then padStart 4 (Z_toString y)
  else (if (y <? 0)%Z then js "-" else js "+") ++ padStart 6 (Z_toString (Z.abs y)).

(** *** Fingerprints *)

(** The string a fingerprint is computed from. *)
Definition fingerprintData (job : Job.t) : jsstring :=
  Job.title job ++ js "-" ++ Job.location job ++ js "-" ++ Job.service job.

(** The characters of the base64 alphabet, without the padding. *)
Definition isBase64Char (c : codeUnit) : bool :=
  (((65 <=? c) && (c <=? 90)) || ((97 <=? c) && (c <=? 122))
   || ((48 <=? c) && (c <=? 57)) || (c =? 43) || (c =? 47))%N.

(** Facts on the quotients and remainders of a byte, for [lia]. *)
Ltac byte_parts x :=
  pose proof (N.div_mod' x 4); pose proof (N.mod_lt x 4 ltac:(lia));
  pose proof (N.div_mod' x 16); pose proof (N.mod_lt x 16 ltac:(lia));
  pose proof (N.div_mod' x 64); pose proof (N.mod_lt x 64 ltac:(lia)).

Ltac forget_parts x :=
  generalize dependent (x / 4)%N; generalize dependent (x mod 4)%N;
  generalize dependent (x / 16)%N; generalize dependent (x mod 16)%N;
  generalize dependent (x / 64)%N; generalize dependent (x mod 64)%N.


(** *** The search URL *)

Module Url.
Local Open Scope N_scope.

(** The characters the serialiser of [URLSearchParams] leaves as they
    are: ASCII letters and digits, [*], [-], [.] and [_]. *)
Definition isUnreserved (b : N) : bool :=
  ((48 <=? b) && (b <=? 57)) || ((65 <=? b) && (b <=? 90))
  || ((97 <=? b) && (b <=? 122))
  || (b =? 42) || (b =? 45) || (b =? 46) || (b =? 95).

Definition hexDigit (n : N) : codeUnit := if n <? 10 then 48 + n else 55 + n.

(** One byte of the UTF-8 encoding: a space becomes [+], any other byte
    that is not left as it is becomes [%XX]. *)
Definition encodeByte (b : N) : jsstring :=
  if b =? 32 then [43]
  else if isUnreserved b then [b]
  else [37; hexDigit (b / 16); hexDigit (b mod 16)].

(** The value of a parameter in [params.toString()]. *)
Definition encode (s : jsstring) : jsstring := flat_map encodeByte (utf8 s).

End Url.

Definition buildSimpleUrl (serviceName : jsstring) : jsstring :=
  let baseUrl := js "https://www.google.com/search" in
  let query := serviceName ++ js " jobs UNITED STATES since yesterday" in
  let params := js "q=" ++ Url.encode query ++ js "&udm=" ++ Url.encode (js "8") in
  baseUrl ++ js "?" ++ params.

(** *** Notifications *)

Section Notifications.

Variable tz : TimeZone.

(** [now] is the instant [new Date()] returns. *)
Definition formatCurrentTimeString (now : Z) : jsstring :=
  let hours := getHours tz now in
  let minutes := padStart 2 (Z_toString (getMinutes tz now)) in
  let ampm := if (12 <=? hours)%Z then js "pm" else js "am" in
  let hours := (hours mod 12)%Z in
  let hours := if (hours =? 0)%Z then 12%Z else hours in
  Z_toString hours ++ js ":" ++ minutes ++ js " " ++ ampm.

End Notifications.

(** An entry of [perServiceSummary]. *)
Module Summary.
Record t := { name : jsstring; total : nat; qualified : nat }.
End Summary.

(** [String(n)] for a count. *)
Definition countToString (n : nat) : jsstring := N_toString (N.of_nat n).

(** The two messages of [sendNtfyRunSummary]: the header and the counts. *)
Definition ranAtMsg (tz : TimeZone) (now : Z) : jsstring :=
  js "Scraper ran at " ++ formatCurrentTimeString tz now ++ js ".".

Definition countsMsg (perServiceSummary : list Summary.t) : jsstring :=
  if 0 <? List.length perServiceSummary
  then join (js ", ")
         (map (fun s => Summary.name s ++ js " " ++ countToString (Summary.qualified s)
                          ++ js "/" ++ countToString (Summary.total s))
              perServiceSummary)
  else js "No services scraped".

(** The bodies [sendNtfyRunSummary] posts; [headerPosted] tells whether
    the first [fetch] resolves, a rejection ending the method in its
    [catch] block. *)
Definition sendNtfyRunSummary (tz : TimeZone) (now : Z)
  (perServiceSummary : list Summary.t) (headerPosted : bool) : list jsstring :=
  if headerPosted then [ranAtMsg tz now; countsMsg perServiceSummary]
  else [ranAtMsg tz now].

(** *** The store *)

Module Store.

(** The answer of the store to a request: the status, and the text of
    the body ([None] when reading it fails). *)
Record Response := { status : Z; text : option jsstring }.

(** [response.ok] *)
Definition ok (r : Response) : bool :=
  ((200 <=? status r) && (status r <=? 299))%Z.

(** A row of the retry: a row without its [found_time]. *)
Record FallbackRow := {
  title : jsstring;
  job_name : jsstring;
  posted_at : option jsstring;
  location : jsstring;
  city : jsstring;
  state : jsstring;
  source_url : option jsstring;
  fingerprint : jsstring
}.

(** [({ found_time, ...rest }) => rest] *)
Definition withoutFoundTime (row : Row.t) : FallbackRow :=
  {| title := Row.title row;
     job_name := Row.job_name row;
     posted_at := Row.posted_at row;
     location := Row.location row;
     city := Row.city row;
     state := Row.state row;
     source_url := Row.source_url row;
     fingerprint := Row.fingerprint row |}.

(** The body of a request. *)
Inductive Body :=
| Rows (dedupedJobs : list Row.t)
| FallbackRows (fallbackJobs : list FallbackRow).

(** How the method ends: what it logs last. *)
Inductive Outcome :=
| NoJobs
| Inserted (count : nat)
| DuplicatesSkipped
| InsertedWithoutFoundTime (count : nat)
| Failed.

Definition isLineTerminator (c : codeUnit) : bool :=
  ((c =? 10) || (c =? 13) || (c =? 8232) || (c =? 8233))%N.

(** [needle] somewhere in [s], letters in either case. *)
Fixpoint includes_ci (s needle : jsstring) : bool :=
  startsWith_ci needle s ||
  match s with
  | [] => false
  | _ :: s' => includes_ci s' needle
  end.

(** [.*needle] at the start of [s]: [needle] later on the same line. *)
Fixpoint laterOnLine (needle s : jsstring) : bool :=
  startsWith_ci needle s ||
  match s with
  | [] => false
  | c :: s' => negb (isLineTerminator c) && laterOnLine needle s'
  end.

(** [column .* does not exist] somewhere in [s]. *)
Fixpoint columnDoesNotExist (s : jsstring) : bool :=
  (startsWith_ci (js "column ") s
   && laterOnLine (js " does not exist") (skipn 7 s)) ||
  match s with
  | [] => false
  | _ :: s' => columnDoesNotExist s'
  end.

(** [/found_time|column .* does not exist/i.test(errorText)] *)
Definition missingColumn (errorText : jsstring) : bool :=
  includes_ci errorText (js "found_time") || columnDoesNotExist errorText.

(** [status === 409 && text.includes('duplicate key')] *)
Definition isDuplicate (r : Response) (errorText : jsstring) : bool :=
  (status r =? 409)%Z && includes errorText (js "duplicate key").

Section Insert.

Variable tz : TimeZone.

(** [insertJobsToSupabase] with the answers of the store: [fetch k] is
    the answer to the [k]-th request of the call, [None] when the
    request fails.  The result lists the bodies of the requests made and
    tells how the method ends; an exception inside the method is caught
    and logged there. *)
Definition insertJobsToSupabase (service : Service.t) (jobs : list Job.t)
  (fetch : nat -> option Response) : list Body * Outcome :=
  match jobs with
  | [] => ([], NoJobs)
  | _ :: _ =>
      let dedupedJobs := dedupe (supabaseJobs tz service jobs) in
      let first := [Rows dedupedJobs] in
      match fetch 0 with
      | None => (first, Failed)
      | Some response =>
          if ok response then (first, Inserted (List.length dedupedJobs))
          else
            match text response with
            | None => (first, Failed)
            | Some errorText =>
                if isDuplicate response errorText then (first, DuplicatesSkipped)
                else if (status response =? 400)%Z && missingColumn errorText then
                  let fallbackJobs := map withoutFoundTime dedupedJobs in
                  let both := first ++ [FallbackRows fallbackJobs] in
                  match fetch 1 with
                  | None => (both, Failed)
                  | Some response =>
                      if ok response
                      then (both, InsertedWithoutFoundTime (List.length jobs))
                      else
                        match text response with
                        | None => (both, Failed)
                        | Some retryText =>
                            if isDuplicate response retryText
                            then (both, DuplicatesSkipped)
                            else (both, Failed)
                        end
                  end
                else (first, Failed)
            end
      end
  end.

End Insert.

End Store.

(** *** The run over the services *)

(** [loadServices]: the enabled entries of [services.json]; [None], for
    a file that cannot be read, ends the process. *)
Definition loadServices (servicesData : option (list Service.t))
  : option (list Service.t) :=
  option_map (filter Service.enabled) servicesData.

(** What the world answers during one iteration of the loop of [run]:
    the page [fetchPageHTML] returns ([null] is [None]), the clock while
    the page is parsed, and whether [saveResults] returns ([true]) or
    throws. *)
Module Visit.
Record t := { html : option jsstring; now : Z; saved : bool }.
End Visit.

(** The calls of [run] that reach outside the process, with their
    arguments. *)
Inductive Effect :=
| FetchPage (service : Service.t)
| InsertJobs (service : Service.t) (jobs : list Job.t)
| SparkAlert (city state : jsstring) (relativeString : option jsstring)
| SaveResults (service : Service.t) (jobs : list Job.t)
| Delay (ms : Z)
| SaveCombinedResults (allJobs : list Job.t)
| RunSummary (perServiceSummary : list Summary.t).

(** The variables of [run] and the calls made so far. *)
Record RunState := {
  scraper : Scraper;
  allJobs : list Job.t;
  perServiceSummary : list Summary.t;
  effects : list Effect
}.

(** The loop either reaches its end or is left by an exception. *)
Inductive RunResult :=
| Completed (st : RunState)
| Aborted (st : RunState).

Definition betweenRequests : Z := 2000.

Section Run.

Context {dom : DOM}.
Variable tz : TimeZone.

(** The Spark alert of one service: for the first record within 2 hours. *)
Definition sparkAlert (service : Service.t) (jobs : list Job.t) : list Effect :=
  if jseqb (Service.name service) (js "spark_delivery") then
    match find (fun j => isTimeWithinHours (Job.found_time j) (ofZ 2)) jobs with
    | Some j => [SparkAlert (Job.city j) (Job.state j) (Job.found_time j)]
    | None => []
    end
  else [].

(** The [for] loop of [run] from iteration [i] on; [world k] is what the
    world answers during iteration [k]. *)
Fixpoint serviceLoop (world : nat -> Visit.t) (i : nat)
  (services : list Service.t) (st : RunState) : RunResult :=
  match services with
  | [] => Completed st
  | service :: rest =>
      let visit := world i in
      let fetched := effects st ++ [FetchPage service] in
      let pause := match rest with
                   | [] => []
                   | _ :: _ => [Delay betweenRequests]
                   end in
      match Visit.html visit with
      | Some ((_ :: _) as html) =>
          match parseJobsFromHTML tz (scraper st) html service (Visit.now visit) with
          | (Throw, this1) =>
              Aborted {| scraper := this1;
                         allJobs := allJobs st;
                         perServiceSummary := perServiceSummary st;
                         effects := fetched |}
          | (Normal result, this1) =>
              let totalJobsFound := totalFound result in
              match jobs result with
              | _ :: _ =>
                  let done := fetched ++ [InsertJobs service (jobs result)]
                                ++ sparkAlert service (jobs result)
                                ++ [SaveResults service (jobs result)] in
                  if Visit.saved visit then
                    serviceLoop world (S i) rest
                      {| scraper := this1;
                         allJobs := allJobs st ++ jobs result;
                         perServiceSummary :=
                           perServiceSummary st
                           ++ [{| Summary.name := Service.display_name service;
                                  Summary.total := totalJobsFound;
                                  Summary.qualified := List.length (jobs result) |}];
                         effects := done ++ pause |}
                  else
                    Aborted {| scraper := this1;
                               allJobs := allJobs st ++ jobs result;
                               perServiceSummary := perServiceSummary st;
                               effects := done |}
              | [] =>
                  serviceLoop world (S i) rest
                    {| scraper := this1;
                       allJobs := allJobs st;
                       perServiceSummary :=
                         perServiceSummary st
                         ++ [{| Summary.name := Service.display_name service;
                                Summary.total := totalJobsFound;
                                Summary.qualified := 0 |}];
                       effects := fetched ++ pause |}
              end
          end
      | _ =>
          serviceLoop world (S i) rest
            {| scraper := scraper st;
               allJobs := allJobs st;
               perServiceSummary :=
                 perServiceSummary st
                 ++ [{| Summary.name := Service.display_name service;
                        Summary.total := 0;
                        Summary.qualified := 0 |}];
               effects := fetched |}
      end
  end.

(** [run]: the calls it makes, in order.  [combinedSaved] tells whether
    [saveCombinedResults] returns or throws when it has records to
    write.  An exception anywhere is caught at the end of [run], after
    which nothing more is done. *)
Definition run (this : Scraper) (services : list Service.t)
  (world : nat -> Visit.t) (combinedSaved : bool) : list Effect :=
  match serviceLoop world 0 services
          {| scraper := this; allJobs := []; perServiceSummary := [];
             effects := [] |} with
  | Aborted st => effects st
  | Completed st =>
      let saved := effects st ++ [SaveCombinedResults (allJobs st)] in
      match allJobs st with
      | _ :: _ =>
          if combinedSaved then saved ++ [RunSummary (perServiceSummary st)]
          else saved
      | [] => saved ++ [RunSummary (perServiceSummary st)]
      end
  end.

(** The entry of the summary for one service, and its records, when its
    page is parsed by a scraper in the state [this]. *)
Definition parsedPage (this : Scraper) (service : Service.t) (visit : Visit.t)
  : ParseResult :=
  match Visit.html visit with
  | Some ((_ :: _) as html) =>
      resultOf (fst (parseJobsFromHTML tz this html service (Visit.now visit)))
  | _ => noJobs
  end.

Definition summaryOf (this : Scraper) (service : Service.t) (visit : Visit.t)
  : Summary.t :=
  {| Summary.name := Service.display_name service;
     Summary.total := totalFound (parsedPage this service visit);
     Summary.qualified := List.length (jobs (parsedPage this service visit)) |}.

(** A visit during which nothing throws. *)
Definition quiet (this : Scraper) (service : Service.t) (visit : Visit.t) : Prop :=
  match Visit.html visit with
  | Some ((_ :: _) as html) =>
      JSDOM html <> None
      /\ (jobs (parsedPage this service visit) <> [] -> Visit.saved visit = true)
  | _ => True
  end.

End Run.

(** The services with the number of their iteration, from [i] on. *)
Fixpoint numbered (i : nat) (services : list Service.t) : list (nat * Service.t) :=
  match services with
  | [] => []
  | service :: rest => (i, service) :: numbered (S i) rest
  end.

(** [main]: a scraper is built, which loads the services, and is run;
    [None] when the process ends in [loadServices]. *)
Definition main {dom : DOM} (tz : TimeZone) (MAX_HOURS : option jsstring)
  (servicesData : option (list Service.t)) (world : nat -> Visit.t)
  (combinedSaved : bool) : option (list Effect) :=
  match loadServices servicesData with
  | Some services =>
      Some (run tz (constructor MAX_HOURS) services world combinedSaved)
  | None => None
  end.

(** Kinds of calls in a trace. *)
Definition isFetchPage (e : Effect) : bool :=
  match e with FetchPage _ => true | _ => false end.

(** The calls made inside one iteration after the page is fetched. *)
Definition insideIteration (e : Effect) : bool :=
  match e with
  | InsertJobs _ _ | SparkAlert _ _ _ | SaveResults _ _ | Delay _ => true
  | _ => false
  end.

(** The calls of the loop. *)
Definition ofLoop (e : Effect) : bool := isFetchPage e || insideIteration e.

Definition fetches (trace : list Effect) : nat :=
  List.length (filter isFetchPage trace).

(** The pages of a run and the entries of its summary, as they come out
    when each page is parsed on its own by the scraper [this]. *)
Definition pagesOf {dom : DOM} (tz : TimeZone) (this : Scraper) (world : nat -> Visit.t)
  (i : nat) (services : list Service.t) : list ParseResult :=
  map (fun p => parsedPage tz this (snd p) (world (fst p))) (numbered i services).

Definition summariesOf {dom : DOM} (tz : TimeZone) (this : Scraper)
  (world : nat -> Visit.t) (i : nat) (services : list Service.t)
  : list Summary.t :=
  map (fun p => summaryOf tz this (snd p) (world (fst p))) (numbered i services).

(** Every visit of a run is quiet. *)
Definition allQuiet {dom : DOM} (tz : TimeZone) (this : Scraper)
  (world : nat -> Visit.t)
  (i : nat) (services : list Service.t) : Prop :=
  Forall (fun p => quiet tz this (snd p) (world (fst p))) (numbered i services).

(** The state in which a loop ends. *)
Definition stateOf (r : RunResult) : RunState :=
  match r with
  | Completed st => st
  | Aborted st => st
  end.

(** The characters of an encoded parameter. *)
Definition isEncoded (c : codeUnit) : bool :=
  Url.isUnreserved c || (c =? 43)%N || (c =? 37)%N.

(** *** Concrete data of the further properties *)

(** A world in which every page is [twoTimes], fetched at [march1st],
    and every file is written. *)
Definition quietWorld : nat -> Visit.t :=
  fun _ => {| Visit.html := Some twoTimes;
              Visit.now := march1st;
              Visit.saved := true |}.

(** A world in which the files of the services cannot be written. *)
Definition failingWorld : nat -> Visit.t :=
  fun _ => {| Visit.html := Some twoTimes;
              Visit.now := march1st;
              Visit.saved := false |}.

(** A document of two cards, the first with a title in Cyrillic
    capitals, parsed for a descriptor whose keyword is in small
    letters. *)
Definition driverCards : list TestDOM.element :=
  [TestDOM.card (driverCyrillicCapitals ++ js " Courier") (js "Austin, TX");
   TestDOM.card (js "Warehouse Associate") (js "Remote")].

Definition driverCall : Completion ParseResult * Scraper :=
  @parseJobsFromHTML (domOf driverCards) 0%Z (constructor None) twoTimes
    (serviceWith [JString driverCyrillic]) march1st.

(** The call of [parseJobsFromHTML] on the document of three cards, by a
    scraper with a window of [hours]. *)
Definition threeCardsCall (hours : option jsstring)
  : Completion ParseResult * Scraper :=
  @parseJobsFromHTML (domOf threeCards) 0%Z (constructor hours) twoTimes
    service2h march1st.

(** * Properties *)

(** ** Strings *)

Lemma isDigit_not_space c : isDigit c = true -> isSpace c = false.
Proof.
  unfold isDigit, isSpace; intros H.
  destruct (_ || _) eqn:E; [| reflexivity].
  bool_prop; lia.
Qed.

Lemma isSpace_not_digit c : isSpace c = true -> isDigit c = false.
Proof.
  intros H; destruct (isDigit c) eqn:E; [| reflexivity].
  apply isDigit_not_space in E; congruence.
Qed.

Lemma foldAscii_digit c : isDigit c = true -> foldAscii c = c.
Proof.
  unfold isDigit, foldAscii; intros H.
  destruct (_ && _) eqn:E in |- *; [| reflexivity].
  bool_prop; lia.
Qed.

Lemma foldAscii_space c : isSpace c = true -> foldAscii c = c.
Proof.
  unfold isSpace, foldAscii; intros H.
  destruct ((65 <=? c)%N && _) eqn:E; [| reflexivity].
  bool_prop; lia.
Qed.

Lemma map_fixed (f : codeUnit -> codeUnit) (p : codeUnit -> bool) s :
  (forall c, p c = true -> f c = c) ->
  Forall (fun c => p c = true) s -> map f s = s.
Proof.
  intros Hp Hs; induction Hs as [| c s Hc _ IH]; [reflexivity |].
  simpl; rewrite Hp, IH; auto.
Qed.

(** ** Lower case

    On a string of ASCII and white space [toLowerCase] is the fold of
    the ASCII capitals. *)

Lemma isSpace_units c : isSpace c = true -> In c spaceUnits.
Proof.
  unfold isSpace, spaceUnits. intros H. bool_prop; subst;
    try (simpl; tauto).
  - assert (E : (9 = c \/ 10 = c \/ 11 = c \/ 12 = c \/ 13 = c)%N) by lia.
    simpl. tauto.
  - assert (E : (8192 = c \/ 8193 = c \/ 8194 = c \/ 8195 = c \/ 8196 = c
                 \/ 8197 = c \/ 8198 = c \/ 8199 = c \/ 8200 = c
                 \/ 8201 = c \/ 8202 = c)%N) by lia.
    simpl. tauto.
Qed.

Lemma ascii_units c : (c < 128)%N -> In c asciiUnits.
Proof.
  intros H. rewrite <- (N2Nat.id c). apply in_map, in_seq. lia.
Qed.

Lemma plain_lowers c : plain c = true -> lowersAsAscii c = true.
Proof.
  intros H.
  assert (A : forallb lowersAsAscii (asciiUnits ++ spaceUnits) = true)
    by (vm_compute; reflexivity).
  rewrite forallb_forall in A. apply A. apply in_or_app.
  unfold plain in H. apply orb_true_iff in H. destruct H as [H | H].
  - left. apply N.ltb_lt in H. now apply ascii_units.
  - right. now apply isSpace_units.
Qed.

Lemma codePoints_plain s :
  Forall (fun c => plain c = true) s -> Unicode.codePoints s = s.
Proof.
  intros H; induction H as [| c s Hc _ IH]; [reflexivity |].
  apply plain_lowers in Hc. unfold lowersAsAscii in Hc. bool_prop.
  cbn [Unicode.codePoints].
  match goal with E : isHighSurrogate c = false |- _ => rewrite E end.
  now rewrite IH.
Qed.

Lemma lowerFrom_plain s : forall afterCased,
  Forall (fun c => plain c = true) s ->
  Unicode.lowerFrom afterCased s = map foldAscii s.
Proof.
  induction s as [| c s IH]; intros afterCased H; [reflexivity |].
  inversion H as [| ? ? Hc Hs]; subst.
  apply plain_lowers in Hc. unfold lowersAsAscii in Hc.
  repeat (apply andb_true_iff in Hc; destruct Hc as [Hc ?]).
  repeat match goal with
         | E : negb _ = true |- _ => apply negb_true_iff in E
         | E : (_ =? _)%N = true |- _ => apply N.eqb_eq in E
         end.
  cbn [Unicode.lowerFrom map].
  match goal with E : (c =? Unicode.capitalSigma)%N = false |- _ => rewrite E end.
  match goal with E : (c =? Unicode.capitalIWithDot)%N = false |- _ => rewrite E end.
  match goal with E : Unicode.simpleLowercase c = _ |- _ => rewrite E end.
  cbn [app]. f_equal. now apply IH.
Qed.

Lemma codeUnits_plain s :
  Forall (fun c => plain c = true) s ->
  flat_map Unicode.codeUnits (map foldAscii s) = map foldAscii s.
Proof.
  intros H; induction H as [| c s Hc _ IH]; [reflexivity |].
  apply plain_lowers in Hc. unfold lowersAsAscii in Hc. bool_prop.
  cbn [map flat_map]. unfold Unicode.codeUnits at 1.
  match goal with E : (foldAscii c < 65536)%N |- _ =>
    apply N.ltb_lt in E; rewrite E end.
  cbn [app]. now rewrite IH.
Qed.

Lemma toLowerCase_plain s :
  Forall (fun c => plain c = true) s -> toLowerCase s = map foldAscii s.
Proof.
  intros H. unfold toLowerCase.
  now rewrite (codePoints_plain H), (lowerFrom_plain _ H), (codeUnits_plain H).
Qed.

Lemma digit_plain c : isDigit c = true -> plain c = true.
Proof.
  unfold isDigit, plain. intros H. bool_prop. apply orb_true_iff. left.
  apply N.ltb_lt. lia.
Qed.

Lemma space_plain c : isSpace c = true -> plain c = true.
Proof. unfold plain. intros ->. apply orb_true_r. Qed.

Lemma ascii_plain c : (c < 128)%N -> plain c = true.
Proof. unfold plain. intros H. apply N.ltb_lt in H. now rewrite H. Qed.

(** A code unit that folds to an ASCII character is one. *)
Lemma foldAscii_ascii c : (foldAscii c < 128)%N -> (c < 128)%N.
Proof.
  unfold foldAscii. destruct ((65 <=? c)%N && (c <=? 90)%N) eqn:E; [| auto].
  bool_prop. lia.
Qed.

Lemma folded_plain w :
  Forall (fun c => (c < 128)%N) (map foldAscii w) ->
  Forall (fun c => plain c = true) w.
Proof.
  intros H. apply Forall_map in H. eapply Forall_impl; [| exact H].
  intros c Hc. now apply ascii_plain, foldAscii_ascii.
Qed.

Lemma takeWhile_app p a r :
  Forall (fun c => p c = true) a -> headFails p r -> takeWhile p (a ++ r) = a.
Proof.
  intros Ha Hr; induction Ha as [| c a Hc _ IH]; simpl.
  - destruct r; simpl in *; [reflexivity | now rewrite Hr].
  - now rewrite Hc, IH.
Qed.

Lemma dropWhile_app p a r :
  Forall (fun c => p c = true) a -> headFails p r -> dropWhile p (a ++ r) = r.
Proof.
  intros Ha Hr; induction Ha as [| c a Hc _ IH]; simpl.
  - destruct r; simpl in *; [reflexivity | now rewrite Hr].
  - now rewrite Hc.
Qed.

Lemma headFails_app_spaces ws r :
  Forall (fun c => isSpace c = true) ws ->
  headFails isDigit r -> headFails isDigit (ws ++ r).
Proof.
  intros Hws Hr; destruct Hws as [| c ws Hc _]; simpl; auto using isSpace_not_digit.
Qed.

(** ** The patterns [(\d+)\s*(u1|...)] *)

(** The shape of a successful attempt: digits, white space, then text that
    begins with neither. *)
Lemma matchAt_number units ds ws r :
  ds <> [] ->
  Forall (fun c => isDigit c = true) ds ->
  Forall (fun c => isSpace c = true) ws ->
  headFails isDigit r -> headFails isSpace r ->
  Regex.matchAt units (ds ++ ws ++ r) =
  option_map (fun u => (ds, u)) (Regex.firstAlternative units r).
Proof.
  intros Hne Hds Hws Hd Hs; unfold Regex.matchAt.
  rewrite takeWhile_app, dropWhile_app, dropWhile_app;
    auto using headFails_app_spaces.
  destruct ds; [congruence |].
  now destruct (Regex.firstAlternative units r).
Qed.

Lemma matchAt_no_digit units s :
  headFails isDigit s -> Regex.matchAt units s = None.
Proof.
  intros H; unfold Regex.matchAt.
  destruct s as [| c s]; simpl in *; [reflexivity | now rewrite H].
Qed.

Lemma exec_unfold units s :
  Regex.exec units s =
  match Regex.matchAt units s with
  | Some m => Some m
  | None => match s with [] => None | _ :: s' => Regex.exec units s' end
  end.
Proof. destruct s; reflexivity. Qed.

Lemma exec_no_digit units s :
  Forall (fun c => isDigit c = false) s -> Regex.exec units s = None.
Proof.
  intros H; induction H as [| c s Hc _ IH]; simpl.
  - reflexivity.
  - rewrite matchAt_no_digit by exact Hc. exact IH.
Qed.

Lemma exec_found units ds ws r u :
  ds <> [] ->
  Forall (fun c => isDigit c = true) ds ->
  Forall (fun c => isSpace c = true) ws ->
  headFails isDigit r -> headFails isSpace r ->
  Regex.firstAlternative units r = Some u ->
  Regex.exec units (ds ++ ws ++ r) = Some (ds, u).
Proof.
  intros Hne Hds Hws Hd Hs Hu.
  assert (M := @matchAt_number units ds ws r Hne Hds Hws Hd Hs).
  rewrite Hu in M; simpl in M.
  now rewrite exec_unfold, M.
Qed.

Lemma exec_not_found units ds ws r :
  Forall (fun c => isDigit c = true) ds ->
  Forall (fun c => isSpace c = true) ws ->
  headFails isDigit r -> headFails isSpace r ->
  Regex.firstAlternative units r = None ->
  Forall (fun c => isDigit c = false) r ->
  Regex.exec units (ds ++ ws ++ r) = None.
Proof.
  intros Hds Hws Hd Hs Hu Hr.
  induction Hds as [| c ds Hc Hds IH].
  - simpl. apply exec_no_digit. apply Forall_app. split; [| exact Hr].
    eapply Forall_impl; [| exact Hws]. apply isSpace_not_digit.
  - assert (M : Regex.matchAt units ((c :: ds) ++ ws ++ r) = None).
    { rewrite matchAt_number; auto; [now rewrite Hu | discriminate]. }
    rewrite exec_unfold, M. exact IH.
Qed.

Lemma startsWith_app u r : startsWith u r = true -> exists rest, r = u ++ rest.
Proof.
  revert r; induction u as [| c u IH]; intros r H; simpl in *.
  - now exists r.
  - destruct r as [| d r]; [discriminate |].
    apply andb_true_iff in H; destruct H as [Hc Hu].
    apply N.eqb_eq in Hc; subst d.
    destruct (IH _ Hu) as [rest ->]. now exists rest.
Qed.

Lemma takeWhile_dropWhile p s : s = takeWhile p s ++ dropWhile p s.
Proof.
  induction s as [| c s IH]; simpl; [reflexivity |].
  destruct (p c); simpl; congruence.
Qed.

Lemma takeWhile_Forall p s : Forall (fun c => p c = true) (takeWhile p s).
Proof.
  induction s as [| c s IH]; simpl; [constructor |].
  destruct (p c) eqn:E; constructor; assumption.
Qed.

(** A successful attempt reads digits, white space and one alternative. *)
Lemma matchAt_sound units s ds u :
  Regex.matchAt units s = Some (ds, u) ->
  exists ws rest,
    s = ds ++ ws ++ u ++ rest
    /\ ds <> []
    /\ Forall (fun c => isDigit c = true) ds
    /\ Forall (fun c => isSpace c = true) ws
    /\ In u units.
Proof.
  unfold Regex.matchAt, Regex.firstAlternative; intros H.
  destruct (takeWhile isDigit s) as [| d ds'] eqn:Eds; [discriminate |].
  destruct (find _ units) as [u' |] eqn:Eu; [| discriminate].
  injection H as <- <-.
  apply find_some in Eu; destruct Eu as [Hin Hu].
  apply startsWith_app in Hu; destruct Hu as [rest Hrest].
  exists (takeWhile isSpace (dropWhile isDigit s)), rest.
  repeat split; auto.
  - rewrite <- Hrest, <- takeWhile_dropWhile, <- Eds. apply takeWhile_dropWhile.
  - discriminate.
  - rewrite <- Eds. apply takeWhile_Forall.
  - apply takeWhile_Forall.
Qed.

Lemma exec_sound units s ds u :
  Regex.exec units s = Some (ds, u) ->
  exists pre ws rest,
    s = pre ++ ds ++ ws ++ u ++ rest
    /\ ds <> []
    /\ Forall (fun c => isDigit c = true) ds
    /\ Forall (fun c => isSpace c = true) ws
    /\ In u units.
Proof.
  induction s as [| c s IH]; rewrite exec_unfold; intros H.
  - destruct (Regex.matchAt units []) as [m |] eqn:M; [| discriminate].
    injection H as ->. apply matchAt_sound in M.
    destruct M as (ws & rest & M). exists [], ws, rest. exact M.
  - destruct (Regex.matchAt units (c :: s)) as [m |] eqn:M.
    + injection H as ->. apply matchAt_sound in M.
      destruct M as (ws & rest & M). exists [], ws, rest. exact M.
    + destruct (IH H) as (pre & ws & rest & -> & Hrest).
      exists (c :: pre), ws, rest. split; [reflexivity | exact Hrest].
Qed.

(** ** Decimal numerals *)

Lemma mathInt_fold ds : mathInt ds = fold_left digitStep ds 0%N.
Proof. reflexivity. Qed.

Lemma digitsOf_value fuel : forall n acc,
  (n < 2 ^ N.of_nat fuel)%N ->
  fold_left digitStep (digitsOf fuel n acc) 0%N = fold_left digitStep acc n.
Proof.
  induction fuel as [| fuel IH]; intros n acc Hn.
  - simpl in *. assert (n = 0%N) by lia. now subst.
  - cbn [digitsOf].
    assert (Hmod : (n mod 10 < 10)%N) by (apply N.mod_lt; lia).
    assert (Hdiv : (n = 10 * (n / 10) + n mod 10)%N) by (apply N.div_mod; lia).
    rewrite Nat2N.inj_succ, N.pow_succ_r' in Hn.
    revert Hn Hmod Hdiv.
    generalize (n / 10)%N (n mod 10)%N (2 ^ N.of_nat fuel)%N (IH (n / 10)%N).
    intros q r b IHq Hn Hmod Hdiv.
    destruct (N.eqb_spec q 0) as [E | E].
    + cbn [fold_left]. unfold digitStep at 2. f_equal. lia.
    + rewrite IHq by lia.
      cbn [fold_left]. unfold digitStep at 2. f_equal. lia.
Qed.

Lemma mathInt_N_toString n : mathInt (N_toString n) = n.
Proof.
  unfold N_toString. rewrite mathInt_fold, digitsOf_value; [reflexivity |].
  rewrite Nat2N.inj_succ, N2Nat.id.
  destruct n as [| p]; [reflexivity |].
  apply N.log2_spec. lia.
Qed.

Lemma digitsOf_digits fuel : forall n acc,
  Forall (fun c => isDigit c = true) acc ->
  Forall (fun c => isDigit c = true) (digitsOf fuel n acc).
Proof.
  induction fuel as [| fuel IH]; intros n acc Hacc; [exact Hacc |].
  cbn [digitsOf].
  assert (Hmod : (n mod 10 < 10)%N) by (apply N.mod_lt; lia).
  assert (Hd : isDigit (48 + n mod 10)%N = true).
  { revert Hmod; generalize (n mod 10)%N; intros r Hr.
    unfold isDigit. apply andb_true_iff; split; apply N.leb_le; lia. }
  destruct (n / 10 =? 0)%N; [| apply IH]; constructor; assumption.
Qed.

Lemma digitsOf_nonempty fuel : forall n acc,
  acc <> [] -> digitsOf fuel n acc <> [].
Proof.
  induction fuel as [| fuel IH]; intros n acc Hacc; [exact Hacc |].
  cbn [digitsOf]. destruct (n / 10 =? 0)%N; [| apply IH]; discriminate.
Qed.

Lemma N_toString_digits n : Forall (fun c => isDigit c = true) (N_toString n).
Proof. apply digitsOf_digits. constructor. Qed.

Lemma N_toString_nonempty n : N_toString n <> [].
Proof.
  unfold N_toString. cbn [digitsOf].
  destruct (n / 10 =? 0)%N; [| apply digitsOf_nonempty]; discriminate.
Qed.

Lemma Z_toString_nonneg z : (0 <= z)%Z -> Z_toString z = N_toString (Z.to_N z).
Proof. destruct z; [reflexivity | reflexivity | lia]. Qed.

(** ** Numbers *)

Lemma round_integer z :
  (Z.abs z <= 2 ^ 53)%Z -> round (inject_Z z) = ofZ z.
Proof.
  change (2 ^ 53)%Z with 9007199254740992%Z.
  intros H. unfold round, ofZ, inject_Z. cbn [Qnum Qden].
  destruct z as [| p | p]; [reflexivity | |]; unfold roundPositive;
    change (2 ^ 53)%Z with 9007199254740992%Z;
    (destruct (Z.leb_spec (Zpos p) 9007199254740992) as [_ | L]; [| lia]);
    reflexivity.
Qed.

Lemma leb_ofZ a b : leb (ofZ a) (ofZ b) = (a <=? b)%Z.
Proof.
  unfold leb, ofZ, Qle_bool, inject_Z. cbn [Qnum Qden].
  now rewrite !Z.mul_1_r.
Qed.

Lemma eqb_ofZ a b : eqb (ofZ a) (ofZ b) = (a =? b)%Z.
Proof.
  unfold eqb. rewrite !leb_ofZ.
  destruct (Z.leb_spec a b), (Z.leb_spec b a), (Z.eqb_spec a b);
    try reflexivity; lia.
Qed.

Lemma toInteger_ofZ a : toInteger (ofZ a) = Some a.
Proof.
  unfold toInteger, ofZ, inject_Z. cbn [Qnum Qden]. now rewrite Z.quot_1_r.
Qed.

Lemma add_round a b : add (ofZ a) (ofZ b) = round (inject_Z (a + b)).
Proof.
  unfold add, ofZ, Qplus, inject_Z. cbn [Qnum Qden Pos.mul].
  now rewrite !Z.mul_1_r.
Qed.

Lemma sub_round a b : sub (ofZ a) (ofZ b) = round (inject_Z (a - b)).
Proof.
  unfold sub, neg, ofZ, inject_Z, Qopp. cbn [Qnum Qden].
  change (add (Finite (a # 1)) (Finite (- b # 1)))
    with (add (ofZ a) (ofZ (- b))).
  rewrite add_round. now replace (a + - b)%Z with (a - b)%Z by lia.
Qed.

Lemma add_ofZ a b :
  (Z.abs (a + b) <= 2 ^ 53)%Z -> add (ofZ a) (ofZ b) = ofZ (a + b).
Proof. intros H. now rewrite add_round, round_integer. Qed.

Lemma sub_ofZ a b :
  (Z.abs (a - b) <= 2 ^ 53)%Z -> sub (ofZ a) (ofZ b) = ofZ (a - b).
Proof. intros H. now rewrite sub_round, round_integer. Qed.

(** The double of an integer above 2^53 is an integer from 2^53 on, or
    an infinity. *)
Lemma roundPositive_large p :
  (2 ^ 53 < Zpos p)%Z ->
  roundPositive p 1 = PlusInfinity
  \/ exists r, (2 ^ 53 <= r)%Z /\ roundPositive p 1 = ofZ r.
Proof.
  intros H.
  assert (L : (53 <= Z.log2 (Zpos p))%Z).
  { change 53%Z with (Z.log2 (2 ^ 53)). apply Z.log2_le_mono. lia. }
  destruct (Z.log2_spec (Zpos p) ltac:(lia)) as [Lo _].
  unfold roundPositive, floorLog2.
  change (Z.log2 1) with 0%Z. rewrite Z.sub_0_r.
  destruct (Z.leb_spec (Zpos p) (2 ^ 53)) as [C | _]; [lia |].
  rewrite andb_false_r.
  destruct (Z.leb_spec 0 (Z.log2 (Zpos p))) as [_ | C]; [| lia].
  rewrite !Z.mul_1_l.
  destruct (Z.leb_spec (2 ^ Z.log2 (Zpos p)) (Zpos p)) as [_ | C]; [| lia].
  rewrite Z.max_l by lia.
  set (pe := (Z.log2 (Zpos p) - 52)%Z) in *.
  destruct (Z.leb_spec 0 pe) as [_ | C]; [| unfold pe in C; lia].
  rewrite ?Z.mul_1_l.
  set (d := (2 ^ pe)%Z).
  assert (Hd : (2 <= d)%Z).
  { unfold d. change 2%Z with (2 ^ 1)%Z at 1.
    apply Z.pow_le_mono_r; unfold pe; lia. }
  assert (Hm : (2 ^ 52 <= Zpos p / d)%Z).
  { apply Z.div_le_lower_bound; [lia |].
    replace (d * 2 ^ 52)%Z with (2 ^ Z.log2 (Zpos p))%Z; [exact Lo |].
    unfold d, pe. rewrite <- Z.pow_add_r by lia. f_equal. lia. }
  set (m := (Zpos p / d)%Z) in *.
  set (m' := if (2 * (Zpos p mod d) <? d)%Z then m
             else if (d <? 2 * (Zpos p mod d))%Z then (m + 1)%Z
             else if Z.even m then m else (m + 1)%Z).
  assert (Hm' : (m <= m')%Z).
  { unfold m'. destruct (_ <? _)%Z; [lia |]. destruct (_ <? _)%Z; [lia |].
    destruct (Z.even m); lia. }
  destruct (2 ^ 1024 <=? m' * d)%Z; [now left | right].
  exists (m' * d)%Z. split; [| reflexivity].
  change (2 ^ 53)%Z with (2 ^ 52 * 2)%Z. apply Z.mul_le_mono_nonneg; lia.
Qed.

(** The double of an integer, by its size. *)
Lemma round_cases z :
  round (inject_Z z) = ofZ z
  \/ (2 ^ 53 < z)%Z
     /\ (round (inject_Z z) = PlusInfinity
         \/ exists r, (2 ^ 53 <= r)%Z /\ round (inject_Z z) = ofZ r)
  \/ (z < - 2 ^ 53)%Z
     /\ (round (inject_Z z) = MinusInfinity
         \/ exists r, (r <= - 2 ^ 53)%Z /\ round (inject_Z z) = ofZ r).
Proof.
  destruct (Z_le_gt_dec (Z.abs z) (2 ^ 53)) as [S | B];
    [left; now apply round_integer |].
  right. destruct z as [| p | p]; [cbn in B; lia | left | right].
  - split; [lia |]. unfold round, inject_Z. cbn [Qnum Qden].
    apply roundPositive_large. lia.
  - split; [lia |]. unfold round, inject_Z. cbn [Qnum Qden].
    destruct (@roundPositive_large p) as [-> | (r & Hr & ->)]; [lia | now left |].
    right. exists (- r)%Z. split; [lia |].
    unfold neg, ofZ, inject_Z, Qopp. reflexivity.
Qed.

Lemma parseInt_exact ds :
  (Z.of_N (mathInt ds) <= 2 ^ 53)%Z -> parseInt ds = ofZ (Z.of_N (mathInt ds)).
Proof. intros H. unfold parseInt. apply round_integer. lia. Qed.

(** [field - parseInt(ds)], for a field of a date and a run of digits:
    the exact difference for a number up to 2^53, and beyond it a number
    at least 2^53 below the field, or an infinity. *)
Lemma field_minus_number field ds :
  (0 <= field <= 2 ^ 53)%Z ->
  let n := Z.of_N (mathInt ds) in
  ((n <= 2 ^ 53)%Z -> sub (ofZ field) (parseInt ds) = ofZ (field - n))
  /\ ((2 ^ 53 < n)%Z ->
        toInteger (sub (ofZ field) (parseInt ds)) = None
        \/ exists k, (2 ^ 53 <= k)%Z
             /\ sub (ofZ field) (parseInt ds) = ofZ (field - k)).
Proof.
  change (2 ^ 53)%Z with 9007199254740992%Z.
  intros Hf n. split.
  - intros Hn. rewrite parseInt_exact by (fold n; change (2 ^ 53)%Z
      with 9007199254740992%Z; lia).
    fold n. apply sub_ofZ. change (2 ^ 53)%Z with 9007199254740992%Z. lia.
  - intros Hn.
    assert (F : forall r, (9007199254740992 <= r)%Z ->
              toInteger (sub (ofZ field) (ofZ r)) = None
              \/ exists k, (9007199254740992 <= k)%Z
                   /\ sub (ofZ field) (ofZ r) = ofZ (field - k)).
    { intros r Hr. rewrite sub_round.
      destruct (round_cases (field - r)) as [E | [[C _] | [C [E | (r' & Hr' & E)]]]].
      - right. exists r. split; [exact Hr | exact E].
      - change (2 ^ 53)%Z with 9007199254740992%Z in C. lia.
      - left. now rewrite E.
      - right. exists (field - r')%Z.
        change (2 ^ 53)%Z with 9007199254740992%Z in Hr'.
        split; [lia |]. rewrite E. f_equal. lia. }
    unfold parseInt. fold n.
    destruct (round_cases n) as [E | [[C [E | (r & Hr & E)]] | [C _]]]; rewrite ?E.
    + apply F. lia.
    + left. reflexivity.
    + apply F. change (2 ^ 53)%Z with 9007199254740992%Z in Hr. lia.
    + unfold n in C. change (2 ^ 53)%Z with 9007199254740992%Z in C. lia.
Qed.

Lemma leb_trans x y z : leb x y = true -> leb y z = true -> leb x z = true.
Proof.
  destruct x as [| a | |], y as [| b | |], z as [| c | |];
    simpl; try congruence; try reflexivity.
  rewrite !Qle_bool_iff. apply Qle_trans.
Qed.
(** ** The tokens of the scan *)







(** ** Recency window *)

Lemma isTimeWithin6Hours_unfold this s :
  s <> [] ->
  isTimeWithin6Hours this s =
  match Regex.exec windowUnits (toLowerCase s) with
  | None => false
  | Some (digits, unit) =>
      if includes unit (js "minute") || includes unit (js "min") then true
      else if includes unit (js "hour")
           then leb (parseInt digits) (maxHoursWindow this)
           else false
  end.
Proof. destruct s; [congruence | reflexivity]. Qed.

Lemma unitWords_ascii u w :
  In w (unitWords u) -> Forall (fun c => (c < 128)%N) w.
Proof.
  intros H. destruct u; simpl in H; destruct H as [<- | [<- | []]];
    repeat (constructor; [reflexivity |]); constructor.
Qed.

(** The lower case of a token. *)
Lemma toLowerCase_token ds ws1 word ws2 ago w :
  Forall (fun c => isDigit c = true) ds ->
  Forall (fun c => isSpace c = true) ws1 ->
  Forall (fun c => isSpace c = true) ws2 ->
  map foldAscii word = w -> Forall (fun c => (c < 128)%N) w ->
  map foldAscii ago = js "ago" ->
  toLowerCase (ds ++ ws1 ++ word ++ ws2 ++ ago) =
  ds ++ ws1 ++ (w ++ ws2 ++ js "ago").
Proof.
  intros Hds Hws1 Hws2 Hword Hw Hago.
  assert (P : Forall (fun c => plain c = true) (ds ++ ws1 ++ word ++ ws2 ++ ago)).
  { repeat (apply Forall_app; split).
    - eapply Forall_impl; [| exact Hds]. apply digit_plain.
    - eapply Forall_impl; [| exact Hws1]. apply space_plain.
    - apply folded_plain. now rewrite Hword.
    - eapply Forall_impl; [| exact Hws2]. apply space_plain.
    - apply folded_plain. rewrite Hago.
      repeat (constructor; [reflexivity |]); constructor. }
  rewrite (toLowerCase_plain P), !map_app, Hword, Hago.
  now rewrite (map_fixed foldAscii isDigit foldAscii_digit Hds),
              (map_fixed foldAscii isSpace foldAscii_space Hws1),
              (map_fixed foldAscii isSpace foldAscii_space Hws2).
Qed.

Lemma no_digit_tail ws2 :
  Forall (fun c => isSpace c = true) ws2 ->
  Forall (fun c => isDigit c = false) (ws2 ++ js "ago").
Proof.
  intros H. apply Forall_app. split.
  - eapply Forall_impl; [| exact H]. apply isSpace_not_digit.
  - repeat constructor.
Qed.

(** The verdict on a token, by its unit and its number. *)
Lemma isTimeWithin6Hours_token this u ds tok :
  isToken u ds tok ->
  isTimeWithin6Hours this tok = recentByUnit (maxHoursWindow this) u (parseInt ds).
Proof.
  intros (ws1 & word & ws2 & ago & -> & Hne & Hds & Hws1 & Hin & Hws2 & Hago).
  rewrite isTimeWithin6Hours_unfold by (destruct ds; [congruence | discriminate]).
  rewrite (@toLowerCase_token ds ws1 word ws2 ago (map foldAscii word))
    by (assumption || reflexivity || now apply (@unitWords_ascii u)).
  assert (Htail := no_digit_tail Hws2).
  destruct u; simpl in Hin; destruct Hin as [<- | [<- | []]].
  1, 2: rewrite (@exec_found windowUnits ds ws1 _ (js "minute"));
    (reflexivity || assumption).
  1, 2: rewrite (@exec_found windowUnits ds ws1 _ (js "hour"));
    (reflexivity || assumption).
  all: rewrite exec_not_found;
    [ reflexivity | assumption | assumption | reflexivity | reflexivity
    | reflexivity | repeat (constructor; [reflexivity |]); exact Htail ].
Qed.


Lemma hoursAgo_token n :
  (0 <= n)%Z -> isToken InHours (Z_toString n) (hoursAgo n).
Proof.
  intros Hn. exists (js " "), (js "hours"), (js " "), (js "ago").
  unfold hoursAgo. rewrite Z_toString_nonneg by exact Hn.
  split; [reflexivity |].
  split; [apply N_toString_nonempty |].
  split; [apply N_toString_digits |].
  split; [repeat constructor |].
  split; [simpl; right; left; reflexivity |].
  split; [repeat constructor | reflexivity].
Qed.

Lemma mathInt_Z_toString n :
  (0 <= n)%Z -> Z.of_N (mathInt (Z_toString n)) = n.
Proof.
  intros Hn. rewrite Z_toString_nonneg, mathInt_N_toString by exact Hn. lia.
Qed.

Lemma parseInt_Z_toString n :
  (0 <= n <= maxSafe)%Z -> parseInt (Z_toString n) = ofZ n.
Proof.
  intros Hn. unfold maxSafe in Hn.
  rewrite parseInt_exact; rewrite mathInt_Z_toString by lia;
    [reflexivity | change (2 ^ 53)%Z with 9007199254740992%Z; lia].
Qed.



(** ** Location parsing *)

Lemma split_nonempty sep s : split sep s <> [].
Proof.
  destruct s as [| c s]; simpl; [discriminate |].
  destruct (unit_eqb c sep); [discriminate |].
  destruct (split sep s); discriminate.
Qed.

Lemma hd_split sep s : hd [] (split sep s) = beforeFirst sep s.
Proof.
  unfold beforeFirst.
  induction s as [| c s IH]; simpl; [reflexivity |].
  destruct (unit_eqb c sep); simpl; [reflexivity |].
  destruct (split sep s) eqn:E; simpl in *; [| now rewrite IH].
  now apply split_nonempty in E.
Qed.

Lemma split_single sep s p : split sep s = [p] -> p = s.
Proof.
  revert p; induction s as [| c s IH]; simpl; intros p H.
  - congruence.
  - destruct (unit_eqb c sep).
    + injection H as _ H. now apply split_nonempty in H.
    + destruct (split sep s) as [| q qs] eqn:E; [now apply split_nonempty in E |].
      injection H as <- ->. now rewrite (IH q eq_refl).
Qed.

Lemma dropWhile_headFails p s : headFails p (dropWhile p s).
Proof.
  induction s as [| c s IH]; simpl; [exact I |].
  destruct (p c) eqn:E; [exact IH | exact E].
Qed.

Lemma dropWhile_id p s : headFails p s -> dropWhile p s = s.
Proof. destruct s; simpl; [reflexivity | now intros ->]. Qed.

(** What [trimEnd] removes is a suffix. *)
Lemma trimEnd_prefix s : exists ws, s = trimEnd s ++ ws.
Proof.
  unfold trimEnd. exists (rev (takeWhile isSpace (rev s))).
  rewrite <- rev_app_distr, <- takeWhile_dropWhile. now rewrite rev_involutive.
Qed.

Lemma trim_headFails s : headFails isSpace (trim s).
Proof.
  unfold trim. destruct (trimEnd_prefix (trimStart s)) as [ws E].
  assert (H := dropWhile_headFails isSpace s). fold (trimStart s) in H.
  rewrite E in H. now destruct (trimEnd (trimStart s)).
Qed.

Lemma trim_trim s : trim (trim s) = trim s.
Proof.
  unfold trim at 1. unfold trimStart.
  rewrite (dropWhile_id _ _ (trim_headFails s)).
  unfold trim, trimEnd. rewrite rev_involutive.
  now rewrite (dropWhile_id _ _ (dropWhile_headFails isSpace _)).
Qed.

(** C9. The location parser cuts the string at the first bullet and splits
    what is left on commas: the first segment is the city and the second,
    when there is one, the state, which is empty otherwise.  So
    "Austin, TX (bullet) Remote" gives city "Austin" and state "TX", and
    "Remote" gives city "Remote" and an empty state. *)
Theorem parseLocation_segments :
  (forall locationString,
     parseLocation locationString = parseLocation_spec locationString)
  /\ parseLocation (js "Austin, TX " ++ [bullet] ++ js " Remote")
     = {| Loc.city := js "Austin"; Loc.state := js "TX" |}
  /\ parseLocation (js "Remote")
     = {| Loc.city := js "Remote"; Loc.state := [] |}.
Proof.
  split; [| split; reflexivity].
  intros s. unfold parseLocation, parseLocation_spec.
  rewrite hd_split.
  destruct (split comma (trim (beforeFirst bullet s))) as [| p0 [| p1 ps]] eqn:E.
  - now apply split_nonempty in E.
  - apply split_single in E. subst p0. simpl. now rewrite trim_trim.
  - reflexivity.
Qed.

(** ** Deduplication by fingerprint *)

Lemma jseqb_eq a b : jseqb a b = true <-> a = b.
Proof.
  revert b; induction a as [| x a IH]; intros [| y b]; simpl;
    try (split; congruence).
  rewrite andb_true_iff, IH. unfold unit_eqb. rewrite N.eqb_eq.
  split; [intros [-> ->]; reflexivity | intros H; injection H; auto].
Qed.

Lemma jseqb_refl a : jseqb a a = true.
Proof. now apply jseqb_eq. Qed.

Lemma seen_In k seen : existsb (fun k' => jseqb k' k) seen = true <-> In k seen.
Proof.
  rewrite existsb_exists. split.
  - intros (k' & Hin & E). apply jseqb_eq in E. now subst.
  - intros Hin. exists k. split; [assumption | apply jseqb_refl].
Qed.

Lemma has_keys (m : JsMap.t Row.t) k :
  JsMap.has m k = existsb (fun k' => jseqb k' k) (map fst m).
Proof.
  unfold JsMap.has. induction m as [| [k' v] m IH]; simpl; [reflexivity |].
  now rewrite IH.
Qed.

Lemma set_fresh (m : JsMap.t Row.t) k v :
  JsMap.has m k = false -> JsMap.set m k v = m ++ [(k, v)].
Proof.
  unfold JsMap.has. induction m as [| [k' v'] m IH]; simpl; [reflexivity |].
  intros H. apply orb_false_iff in H. destruct H as [H1 H2].
  now rewrite H1, IH.
Qed.

(** The result of [keepFirst] depends on which keys were seen, not on the
    order in which they were. *)
Lemma keepFirst_seen rows : forall seen1 seen2,
  (forall k, In k seen1 <-> In k seen2) ->
  keepFirst seen1 rows = keepFirst seen2 rows.
Proof.
  induction rows as [| r rows IH]; intros seen1 seen2 H; simpl; [reflexivity |].
  assert (E : existsb (fun k => jseqb k (Row.fingerprint r)) seen1
              = existsb (fun k => jseqb k (Row.fingerprint r)) seen2).
  { apply eq_true_iff_eq. rewrite !seen_In. apply H. }
  rewrite E. destruct (existsb _ seen2); [now apply IH |].
  f_equal. apply IH. intros k. simpl. now rewrite H.
Qed.

(** The loop over the rows fills the map with the rows [keepFirst] keeps. *)
Lemma dedupe_loop rows : forall m : JsMap.t Row.t,
  JsMap.values (fold_left dedupeStep rows m)
  = JsMap.values m ++ keepFirst (map fst m) rows.
Proof.
  induction rows as [| r rows IH]; intros m; simpl.
  - now rewrite app_nil_r.
  - rewrite IH. unfold dedupeStep. rewrite <- has_keys.
    destruct (JsMap.has m (Row.fingerprint r)) eqn:E; simpl; [reflexivity |].
    rewrite set_fresh by exact E.
    unfold JsMap.values. rewrite !map_app, <- app_assoc. simpl.
    f_equal. f_equal. apply keepFirst_seen.
    intros k. rewrite in_app_iff. simpl. tauto.
Qed.

Lemma dedupe_keepFirst rows : dedupe rows = dedupBatch rows.
Proof. unfold dedupe. fold dedupeStep. now rewrite dedupe_loop. Qed.

Lemma keepFirst_idem rows : forall seen,
  keepFirst seen (keepFirst seen rows) = keepFirst seen rows.
Proof.
  induction rows as [| r rows IH]; intros seen; simpl; [reflexivity |].
  destruct (existsb _ seen) eqn:E; [apply IH |].
  simpl. rewrite E. now rewrite IH.
Qed.

Lemma keepFirst_fresh rows : forall seen r,
  In r (keepFirst seen rows) -> ~ In (Row.fingerprint r) seen.
Proof.
  induction rows as [| x rows IH]; intros seen r; simpl; [tauto |].
  destruct (existsb _ seen) eqn:E; [apply IH |].
  intros [<- | H].
  - intros Hin. apply seen_In in Hin. congruence.
  - intros Hin. apply (IH _ _ H). now right.
Qed.

Lemma keepFirst_NoDup rows : forall seen,
  NoDup (map Row.fingerprint (keepFirst seen rows)).
Proof.
  induction rows as [| x rows IH]; intros seen; simpl; [constructor |].
  destruct (existsb _ seen); [apply IH |].
  simpl. constructor; [| apply IH].
  intros Hin. apply in_map_iff in Hin. destruct Hin as (r & E & Hr).
  apply keepFirst_fresh in Hr. apply Hr. left. now symmetry.
Qed.

Lemma keepFirst_Subseq rows : forall seen, Subseq (keepFirst seen rows) rows.
Proof.
  induction rows as [| x rows IH]; intros seen; simpl; [constructor |].
  destruct (existsb _ seen); constructor; apply IH.
Qed.

(** A kept row is the first of the batch with its fingerprint. *)
Lemma keepFirst_first rows : forall seen r,
  In r (keepFirst seen rows) ->
  exists before after,
    rows = before ++ r :: after
    /\ Forall (fun x => Row.fingerprint x <> Row.fingerprint r) before.
Proof.
  induction rows as [| x rows IH]; intros seen r; simpl; [tauto |].
  destruct (existsb _ seen) eqn:E.
  - intros H. destruct (IH _ _ H) as (before & after & -> & Hb).
    exists (x :: before), after. split; [reflexivity |].
    constructor; [| exact Hb].
    intros Ex. apply keepFirst_fresh in H. apply H.
    apply seen_In. now rewrite <- Ex.
  - intros [<- | H].
    + exists [], rows. split; [reflexivity | constructor].
    + destruct (IH _ _ H) as (before & after & -> & Hb).
      exists (x :: before), after. split; [reflexivity |].
      constructor; [| exact Hb].
      intros Ex. apply keepFirst_fresh in H. apply H. left. exact Ex.
Qed.

(** Every fingerprint of the batch survives. *)
Lemma keepFirst_covers rows : forall seen r,
  In r rows ->
  In (Row.fingerprint r) seen
  \/ In (Row.fingerprint r) (map Row.fingerprint (keepFirst seen rows)).
Proof.
  induction rows as [| x rows IH]; intros seen r; simpl; [tauto |].
  intros [-> | H].
  - destruct (existsb _ seen) eqn:E.
    + left. now apply seen_In.
    + right. now left.
  - destruct (existsb _ seen) eqn:E.
    + now apply IH.
    + destruct (IH (Row.fingerprint x :: seen) r H) as [[Ex | Hs] | Hk].
      * right. left. exact Ex.
      * now left.
      * right. right. exact Hk.
Qed.

(** C4. The deduplication of [insertJobsToSupabase], applied to the rows
    before the request is built: the batch sent is the batch with, for
    each fingerprint, its first row kept and every later row with that
    fingerprint dropped, the kept rows in their original order; and
    deduplicating twice is the same as deduplicating once. *)
Theorem dedupe_first_occurrence (tz : TimeZone) (service : Service.t) :
  (forall job jobs,
     insertJobsToSupabase tz service (job :: jobs)
     = Some (dedupe (supabaseJobs tz service (job :: jobs))))
  /\ (forall rows,
        dedupe rows = dedupBatch rows
        /\ NoDup (map Row.fingerprint (dedupe rows))
        /\ Subseq (dedupe rows) rows
        /\ (forall r, In r (dedupe rows) ->
              exists before after,
                rows = before ++ r :: after
                /\ Forall (fun x => Row.fingerprint x <> Row.fingerprint r) before)
        /\ (forall r, In r rows ->
              In (Row.fingerprint r) (map Row.fingerprint (dedupe rows)))
        /\ dedupe (dedupe rows) = dedupe rows).
Proof.
  split; [reflexivity |].
  intros rows. rewrite !dedupe_keepFirst. unfold dedupBatch.
  split; [reflexivity |].
  split; [apply keepFirst_NoDup |].
  split; [apply keepFirst_Subseq |].
  split; [apply keepFirst_first |].
  split; [| apply keepFirst_idem].
  intros r Hr. destruct (@keepFirst_covers rows [] r Hr) as [[] | H]. exact H.
Qed.


(** ** Numerals and their parsers *)

Lemma split_app_sep sep a b :
  Forall (fun c => unit_eqb c sep = false) a ->
  split sep (a ++ sep :: b) = a :: split sep b.
Proof.
  intros H; induction H as [| c a Hc _ IH]; simpl.
  - unfold unit_eqb. now rewrite N.eqb_refl.
  - now rewrite Hc, IH.
Qed.

Lemma split_no_sep sep a :
  Forall (fun c => unit_eqb c sep = false) a -> split sep a = [a].
Proof.
  intros H; induction H as [| c a Hc _ IH]; simpl; [reflexivity |].
  now rewrite Hc, IH.
Qed.

Lemma digit_not sep c :
  isDigit sep = false -> isDigit c = true -> unit_eqb c sep = false.
Proof.
  intros Hs Hc. unfold unit_eqb. apply N.eqb_neq. intros ->. congruence.
Qed.

Lemma numeralChar_not sep c :
  isDigit sep = false -> sep <> hyphen -> numeralChar c -> unit_eqb c sep = false.
Proof.
  intros Hs Hh [Hc | ->]; [now apply digit_not |].
  unfold unit_eqb. apply N.eqb_neq. congruence.
Qed.

Lemma Z_toString_chars z : Forall numeralChar (Z_toString z).
Proof.
  assert (D : forall n, Forall numeralChar (N_toString n)).
  { intros n. eapply Forall_impl; [| apply N_toString_digits].
    intros c Hc. now left. }
  destruct z; simpl; try apply D.
  constructor; [now right | apply D].
Qed.

Lemma padStart_Forall (P : codeUnit -> Prop) k s :
  P 48%N -> Forall P s -> Forall P (padStart k s).
Proof.
  intros H0 Hs. unfold padStart. apply Forall_app. split; [| exact Hs].
  apply Forall_forall. intros c Hc. apply repeat_spec in Hc. now subst.
Qed.

Lemma padStart_nonempty k s : s <> [] -> padStart k s <> [].
Proof.
  unfold padStart. destruct s; [congruence |].
  intros _ H. apply app_eq_nil in H. destruct H; discriminate.
Qed.

Lemma mathInt_padStart k s : mathInt (padStart k s) = mathInt s.
Proof.
  unfold padStart. rewrite !mathInt_fold, fold_left_app. f_equal.
  induction (k - List.length s) as [| n IH]; [reflexivity | exact IH].
Qed.

(** Numerals of natural numbers, padded. *)
Lemma padded_digits k n :
  (0 <= n)%Z ->
  let s := padStart k (Z_toString n) in
  s <> [] /\ Forall (fun c => isDigit c = true) s /\ Z.of_N (mathInt s) = n.
Proof.
  intros Hn s. unfold s. rewrite Z_toString_nonneg by exact Hn.
  split; [apply padStart_nonempty, N_toString_nonempty |].
  split; [apply padStart_Forall; [reflexivity | apply N_toString_digits] |].
  rewrite mathInt_padStart, mathInt_N_toString. lia.
Qed.

Lemma takeWhile_all p s :
  Forall (fun c => p c = true) s -> takeWhile p s = s.
Proof.
  intros H. rewrite <- (app_nil_r s) at 1. now apply takeWhile_app.
Qed.

Lemma digits_no_radix_prefix x s :
  isDigit x = false ->
  Forall (fun c => isDigit c = true) s -> startsWith [48%N; x] s = false.
Proof.
  intros Hx Hs. destruct s as [| c [| c2 r]]; simpl.
  - reflexivity.
  - now rewrite andb_false_r.
  - inversion Hs as [| ? ? _ Hr]; subst. inversion Hr as [| ? ? Hc2 _]; subst.
    assert (E : unit_eqb x c2 = false).
    { unfold unit_eqb. apply N.eqb_neq. intros ->. congruence. }
    rewrite E. now rewrite andb_false_r.
Qed.

Lemma dropWhile_all p s :
  Forall (fun c => p c = true) s -> dropWhile p s = [].
Proof.
  intros H. rewrite <- (app_nil_r s). now apply dropWhile_app.
Qed.

(** [parseInt] of a string of digits. *)
Lemma parseIntAny_digits s :
  s <> [] -> Forall (fun c => isDigit c = true) s ->
  parseIntAny s = parseInt s.
Proof.
  intros Hne Hs. unfold parseIntAny.
  destruct s as [| c r]; [congruence |].
  inversion Hs as [| ? ? Hc Hr]; subst.
  unfold trimStart. cbn [dropWhile]. rewrite (isDigit_not_space _ Hc).
  rewrite (@digit_not 45%N c eq_refl Hc), (@digit_not 43%N c eq_refl Hc).
  change (js "0x") with [48%N; 120%N]. change (js "0X") with [48%N; 88%N].
  rewrite !digits_no_radix_prefix by (reflexivity || assumption).
  cbn [orb]. rewrite takeWhile_all by exact Hs. reflexivity.
Qed.

Lemma trim_id s :
  headFails isSpace s -> headFails isSpace (rev s) -> trim s = s.
Proof.
  intros H1 H2. unfold trim, trimStart, trimEnd.
  rewrite (dropWhile_id _ _ H1), (dropWhile_id _ _ H2). apply rev_involutive.
Qed.

Lemma digits_headFails s :
  Forall (fun c => isDigit c = true) s -> headFails isSpace s.
Proof.
  intros [| c r Hc _]; simpl; [exact I | now apply isDigit_not_space].
Qed.

(** [Number] of a string of digits. *)
Lemma toNumber_digits s :
  s <> [] -> Forall (fun c => isDigit c = true) s ->
  toNumber (Some s) = parseInt s.
Proof.
  intros Hne Hs. unfold toNumber.
  rewrite trim_id; [| now apply digits_headFails
                    | apply digits_headFails; now apply Forall_rev].
  destruct s as [| c r]; [congruence |].
  inversion Hs as [| ? ? Hc Hr]; subst.
  unfold hasPrefix.
  change (js "0x") with [48%N; 120%N]. change (js "0X") with [48%N; 88%N].
  change (js "0o") with [48%N; 111%N]. change (js "0O") with [48%N; 79%N].
  change (js "0b") with [48%N; 98%N]. change (js "0B") with [48%N; 66%N].
  rewrite !digits_no_radix_prefix by (reflexivity || assumption).
  cbn [orb].
  rewrite (@digit_not 45%N c eq_refl Hc), (@digit_not 43%N c eq_refl Hc).
  unfold unsignedDecimal.
  assert (I : jseqb (c :: r) (js "Infinity") = false).
  { change (js "Infinity") with (73%N :: js "nfinity"). cbn [jseqb].
    now rewrite (@digit_not 73%N c eq_refl Hc). }
  rewrite I, (takeWhile_all _ Hs), (dropWhile_all _ Hs).
  cbn [nonEmpty orb exponentPart List.length Z.of_nat].
  rewrite app_nil_r, Z.sub_0_r. cbn [Z.leb Z.compare Z.pow].
  unfold parseInt. now rewrite Z.mul_1_r.
Qed.

(** ** Record validation *)

Lemma startsWith_prefix u rest : startsWith u (u ++ rest) = true.
Proof.
  induction u as [| c u IH]; simpl; [reflexivity |].
  unfold unit_eqb. now rewrite N.eqb_refl, IH.
Qed.

Lemma includes_spec s needle : includes s needle = true <-> isSubstring needle s.
Proof.
  unfold isSubstring. induction s as [| c s IH]; simpl.
  - rewrite orb_false_r. split.
    + intros H. apply startsWith_app in H. destruct H as [rest ->].
      now exists [], rest.
    + intros (pre & post & E). destruct pre; [| discriminate].
      simpl in E. rewrite E. apply startsWith_prefix.
  - rewrite orb_true_iff, IH. split.
    + intros [H | (pre & post & ->)].
      * apply startsWith_app in H. destruct H as [rest ->]. now exists [], rest.
      * now exists (c :: pre), post.
    + intros (pre & post & E). destruct pre as [| c' pre].
      * left. simpl in E. rewrite E. apply startsWith_prefix.
      * right. injection E as _ ->. now exists pre, post.
Qed.

Lemma includes_false s needle : includes s needle = false <-> ~ isSubstring needle s.
Proof.
  rewrite <- includes_spec. destruct (includes s needle); split; congruence.
Qed.

Lemma nonEmpty_true s : nonEmpty s = true <-> s <> [].
Proof. destruct s; simpl; split; congruence. Qed.

Lemma jseqb_false a b : jseqb a b = false <-> a <> b.
Proof.
  rewrite <- jseqb_eq. destruct (jseqb a b); split; congruence.
Qed.

(** The structural part of the validator. *)
Lemma hasRequiredData_spec j :
  nonEmpty (Job.title j)
  && (3 <? List.length (Job.title j))
  && negb (jseqb (Job.title j) (js "Jobs"))
  && negb (includes (Job.title j) (js "Search"))
  && (nonEmpty (Job.company j) || nonEmpty (Job.location j)) = true
  <-> structurallyComplete j.
Proof.
  unfold structurallyComplete.
  rewrite !andb_true_iff, orb_true_iff, !negb_true_iff, !nonEmpty_true.
  rewrite Nat.ltb_lt, jseqb_false, includes_false. tauto.
Qed.

(** The allowlist part of the validator. *)
Lemma passesValidationWords_spec j service :
  match Service.validationWords service with
  | Some ((_ :: _) as words) =>
      existsb (fun word =>
                 match word with
                 | JString w => includes (toLowerCase (Job.title j)) (toLowerCase w)
                 | JOther => false
                 end) words
  | _ => true
  end = true
  <-> passesAllowlist j service.
Proof.
  unfold passesAllowlist.
  destruct (Service.validationWords service) as [[| w0 ws] |].
  - split; [| reflexivity]. intros _ words E Hne. congruence.
  - rewrite existsb_exists. split.
    + intros (word & Hin & Hw) words E Hne. injection E as <-.
      destruct word as [w |]; [| discriminate].
      exists w. split; [exact Hin | now apply includes_spec].
    + intros H. destruct (H _ eq_refl) as (w & Hin & Hw); [discriminate |].
      exists (JString w). split; [exact Hin | now apply includes_spec].
  - split; [| reflexivity]. intros _ words E. discriminate.
Qed.

(** The validator, when the last time string of the scraper is the token
    of the record and the record has a posted date. *)
Lemma isValidJobData_spec this j service token :
  _lastTimeString this = Some token ->
  Job.found_time j = Some token ->
  (Job.posted_date j = [] -> token = []) ->
  isValidJobData this j service = true
  <-> structurallyComplete j /\ tokenIsRecent this j /\ passesAllowlist j service.
Proof.
  intros Hlast Hfound Hdate. unfold isValidJobData. cbv zeta.
  rewrite <- passesValidationWords_spec, <- hasRequiredData_spec.
  rewrite !andb_true_iff.
  assert (R : isWithin6Hours this (Job.posted_date j) = true <-> tokenIsRecent this j).
  { unfold isWithin6Hours, tokenIsRecent. rewrite Hlast, Hfound.
    destruct (Job.posted_date j) eqn:E; simpl.
    - rewrite (Hdate eq_refl). split; [discriminate |].
      intros (t & Et & Ht). injection Et as <-. discriminate.
    - split.
      + intros H. now exists token.
      + intros (t & Et & Ht). now injection Et as <-. }
  rewrite R. tauto.
Qed.

Lemma formatDateTime_nonempty tz date : formatDateTime tz date <> [].
Proof.
  unfold formatDateTime.
  destruct (numToString (option_map (getFullYear tz) date)); discriminate.
Qed.

Lemma convertToActualDateTime_result tz this timeString now :
  (fst (convertToActualDateTime tz this timeString now) = [] -> timeString = [])
  /\ maxHoursWindow (snd (convertToActualDateTime tz this timeString now))
     = maxHoursWindow this
  /\ _availableTimes (snd (convertToActualDateTime tz this timeString now))
     = _availableTimes this
  /\ _timeIndex (snd (convertToActualDateTime tz this timeString now))
     = _timeIndex this.
Proof.
  unfold convertToActualDateTime.
  destruct timeString as [| c s]; [simpl; auto |].
  cbn [nonEmpty negb].
  destruct (Regex.exec _ _) as [[ds u] |];
    cbn [fst snd maxHoursWindow _availableTimes _timeIndex];
    (split; [intros H; now apply formatDateTime_nonempty in H | auto]).
Qed.

Lemma isTimeWithin6Hours_window this1 this2 s :
  maxHoursWindow this1 = maxHoursWindow this2 ->
  isTimeWithin6Hours this1 s = isTimeWithin6Hours this2 s.
Proof. unfold isTimeWithin6Hours. now intros ->. Qed.

(** With ASCII only, the allowlist compares the title and the keywords
    with their capitals folded. *)
Lemma passesAllowlist_ascii j service :
  Forall (fun c => (c < 128)%N) (Job.title j) ->
  (forall words word,
     Service.validationWords service = Some words ->
     In (JString word) words -> Forall (fun c => (c < 128)%N) word) ->
  passesAllowlist j service
  <-> (forall words,
         Service.validationWords service = Some words -> words <> [] ->
         exists word,
           In (JString word) words
           /\ isSubstring (map foldAscii word) (map foldAscii (Job.title j))).
Proof.
  intros Ht Hw. unfold passesAllowlist.
  assert (P : forall s, Forall (fun c => (c < 128)%N) s ->
                toLowerCase s = map foldAscii s).
  { intros s Hs. apply toLowerCase_plain.
    eapply Forall_impl; [| exact Hs]. apply ascii_plain. }
  split; intros H words E Hne; destruct (H words E Hne) as (word & Hin & Hsub);
    exists word; (split; [exact Hin |]).
  - now rewrite <- (P _ Ht), <- (P _ (Hw words word E Hin)).
  - now rewrite (P _ Ht), (P _ (Hw words word E Hin)).
Qed.

Section Validation.
Context {dom : DOM}.
Variable tz : TimeZone.

(** What the extraction leaves behind for the validator. *)
Lemma extractJobDataFromElement_time this e service now :
  let r := extractJobDataFromElement tz this e service now in
  exists token,
    _lastTimeString (snd r) = Some token
    /\ Job.found_time (fst r) = Some token
    /\ (Job.posted_date (fst r) = [] -> token = [])
    /\ maxHoursWindow (snd r) = maxHoursWindow this.
Proof.
  unfold extractJobDataFromElement.
  set (timeString := if _timeIndex this <? _ then _ else _).
  destruct (convertToActualDateTime_result tz this timeString now) as (H1 & H2 & _).
  destruct (convertToActualDateTime tz this timeString now) as [posted this1].
  simpl in *. exists timeString. auto.
Qed.

(** C5. A candidate record, validated as the pipeline does right after its
    extraction, is qualified exactly when the three conditions hold:
    it is structurally complete (title present, longer than 3, not "Jobs",
    without "Search", company or location present), its time token is
    inside the recency window, and, when the descriptor has a non-empty
    keyword list, the lower-cased title contains one of the keywords in
    lower case.  A record titled "Jobs" is rejected whatever else it has.
    The lower case is that of the language, so the match does not depend
    on the case of the letters: for a title and keywords in ASCII it is
    the match with the capitals folded; a title in Cyrillic or Greek
    capitals matches the keyword in small letters (a final sigma
    included), and a title without the keyword does not pass. *)
Theorem isValidJobData_qualified :
  (forall this jobElement service now,
     let jobData := fst (extractJobDataFromElement tz this jobElement service now) in
     let this1 := snd (extractJobDataFromElement tz this jobElement service now) in
     isValidJobData this1 jobData service = true
     <-> structurallyComplete jobData
         /\ tokenIsRecent this jobData
         /\ passesAllowlist jobData service)
  /\ (forall this jobData service,
        Job.title jobData = js "Jobs" ->
        Job.company jobData <> [] -> Job.location jobData <> [] ->
        isValidJobData this jobData service = false)
  /\ (forall jobData service,
        Forall (fun c => (c < 128)%N) (Job.title jobData) ->
        (forall words word,
           Service.validationWords service = Some words ->
           In (JString word) words -> Forall (fun c => (c < 128)%N) word) ->
        passesAllowlist jobData service
        <-> (forall words,
               Service.validationWords service = Some words -> words <> [] ->
               exists word,
                 In (JString word) words
                 /\ isSubstring (map foldAscii word)
                      (map foldAscii (Job.title jobData))))
  /\ isValidJobData scraper1h (jobTitled (js "Delivery DRIVER"))
       (serviceWith [JString (js "Driver")]) = true
  /\ isValidJobData scraper1h (jobTitled (driverCyrillicCapitals ++ js " Courier"))
       (serviceWith [JString driverCyrillic]) = true
  /\ isValidJobData scraper1h (jobTitled (js "Courier " ++ driverGreekCapitals))
       (serviceWith [JOther; JString driverGreek]) = true
  /\ isValidJobData scraper1h (jobTitled (js "Warehouse Associate"))
       (serviceWith [JString (js "Driver"); JString driverCyrillic]) = false.
Proof.
  split.
  - intros this e service now jobData this1.
    destruct (extractJobDataFromElement_time this e service now)
      as (token & Hlast & Hfound & Hdate & Hwin).
    fold jobData this1 in Hlast, Hfound, Hdate, Hwin.
    rewrite (@isValidJobData_spec this1 jobData service token Hlast Hfound Hdate).
    unfold tokenIsRecent.
    assert (E : forall t, isTimeWithin6Hours this1 t = isTimeWithin6Hours this t)
      by (intros t; now apply isTimeWithin6Hours_window).
    split; intros (H1 & (t & Ht & Hr) & H3); (split; [exact H1 | split; [| exact H3]]);
      exists t; (split; [exact Ht |]); [rewrite <- E | rewrite E]; exact Hr.
  - split.
    { intros this j service Ht _ _. unfold isValidJobData. rewrite Ht. reflexivity. }
    split; [exact passesAllowlist_ascii |].
    repeat split; vm_compute; reflexivity.
Qed.

End Validation.

(** ** Where the threshold comes from *)

Lemma structurallyComplete_job5h : structurallyComplete job5h.
Proof.
  unfold structurallyComplete.
  split; [discriminate |]. split; [simpl; lia |]. split; [discriminate |].
  split; [| left; discriminate].
  apply includes_false. reflexivity.
Qed.

(** The descriptor of [service2h] asks for 2 hours, and the record with
    "5 hours ago" is accepted all the same: the threshold is not taken
    from the descriptor. *)
Lemma thresholdFromDescriptor_fails : ~ thresholdFromDescriptor.
Proof.
  intros H.
  assert (V : isValidJobData scraper5h job5h service2h = true)
    by (vm_compute; reflexivity).
  assert (C : (5 <= 2)%Z); [| lia].
  refine (proj1 (H scraper5h job5h service2h 2%Z 5%Z _ _ _ _ _ _ _ _) V).
  - reflexivity.
  - lia.
  - lia.
  - reflexivity.
  - reflexivity.
  - discriminate.
  - apply structurallyComplete_job5h.
  - intros words E. discriminate.
Qed.

Section Threshold.
Context {dom : DOM}.
Variable tz : TimeZone.

Lemma processElements_setWindow w service now elements : forall this,
  processElements tz this elements (setWindow service w) now
  = processElements tz this elements service now.
Proof.
  induction elements as [| e elements IH]; intros this; [reflexivity |].
  cbn [processElements].
  change (extractJobDataFromElement tz this e (setWindow service w) now)
    with (extractJobDataFromElement tz this e service now).
  destruct (extractJobDataFromElement tz this e service now) as [jobData this1].
  rewrite IH. reflexivity.
Qed.

Lemma constructor_digits h :
  (0 < h <= maxSafe)%Z ->
  maxHoursWindow (constructor (Some (Z_toString h))) = ofZ h.
Proof.
  intros Hh. unfold constructor. cbn [maxHoursWindow].
  assert (E : toNumber (Some (Z_toString h)) = ofZ h).
  { rewrite toNumber_digits.
    - apply parseInt_Z_toString. lia.
    - rewrite Z_toString_nonneg by lia. apply N_toString_nonempty.
    - rewrite Z_toString_nonneg by lia. apply N_toString_digits. }
  rewrite E. unfold gtb, ltb. rewrite !leb_ofZ.
  destruct (Z.leb_spec 0 h); [| lia]. destruct (Z.leb_spec h 0); [lia |].
  reflexivity.
Qed.

(** C6, as the code has it.  The threshold of the recency window is the
    field [maxHoursWindow] of the scraper, which the constructor takes from
    the environment variable MAX_HOURS: the Number the variable reads as
    when that is greater than 0 (a whole number, a fraction such as 0.5,
    or Infinity), and 6 when the variable is unset, is not a number or is
    not positive.  It is one threshold for all services: the
    [maxHoursWindow] of a descriptor is never read, neither by the
    validator nor by the document pipeline, and "<n> hours ago" (for [n]
    up to 2^53) is recent exactly when [n] is at most the threshold of the
    scraper. *)
Theorem threshold_from_environment :
  (forall MAX_HOURS,
     maxHoursWindow (constructor MAX_HOURS)
     = if gtb (toNumber MAX_HOURS) (ofZ 0) then toNumber MAX_HOURS else ofZ 6)
  /\ (forall h, (0 < h <= maxSafe)%Z ->
        maxHoursWindow (constructor (Some (Z_toString h))) = ofZ h)
  /\ (maxHoursWindow (constructor None) = ofZ 6
      /\ maxHoursWindow (constructor (Some (js "0.5"))) = Finite (1 # 2)
      /\ maxHoursWindow (constructor (Some (js "1.5"))) = Finite (3 # 2)
      /\ maxHoursWindow (constructor (Some (js "Infinity"))) = PlusInfinity
      /\ maxHoursWindow (constructor (Some (js "0"))) = ofZ 6
      /\ maxHoursWindow (constructor (Some (js "-2"))) = ofZ 6
      /\ maxHoursWindow (constructor (Some (js ""))) = ofZ 6
      /\ maxHoursWindow (constructor (Some (js "six"))) = ofZ 6)
  /\ (forall this jobData service w,
        isValidJobData this jobData (setWindow service w)
        = isValidJobData this jobData service)
  /\ (forall this html service w now,
        parseJobsFromHTML tz this html (setWindow service w) now
        = parseJobsFromHTML tz this html service now)
  /\ (forall this n, (0 <= n <= maxSafe)%Z ->
        isTimeWithin6Hours this (hoursAgo n) = leb (ofZ n) (maxHoursWindow this)).
Proof.
  split; [reflexivity |].
  split; [exact constructor_digits |].
  split; [repeat split; vm_compute; reflexivity |].
  split; [reflexivity |].
  split.
  - intros this html service w now. unfold parseJobsFromHTML.
    destruct (JSDOM html) as [document |]; [| reflexivity].
    destruct (_ =? 0); [reflexivity |].
    now rewrite processElements_setWindow.
  - intros this n Hn.
    rewrite (@isTimeWithin6Hours_token this InHours (Z_toString n) (hoursAgo n))
      by (apply hoursAgo_token; lia).
    cbn [recentByUnit]. now rewrite parseInt_Z_toString.
Qed.

End Threshold.

(** ** The document pipeline *)

Lemma matchAll_skip s : forall k,
  Regex.matchAll s k = Regex.matchAll (skipn k s) 0.
Proof.
  induction s as [| c s IH]; intros [| k]; try reflexivity.
  simpl. apply IH.
Qed.

Lemma timeRegexAt_positive s n : Regex.timeRegexAt s = Some n -> 1 <= n.
Proof.
  unfold Regex.timeRegexAt.
  destruct (takeWhile isDigit s); [discriminate |].
  destruct (find _ _); [| discriminate].
  intros H. injection H as <-. lia.
Qed.

Lemma inOrder_later tokens s c : inOrder tokens s -> inOrder tokens (c :: s).
Proof.
  intros [s' | pre token rest tokens' H]; [constructor |].
  apply (inOrder_cons (c :: pre) token H).
Qed.

(** The scan returns the tokens in the order of the text. *)
Lemma matchAll_inOrder html : inOrder (Regex.matchAll html 0) html.
Proof.
  remember (List.length html) as n eqn:Hn.
  assert (Hle : List.length html <= n) by lia. clear Hn.
  revert html Hle. induction n as [| n IH]; intros html Hle.
  - destruct html; [constructor | simpl in Hle; lia].
  - destruct html as [| c s]; [constructor |].
    cbn [Regex.matchAll].
    destruct (Regex.timeRegexAt (c :: s)) as [m |] eqn:E.
    + apply timeRegexAt_positive in E.
      rewrite matchAll_skip.
      replace (skipn (m - 1) s) with (skipn m (c :: s))
        by (destruct m; [lia | simpl; now rewrite Nat.sub_0_r]).
      rewrite <- (firstn_skipn m (c :: s)) at 3.
      apply (inOrder_cons [] (firstn m (c :: s))).
      apply IH. rewrite length_skipn. cbn [List.length] in *. lia.
    + apply inOrder_later. apply IH. simpl in Hle. lia.
Qed.

Lemma nth_beyond_map (tokens : list jsstring) d n : forall k,
  List.length tokens <= k ->
  map (fun i => Some (nth i tokens d)) (seq k n) = repeat (Some d) n.
Proof.
  induction n as [| n IH]; intros k Hk; simpl; [reflexivity |].
  rewrite nth_overflow by exact Hk. f_equal. apply IH. lia.
Qed.

Section Document.
Context {dom : DOM}.
Variable tz : TimeZone.

(** One extraction: the token at the cursor, or the fallback; the cursor
    moves on when a token was taken. *)
Lemma extractJobDataFromElement_cursor this e service now :
  let r := extractJobDataFromElement tz this e service now in
  Job.found_time (fst r)
    = Some (nth (_timeIndex this) (_availableTimes this) fallbackTime)
  /\ _availableTimes (snd r) = _availableTimes this
  /\ _timeIndex (snd r)
     = if _timeIndex this <? List.length (_availableTimes this)
       then S (_timeIndex this) else _timeIndex this.
Proof.
  unfold extractJobDataFromElement.
  set (timeString := if _timeIndex this <? _ then _ else _).
  destruct (convertToActualDateTime_result tz this timeString now)
    as (_ & _ & Ha & Hi).
  destruct (convertToActualDateTime tz this timeString now) as [posted this1].
  cbn [fst snd Job.found_time _availableTimes _timeIndex] in *.
  rewrite Hi. split; [| split; [exact Ha | reflexivity]].
  unfold timeString.
  destruct (Nat.ltb_spec (_timeIndex this) (List.length (_availableTimes this)))
    as [Hlt | Hge].
  - f_equal. now apply nth_indep.
  - now rewrite nth_overflow.
Qed.

(** The loop: record [i] of the run gets token [cursor + i], and the
    fallback once the tokens are used up. *)
Lemma processElements_tokens service now elements : forall this,
  let run := processElements tz this elements service now in
  foundTimes (fst run)
    = map (fun i => Some (nth i (_availableTimes this) fallbackTime))
          (seq (_timeIndex this) (List.length elements))
  /\ _availableTimes (snd run) = _availableTimes this
  /\ (_timeIndex this <= List.length (_availableTimes this) ->
      _timeIndex (snd run)
      = Nat.min (_timeIndex this + List.length elements)
                (List.length (_availableTimes this))).
Proof.
  induction elements as [| e elements IH]; intros this.
  - simpl. split; [reflexivity | split; [reflexivity | lia]].
  - cbn [processElements].
    destruct (extractJobDataFromElement_cursor this e service now)
      as (Hf & Ha & Hi).
    destruct (extractJobDataFromElement tz this e service now) as [jobData this1].
    destruct (IH this1) as (IHf & IHa & IHi).
    destruct (processElements tz this1 elements service now) as [processed this2].
    cbn [fst snd] in *. unfold foundTimes in *. cbn [map fst List.length seq].
    rewrite Hf, IHf, IHa, Ha.
    destruct (Nat.ltb_spec (_timeIndex this) (List.length (_availableTimes this)))
      as [Hlt | Hge]; rewrite Hi in *; rewrite Ha in IHi.
    + split; [reflexivity | split; [reflexivity |]].
      intros _. rewrite IHi by lia. lia.
    + split; [| split; [reflexivity |]].
      * f_equal. now rewrite !nth_beyond_map by lia.
      * intros Hle. rewrite IHi by lia. lia.
Qed.


Lemma accepted_length processed :
  List.length (accepted processed) <= List.length processed.
Proof.
  unfold accepted. rewrite length_map. induction processed as [| [j b] l IH]; simpl.
  - lia.
  - destruct b; simpl; lia.
Qed.

Lemma processElements_length service now elements : forall this,
  List.length (fst (processElements tz this elements service now))
  = List.length elements.
Proof.
  induction elements as [| e elements IH]; intros this; [reflexivity |].
  cbn [processElements].
  destruct (extractJobDataFromElement tz this e service now) as [jobData this1].
  specialize (IH this1).
  destruct (processElements tz this1 elements service now) as [processed this2].
  simpl in *. now rewrite IH.
Qed.

Lemma firstn_maxJobs (jobElements : list Element) :
  firstn (Nat.min (List.length jobElements) CONFIG.maxJobs) jobElements
  = firstn CONFIG.maxJobs jobElements.
Proof.
  destruct (Nat.le_ge_cases (List.length jobElements) CONFIG.maxJobs) as [H | H].
  - rewrite Nat.min_l by exact H. now rewrite !firstn_all2 by lia.
  - now rewrite Nat.min_r by exact H.
Qed.

(** What [parseJobsFromHTML] returns on a document with containers. *)
Lemma parseJobsFromHTML_containers this html service now document :
  JSDOM html = Some document ->
  findJobElements document jobSelectors <> [] ->
  let jobElements := findJobElements document jobSelectors in
  let run := processElements tz (withTimes this html)
               (firstn CONFIG.maxJobs jobElements) service now in
  parseJobsFromHTML tz this html service now
  = (Normal {| jobs := accepted (fst run);
               totalFound := List.length jobElements |},
     snd run).
Proof.
  intros Hdoc Hne jobElements run. unfold parseJobsFromHTML. rewrite Hdoc.
  fold jobElements. fold jobElements in Hne.
  assert (E : (List.length jobElements =? 0) = false)
    by (destruct jobElements; [congruence | reflexivity]).
  rewrite E, firstn_maxJobs. fold run. now destruct run.
Qed.

Lemma parseJobsFromHTML_no_containers this html service now document :
  JSDOM html = Some document ->
  findJobElements document jobSelectors = [] ->
  parseJobsFromHTML tz this html service now
  = (Normal noJobs, withTimes this html).
Proof.
  intros Hdoc Hnone. unfold parseJobsFromHTML. now rewrite Hdoc, Hnone.
Qed.

(** C2. The time tokens are scanned from the text of the document in its
    order, and the loop hands them out by position: the record of the i-th
    processed container gets the i-th token as [found_time] and the cursor
    moves on; when the tokens are used up every further record gets the
    fallback "3 hours ago".  With 3 containers and 2 tokens there are 3
    assignments: the two tokens, then the fallback.  The run in question
    is the one [parseJobsFromHTML] makes over the containers of the
    document. *)
Theorem tokens_assigned_by_position (this : Scraper) (html : jsstring)
  (elements : list Element) (service : Service.t) (now : Z) :
  let tokens := Regex.matchAll html 0 in
  let run := processElements tz (withTimes this html) elements service now in
  _availableTimes (withTimes this html) = tokens
  /\ _timeIndex (withTimes this html) = 0
  /\ inOrder tokens html
  /\ foundTimes (fst run)
     = map (fun i => Some (nth i tokens (js "3 hours ago")))
           (seq 0 (List.length elements))
  /\ _timeIndex (snd run) = Nat.min (List.length elements) (List.length tokens)
  /\ (forall t0 t1,
        List.length elements = 3 -> tokens = [t0; t1] ->
        foundTimes (fst run) = [Some t0; Some t1; Some (js "3 hours ago")])
  /\ (forall document,
        JSDOM html = Some document ->
        elements = firstn CONFIG.maxJobs (findJobElements document jobSelectors) ->
        elements <> [] ->
        exists total,
          parseJobsFromHTML tz this html service now
          = (Normal {| jobs := accepted (fst run); totalFound := total |}, snd run)).
Proof.
  intros tokens run.
  destruct (processElements_tokens service now elements (withTimes this html))
    as (Hf & _ & Hi).
  fold run in Hf, Hi. cbn [withTimes _availableTimes _timeIndex] in Hf, Hi.
  fold tokens in Hf, Hi.
  split; [reflexivity |].
  split; [reflexivity |].
  split; [apply matchAll_inOrder |].
  split; [exact Hf |].
  split; [apply Hi; lia |].
  split.
  - intros t0 t1 Hlen Htok. rewrite Hf, Hlen, Htok. reflexivity.
  - intros document Hdoc Hel Hne.
    exists (List.length (findJobElements document jobSelectors)).
    unfold run. rewrite Hel. apply parseJobsFromHTML_containers; [exact Hdoc |].
    intros E. apply Hne. rewrite Hel, E. reflexivity.
Qed.

End Document.

(** C10. At most [CONFIG.maxJobs] = 100 containers, the first 100 of the
    document, are extracted and validated: the jobs returned are the
    accepted records of that prefix, so there are at most 100 of them,
    while [totalFound] is the number of all containers and can be larger,
    as for a document of 101 cards, where 100 jobs come back with
    [totalFound] equal to 101. *)
Theorem at_most_maxJobs_processed :
  (forall (dom : DOM) tz this html service now result this1,
     parseJobsFromHTML tz this html service now = (Normal result, this1) ->
     List.length (jobs result) <= 100)
  /\ (forall (dom : DOM) tz this html service now document,
        JSDOM html = Some document ->
        findJobElements document jobSelectors <> [] ->
        let jobElements := findJobElements document jobSelectors in
        let run := processElements tz (withTimes this html)
                     (firstn 100 jobElements) service now in
        parseJobsFromHTML tz this html service now
        = (Normal {| jobs := accepted (fst run);
                     totalFound := List.length jobElements |},
           snd run))
  /\ resultSizes
       (fst (@parseJobsFromHTML (domOf cards101) 0%Z (constructor None) []
               service2h 1709255730000%Z))
     = Some (100, 101).
Proof.
  split; [| split].
  - intros dom tz this html service now result this1 H.
    destruct (JSDOM html) as [document |] eqn:Hdoc.
    + destruct (findJobElements document jobSelectors) as [| e l] eqn:E.
      * rewrite (@parseJobsFromHTML_no_containers dom tz this html service now
                   document Hdoc E) in H.
        injection H as <- _. simpl. lia.
      * assert (Hne : findJobElements document jobSelectors <> [])
          by (rewrite E; discriminate).
        rewrite (@parseJobsFromHTML_containers dom tz this html service now
                   document Hdoc Hne) in H.
        injection H as <- _. cbn [jobs].
        etransitivity; [apply accepted_length |].
        rewrite processElements_length.
        apply (firstn_le_length CONFIG.maxJobs).
    + unfold parseJobsFromHTML in H. rewrite Hdoc in H. discriminate.
  - intros dom tz this html service now document Hdoc Hne.
    apply parseJobsFromHTML_containers; assumption.
  - vm_compute. reflexivity.
Qed.


(** ** Fingerprints *)

Lemma utf8_ascii_app a b :
  Forall (fun c => (c < 128)%N) a -> utf8 (a ++ b) = a ++ utf8 b.
Proof.
  intros H; induction H as [| c a Hc _ IH]; [reflexivity |].
  cbn [app utf8]. apply N.ltb_lt in Hc. now rewrite Hc, IH.
Qed.

(** base64 works on groups of three bytes. *)
Lemma base64_app k : forall p q,
  List.length p = 3 * k ->
  base64 (p ++ q) = base64 p ++ base64 q /\ List.length (base64 p) = 4 * k.
Proof.
  induction k as [| k IH]; intros p q Hp.
  - destruct p; [split; reflexivity | simpl in Hp; lia].
  - destruct p as [| a [| b [| c p]]]; try (simpl in Hp; lia).
    destruct (IH p q) as [E L]; [simpl in Hp; lia |].
    cbn [app base64 List.length]. rewrite E, L. split; [reflexivity | lia].
Qed.

(** With a title of 24 or more ASCII characters the fingerprint is the
    base64 text of the first 24 of them. *)
Lemma generateFingerprint_long_title job :
  24 <= List.length (Job.title job) ->
  Forall (fun c => (c < 128)%N) (Job.title job) ->
  generateFingerprint job = base64 (firstn 24 (Job.title job)).
Proof.
  intros Hlen Hascii. unfold generateFingerprint. cbv zeta.
  rewrite utf8_ascii_app by exact Hascii.
  rewrite <- (firstn_skipn 24 (Job.title job)) at 1.
  rewrite <- app_assoc.
  match goal with
  | |- context [base64 (?p ++ ?q)] => destruct (@base64_app 8 p q) as [E L]
  end.
  { rewrite length_firstn. lia. }
  rewrite E. rewrite firstn_app, L. change (32 - 4 * 8) with 0.
  rewrite firstn_O, app_nil_r. apply firstn_all2. lia.
Qed.

(** C3, on the code as it is.  Records with the same title, location and
    service have the same fingerprint.  Records that differ need not have
    different fingerprints: the key is cut to 32 base64 characters, the
    first 24 bytes of "title-location-service", so two records with a
    common title of 24 or more ASCII characters have one fingerprint
    whatever their locations and services, as [jobAustin] and
    [jobDallas] do. *)
Theorem generateFingerprint_title_only :
  (forall job1 job2,
     Job.title job1 = Job.title job2 ->
     Job.location job1 = Job.location job2 ->
     Job.service job1 = Job.service job2 ->
     generateFingerprint job1 = generateFingerprint job2)
  /\ (Job.location jobAustin <> Job.location jobDallas
      /\ Job.service jobAustin <> Job.service jobDallas
      /\ generateFingerprint jobAustin = generateFingerprint jobDallas)
  /\ (forall job1 job2,
        Job.title job1 = Job.title job2 ->
        24 <= List.length (Job.title job1) ->
        Forall (fun c => (c < 128)%N) (Job.title job1) ->
        generateFingerprint job1 = generateFingerprint job2).
Proof.
  split; [| split].
  - intros job1 job2 Ht Hl Hs. unfold generateFingerprint.
    now rewrite Ht, Hl, Hs.
  - split; [| split].
    + intros H. vm_compute in H. discriminate.
    + intros H. vm_compute in H. discriminate.
    + vm_compute. reflexivity.
  - intros job1 job2 Ht Hlen Hascii.
    rewrite !generateFingerprint_long_title; rewrite <- ?Ht; auto.
Qed.
(** ** The local time format *)

(** Parsing a string made of a date part, two digit fields and a
    meridiem. *)
Lemma dateArguments_parts datePart HH MI AP :
  Forall (fun c => unit_eqb c space = false) datePart ->
  HH <> [] -> Forall (fun c => isDigit c = true) HH ->
  MI <> [] -> Forall (fun c => isDigit c = true) MI ->
  AP = js "AM" \/ AP = js "PM" ->
  dateArguments (datePart ++ js " " ++ HH ++ js ":" ++ MI ++ js " " ++ AP)
  = let dateParts := split hyphen datePart in
    let h := parseInt HH in
    Some (toNumber (nth_error dateParts 0),
          sub (toNumber (nth_error dateParts 1)) (ofZ 1),
          toNumber (nth_error dateParts 2),
          (if jseqb AP (js "PM") && negb (eqb h (ofZ 12)) then add h (ofZ 12)
           else if jseqb AP (js "AM") && eqb h (ofZ 12) then ofZ 0
           else h),
          parseInt MI).
Proof.
  intros Hdate HHne HHd MIne MId HAP. unfold dateArguments.
  assert (Hsp : forall s, Forall (fun c => isDigit c = true) s ->
                 Forall (fun c => unit_eqb c space = false) s).
  { intros s Hs. eapply Forall_impl; [| exact Hs].
    intros c Hc. now apply digit_not. }
  assert (Hco : forall s, Forall (fun c => isDigit c = true) s ->
                 Forall (fun c => unit_eqb c colon = false) s).
  { intros s Hs. eapply Forall_impl; [| exact Hs].
    intros c Hc. now apply digit_not. }
  change (js " " ++ HH ++ js ":" ++ MI ++ js " " ++ AP)
    with (space :: (HH ++ colon :: MI ++ space :: AP)).
  rewrite split_app_sep by exact Hdate.
  replace (HH ++ colon :: MI ++ space :: AP)
    with ((HH ++ colon :: MI) ++ space :: AP) by (now rewrite <- app_assoc).
  rewrite split_app_sep
    by (apply Forall_app; split; [now apply Hsp | constructor; [reflexivity | now apply Hsp]]).
  rewrite (@split_no_sep space AP) by (destruct HAP as [-> | ->]; repeat constructor).
  cbn [nth_error].
  rewrite (@split_app_sep colon HH MI) by (now apply Hco).
  rewrite (@split_no_sep colon MI) by (now apply Hco).
  cbn [nth_error parseIntOf].
  rewrite !parseIntAny_digits by assumption.
  reflexivity.
Qed.

Lemma formatDateTime_parts tz t :
  formatDateTime tz (Some t)
  = (Z_toString (getFullYear tz t) ++ js "-"
       ++ padStart 2 (Z_toString (getMonth tz t + 1)) ++ js "-"
       ++ padStart 2 (Z_toString (getDate tz t)))
    ++ js " " ++ padStart 2 (Z_toString (hour12 (getHours tz t)))
    ++ js ":" ++ padStart 2 (Z_toString (getMinutes tz t))
    ++ js " " ++ (if (12 <=? getHours tz t)%Z then js "PM" else js "AM").
Proof.
  unfold formatDateTime. cbn [option_map numToString].
  rewrite <- !app_assoc. reflexivity.
Qed.

Lemma getHours_range tz t : (0 <= getHours tz t < 24)%Z.
Proof. unfold getHours, HourFromTime. apply Z.mod_pos_bound. lia. Qed.

Lemma getMinutes_range tz t : (0 <= getMinutes tz t < 60)%Z.
Proof. unfold getMinutes, MinFromTime. apply Z.mod_pos_bound. lia. Qed.

Lemma hour12_range h : (1 <= hour12 h <= 12)%Z.
Proof.
  unfold hour12. assert (0 <= h mod 12 < 12)%Z by (apply Z.mod_pos_bound; lia).
  destruct (Z.eqb_spec (h mod 12) 0); lia.
Qed.

Lemma datePart_no_space y m d :
  Forall (fun c => unit_eqb c space = false)
    (Z_toString y ++ js "-" ++ padStart 2 (Z_toString m) ++ js "-"
       ++ padStart 2 (Z_toString d)).
Proof.
  assert (P : forall s, Forall numeralChar s ->
                Forall (fun c => unit_eqb c space = false) s).
  { intros s Hs. eapply Forall_impl; [| exact Hs].
    intros c Hc. apply numeralChar_not; [reflexivity | discriminate | exact Hc]. }
  assert (Q : forall n, Forall numeralChar (padStart 2 (Z_toString n))).
  { intros n. apply padStart_Forall; [now left | apply Z_toString_chars]. }
  apply P.
  apply Forall_app. split; [apply Z_toString_chars |].
  change (js "-" ++ padStart 2 (Z_toString m) ++ js "-" ++ padStart 2 (Z_toString d))
    with (hyphen :: (padStart 2 (Z_toString m) ++ hyphen :: padStart 2 (Z_toString d))).
  constructor; [now right |].
  apply Forall_app. split; [apply Q |].
  constructor; [now right | apply Q].
Qed.

(** The hour of the day from the hour of the 12-hour clock and the
    meridiem, as [convertToISOString] computes it. *)
Lemma hour24_integer h :
  (0 <= h < 24)%Z ->
  let AP := if (12 <=? h)%Z then js "PM" else js "AM" in
  (if jseqb AP (js "PM") && negb (hour12 h =? 12)%Z then (hour12 h + 12)%Z
   else if jseqb AP (js "AM") && (hour12 h =? 12)%Z then 0%Z
   else hour12 h) = h.
Proof.
  intros Hh AP. unfold AP, hour12.
  assert (M : (h mod 12 = if (12 <=? h) then h - 12 else h)%Z).
  { destruct (Z.leb_spec 12 h).
    - symmetry. apply (Z.mod_unique_pos h 12 1); lia.
    - apply Z.mod_small. lia. }
  rewrite M.
  destruct (Z.leb_spec 12 h);
    repeat match goal with
           | |- context [(?a =? ?b)%Z] => destruct (Z.eqb_spec a b)
           end; simpl; lia.
Qed.

(** The same on Numbers. *)
Lemma hour24_recovered h :
  (0 <= h < 24)%Z ->
  let AP := if (12 <=? h)%Z then js "PM" else js "AM" in
  (if jseqb AP (js "PM") && negb (eqb (ofZ (hour12 h)) (ofZ 12))
   then add (ofZ (hour12 h)) (ofZ 12)
   else if jseqb AP (js "AM") && eqb (ofZ (hour12 h)) (ofZ 12) then ofZ 0
   else ofZ (hour12 h)) = ofZ h.
Proof.
  intros Hh AP. pose proof (hour24_integer Hh) as E. cbv zeta in E. fold AP in E.
  rewrite eqb_ofZ. pose proof (hour12_range h).
  rewrite add_ofZ by (change (2 ^ 53)%Z with 9007199254740992%Z; lia).
  revert E.
  destruct (jseqb AP (js "PM") && _); [intros E; f_equal; exact E |].
  destruct (jseqb AP (js "AM") && _); intros E; f_equal; exact E.
Qed.

(** The Number a padded numeral is read as. *)
Lemma padded_number k n :
  (0 <= n <= maxSafe)%Z ->
  let s := padStart k (Z_toString n) in
  s <> [] /\ Forall (fun c => isDigit c = true) s /\ parseInt s = ofZ n.
Proof.
  intros Hn s. destruct (@padded_digits k n ltac:(lia)) as (H1 & H2 & H3).
  fold s in H1, H2, H3. split; [exact H1 |]. split; [exact H2 |].
  rewrite parseInt_exact; rewrite H3;
    [reflexivity | unfold maxSafe in Hn;
                   change (2 ^ 53)%Z with 9007199254740992%Z; lia].
Qed.

(** Every date: the string of [formatDateTime] parses back to its hour of
    the day and its minute. *)
Lemma dateArguments_formatDateTime_clock tz t :
  exists year month day,
    dateArguments (formatDateTime tz (Some t))
    = Some (year, month, day, ofZ (getHours tz t), ofZ (getMinutes tz t)).
Proof.
  destruct (@padded_number 2 (hour12 (getHours tz t))) as (H1 & H2 & H3);
    [pose proof (hour12_range (getHours tz t)); unfold maxSafe; lia |].
  destruct (@padded_number 2 (getMinutes tz t)) as (M1 & M2 & M3);
    [pose proof (getMinutes_range tz t); unfold maxSafe; lia |].
  rewrite formatDateTime_parts, dateArguments_parts;
    try assumption;
    [| apply datePart_no_space | destruct (12 <=? getHours tz t)%Z; auto].
  cbv zeta. rewrite H3, M3, (hour24_recovered (getHours_range tz t)).
  eexists _, _, _. reflexivity.
Qed.

Lemma formatDateTime_fields tz t :
  hoursField (formatDateTime tz (Some t))
    = padStart 2 (Z_toString (hour12 (getHours tz t)))
  /\ meridiem (formatDateTime tz (Some t))
     = if (12 <=? getHours tz t)%Z then js "PM" else js "AM".
Proof.
  destruct (@padded_digits 2 (hour12 (getHours tz t))) as (H1 & H2 & H3);
    [pose proof (hour12_range (getHours tz t)); lia |].
  destruct (@padded_digits 2 (getMinutes tz t)) as (M1 & M2 & M3);
    [pose proof (getMinutes_range tz t); lia |].
  assert (Hsp : forall s, Forall (fun c => isDigit c = true) s ->
                 Forall (fun c => unit_eqb c space = false) s).
  { intros s Hs. eapply Forall_impl; [| exact Hs].
    intros c Hc. now apply digit_not. }
  assert (Hco : forall s, Forall (fun c => isDigit c = true) s ->
                 Forall (fun c => unit_eqb c colon = false) s).
  { intros s Hs. eapply Forall_impl; [| exact Hs].
    intros c Hc. now apply digit_not. }
  unfold hoursField, meridiem. rewrite formatDateTime_parts.
  set (HH := padStart 2 (Z_toString (hour12 (getHours tz t)))) in *.
  set (MI := padStart 2 (Z_toString (getMinutes tz t))) in *.
  set (AP := if (12 <=? getHours tz t)%Z then js "PM" else js "AM").
  change (js " " ++ HH ++ js ":" ++ MI ++ js " " ++ AP)
    with (space :: (HH ++ colon :: MI ++ space :: AP)).
  rewrite split_app_sep by apply datePart_no_space.
  replace (HH ++ colon :: MI ++ space :: AP)
    with ((HH ++ colon :: MI) ++ space :: AP) by (now rewrite <- app_assoc).
  rewrite split_app_sep
    by (apply Forall_app; split; [now apply Hsp | constructor; [reflexivity | now apply Hsp]]).
  rewrite (@split_no_sep space AP)
    by (unfold AP; destruct (12 <=? getHours tz t)%Z; repeat constructor).
  cbn [nth]. rewrite (@split_app_sep colon HH MI) by (now apply Hco).
  split; reflexivity.
Qed.

(** ** Calendar arithmetic *)

(** [YearFromDay] is the year of the language definition: the year in
    which day [d] lies. *)
Lemma YearFromDay_spec d :
  (DayFromYear (YearFromDay d) <= d < DayFromYear (YearFromDay d + 1))%Z.
Proof.
  unfold YearFromDay.
  destruct (Z.ltb_spec d (DayFromYear (1970 + 400 * d / 146097))) as [H1 | H1].
  - split.
    + unfold DayFromYear in *. Z.div_mod_to_equations. lia.
    + now replace (1970 + 400 * d / 146097 - 1 + 1)%Z
        with (1970 + 400 * d / 146097)%Z by lia.
  - destruct (Z.leb_spec (DayFromYear (1970 + 400 * d / 146097 + 1)) d) as [H2 | H2].
    + split; [exact H2 |].
      unfold DayFromYear in *. Z.div_mod_to_equations. lia.
    + split; assumption.
Qed.

Lemma YearFromDay_recent d : (0 <= d)%Z -> (1969 <= YearFromDay d)%Z.
Proof.
  intros Hd. unfold YearFromDay.
  assert (0 <= 400 * d / 146097)%Z by (apply Z.div_pos; lia).
  destruct (_ <? _)%Z; [lia |]. destruct (_ <=? _)%Z; lia.
Qed.

Lemma monthOfDay_range leap dwy : (0 <= monthOfDay leap dwy <= 11)%Z.
Proof.
  unfold monthOfDay.
  repeat match goal with
         | |- context [(?a <? ?b)%Z] => destruct (Z.ltb_spec a b); [lia |]
         end; lia.
Qed.

Lemma monthStart_monthOfDay leap dwy :
  (0 <= dwy)%Z -> (0 <= leap)%Z ->
  (monthStart leap (monthOfDay leap dwy) <= dwy)%Z.
Proof.
  intros Hd Hl. unfold monthOfDay.
  repeat match goal with
         | |- (monthStart _ (if (?a <? ?b)%Z then _ else _) <= _)%Z =>
             destruct (Z.ltb_spec a b); [cbv [monthStart]; lia |]
         end; cbv [monthStart]; lia.
Qed.

Lemma DateFromTime_positive t : (1 <= DateFromTime t)%Z.
Proof.
  unfold DateFromTime, MonthFromTime.
  assert (Hd : (0 <= DayWithinYear t)%Z).
  { unfold DayWithinYear, YearFromTime.
    pose proof (YearFromDay_spec (Day t)). lia. }
  assert (Hl : (0 <= InLeapYear t)%Z)
    by (unfold InLeapYear; destruct (isLeapYear _); lia).
  pose proof (monthStart_monthOfDay Hd Hl). lia.
Qed.

Lemma DayFromYear_succ y : (DayFromYear (y + 1) = DayFromYear y + DaysInYear y)%Z.
Proof.
  unfold DaysInYear, isLeapYear, DayFromYear.
  destruct (Z.eqb_spec (y mod 4) 0) as [H4 | H4];
    destruct (Z.eqb_spec (y mod 100) 0) as [H100 | H100];
    destruct (Z.eqb_spec (y mod 400) 0) as [H400 | H400];
    cbn [andb orb negb]; Z.div_mod_to_equations; lia.
Qed.

Lemma DayWithinYear_range t : (0 <= DayWithinYear t < 365 + InLeapYear t)%Z.
Proof.
  unfold DayWithinYear, InLeapYear, YearFromTime.
  pose proof (YearFromDay_spec (JsDate.Day t)) as H.
  rewrite DayFromYear_succ in H. unfold DaysInYear in H.
  destruct (isLeapYear (YearFromDay (JsDate.Day t))); lia.
Qed.

Lemma DateFromTime_range t : (1 <= DateFromTime t <= 31)%Z.
Proof.
  split; [apply DateFromTime_positive |].
  unfold DateFromTime, MonthFromTime.
  pose proof (DayWithinYear_range t) as Hd.
  assert (Hl : (InLeapYear t = 0 \/ InLeapYear t = 1)%Z)
    by (unfold InLeapYear; destruct (isLeapYear _); auto).
  generalize dependent (DayWithinYear t). generalize dependent (InLeapYear t).
  intros leap Hl dwy Hd. unfold monthOfDay.
  repeat match goal with
         | |- (_ - monthStart _ (if (?a <? ?b)%Z then _ else _) + 1 <= _)%Z =>
             destruct (Z.ltb_spec a b); [cbv [monthStart]; lia |]
         end; cbv [monthStart]; lia.
Qed.

(** Year, month and day of an instant give back its day number. *)
Lemma MakeDay_roundtrip t :
  MakeDay (YearFromTime t) (MonthFromTime t) (DateFromTime t) = Day t.
Proof.
  unfold MakeDay, DateFromTime, DayWithinYear.
  pose proof (monthOfDay_range (InLeapYear t) (DayWithinYear t)) as Hm.
  fold (MonthFromTime t) in Hm.
  rewrite (Z.div_small (MonthFromTime t) 12) by lia.
  rewrite (Z.mod_small (MonthFromTime t) 12) by lia.
  rewrite Z.add_0_r. fold (InLeapYear t). lia.
Qed.

Lemma minute_floor t :
  MakeDate (Day t) (MakeTime (HourFromTime t) (MinFromTime t) 0 0)
  = (t - t mod msPerMinute)%Z.
Proof. time_units. Z.div_mod_to_equations. lia. Qed.

(** Setting the hour [k] hours back moves the local time back by [k]
    hours. *)
Lemma setHours_back (tz : TimeZone) now k :
  setHours tz now (ofZ (getHours tz now - k))
  = TimeClip (UTC tz (LocalTime tz now - k * msPerHour)).
Proof.
  unfold setHours, getHours. rewrite toInteger_ofZ. cbv zeta. do 2 f_equal.
  generalize (LocalTime tz now). intros lt.
  time_units. Z.div_mod_to_equations. lia.
Qed.

(** In a zone of one offset the instant moves as the local time does. *)
Lemma UTC_fixed (offset : Z) now d :
  UTC offset (LocalTime offset now - d) = (now - d)%Z.
Proof. unfold UTC, LocalTime. cbn [LocalTZA fixedOffset]. lia. Qed.

Lemma minuteOf_fixed (offset : Z) t : minuteOf offset t = startOfMinute offset t.
Proof.
  unfold minuteOf, startOfMinute, UTC, LocalTime. cbn [LocalTZA fixedOffset]. lia.
Qed.

Lemma TimeClip_valid t :
  (Z.abs t <= 8640000000000000)%Z -> TimeClip t = Some t.
Proof.
  intros H. unfold TimeClip. now destruct (Z.leb_spec (Z.abs t) 8640000000000000); [| lia].
Qed.

(** A date of the year 0 or later: the string of [formatDateTime] parses
    back to its year, month, day, hour and minute. *)
Lemma dateArguments_formatDateTime tz t :
  (0 <= getFullYear tz t <= maxSafe)%Z ->
  dateArguments (formatDateTime tz (Some t))
  = Some (ofZ (getFullYear tz t), ofZ (getMonth tz t), ofZ (getDate tz t),
          ofZ (getHours tz t), ofZ (getMinutes tz t)).
Proof.
  intros Hy.
  destruct (@padded_number 2 (hour12 (getHours tz t))) as (H1 & H2 & H3);
    [pose proof (hour12_range (getHours tz t)); unfold maxSafe; lia |].
  destruct (@padded_number 2 (getMinutes tz t)) as (M1 & M2 & M3);
    [pose proof (getMinutes_range tz t); unfold maxSafe; lia |].
  destruct (@padded_number 0 (getFullYear tz t) Hy) as (Y1 & Y2 & Y3).
  change (padStart 0 (Z_toString (getFullYear tz t)))
    with (Z_toString (getFullYear tz t)) in Y1, Y2, Y3.
  assert (Hm : (0 <= getMonth tz t <= 11)%Z).
  { unfold getMonth, MonthFromTime.
    apply (monthOfDay_range (InLeapYear (LocalTime tz t))
             (DayWithinYear (LocalTime tz t))). }
  destruct (@padded_number 2 (getMonth tz t + 1)) as (O1 & O2 & O3);
    [unfold maxSafe; lia |].
  assert (Hd : (1 <= getDate tz t <= 366)%Z).
  { unfold getDate.
    pose proof (DateFromTime_range (LocalTime tz t)). lia. }
  destruct (@padded_number 2 (getDate tz t)) as (D1 & D2 & D3);
    [unfold maxSafe; lia |].
  assert (Hhy : forall s, Forall (fun c => isDigit c = true) s ->
                 Forall (fun c => unit_eqb c hyphen = false) s).
  { intros s Hs. eapply Forall_impl; [| exact Hs].
    intros c Hc. now apply digit_not. }
  rewrite formatDateTime_parts, dateArguments_parts;
    try assumption;
    [| apply datePart_no_space | destruct (12 <=? getHours tz t)%Z; auto].
  cbv zeta. rewrite H3, M3, (hour24_recovered (getHours_range tz t)).
  change (js "-" ++ padStart 2 (Z_toString (getMonth tz t + 1)) ++ js "-"
            ++ padStart 2 (Z_toString (getDate tz t)))
    with (hyphen :: (padStart 2 (Z_toString (getMonth tz t + 1)) ++ hyphen
                       :: padStart 2 (Z_toString (getDate tz t)))).
  rewrite split_app_sep by (now apply Hhy).
  rewrite split_app_sep by (now apply Hhy).
  rewrite split_no_sep by (now apply Hhy).
  cbn [nth_error].
  rewrite !toNumber_digits by assumption.
  rewrite Y3, O3, D3.
  rewrite sub_ofZ by (change (2 ^ 53)%Z with 9007199254740992%Z; lia).
  now replace (getMonth tz t + 1 - 1)%Z with (getMonth tz t) by lia.
Qed.

(** Building the date again from those arguments gives the instant at
    which the local minute begins. *)
Lemma newDate_of_fields tz t :
  (100 <= getFullYear tz t)%Z ->
  newDate tz (ofZ (getFullYear tz t)) (ofZ (getMonth tz t)) (ofZ (getDate tz t))
    (ofZ (getHours tz t)) (ofZ (getMinutes tz t))
  = TimeClip (minuteOf tz t).
Proof.
  intros Hy. unfold newDate. rewrite !toInteger_ofZ.
  destruct (Z.leb_spec (getFullYear tz t) 99) as [H99 | _]; [lia |].
  rewrite andb_false_r. f_equal.
  unfold getFullYear, getMonth, getDate, getHours, getMinutes, minuteOf.
  now rewrite MakeDay_roundtrip, minute_floor.
Qed.

(** From the local format back to an instant. *)
Lemma convertToISOString_local tz t :
  (100 <= getFullYear tz t <= maxSafe)%Z ->
  convertToISOString tz (formatDateTime tz (Some t))
  = option_map toISOString (TimeClip (minuteOf tz t)).
Proof.
  intros Hy. unfold convertToISOString.
  assert (NE : nonEmpty (formatDateTime tz (Some t)) = true)
    by (apply nonEmpty_true, formatDateTime_nonempty).
  rewrite NE. cbn [negb].
  rewrite dateArguments_formatDateTime by lia.
  rewrite newDate_of_fields by lia.
  now destruct (TimeClip (minuteOf tz t)).
Qed.

Lemma convertToActualDateTime_two_hours tz this now :
  fst (convertToActualDateTime tz this (js "2 hours ago") now)
  = formatDateTime tz (setHours tz now (ofZ (getHours tz now - 2))).
Proof.
  unfold convertToActualDateTime.
  assert (E : Regex.exec [js "hour"; js "minute"; js "min"; js "day"]
                (toLowerCase (js "2 hours ago")) = Some (js "2", js "hour"))
    by (vm_compute; reflexivity).
  rewrite E. cbv zeta.
  change (parseInt (js "2")) with (ofZ 2).
  assert (S : sub (ofZ (getHours tz now)) (ofZ 2) = ofZ (getHours tz now - 2)).
  { apply sub_ofZ. pose proof (getHours_range tz now).
    change (2 ^ 53)%Z with 9007199254740992%Z. lia. }
  rewrite S. reflexivity.
Qed.

Lemma startOfMinute_range tz t :
  (startOfMinute tz t <= t < startOfMinute tz t + msPerMinute)%Z.
Proof.
  unfold startOfMinute.
  assert (0 <= LocalTime tz t mod msPerMinute < msPerMinute)%Z
    by (apply Z.mod_pos_bound; reflexivity).
  lia.
Qed.

Lemma YearFromTime_recent t : (0 <= t)%Z -> (1969 <= YearFromTime t)%Z.
Proof.
  intros H. unfold YearFromTime.
  apply YearFromDay_recent. unfold JsDate.Day. apply Z.div_pos; [exact H | reflexivity].
Qed.

Lemma YearFromTime_upper t :
  (t <= 8640000000000000 + msPerDay)%Z -> (YearFromTime t <= 275762)%Z.
Proof.
  intros H. unfold YearFromTime, YearFromDay, JsDate.Day, msPerDay in *.
  assert (D : (t / 86400000 <= 100000001)%Z)
    by (apply Z.div_le_upper_bound; lia).
  revert D. generalize (t / 86400000)%Z. intros d D.
  assert (Y : (400 * d / 146097 <= 273791)%Z)
    by (apply Z.div_le_upper_bound; lia).
  destruct (_ <? _)%Z; [lia |]. destruct (_ <=? _)%Z; lia.
Qed.

(** The local string shows the clock of the zone at the instant. *)
Lemma formatDateTime_clock tz t :
  formatDateTime tz (Some t) = formatDateTime 0%Z (Some (LocalTime tz t)).
Proof.
  unfold formatDateTime, getFullYear, getMonth, getDate, getHours, getMinutes.
  cbn [option_map].
  replace (LocalTime 0%Z (LocalTime tz t)) with (LocalTime tz t); [reflexivity |].
  generalize (LocalTime tz t). intros x.
  unfold LocalTime. cbn [LocalTZA fixedOffset]. lia.
Qed.

(** "2 hours ago" in any zone: the local string is that of the instant
    [past] at which the clock of the zone shows two hours less. *)
Lemma two_hours_ago tz this now :
  let wall := (LocalTime tz now - 2 * msPerHour)%Z in
  let past := UTC tz wall in
  (Z.abs past <= 8640000000000000)%Z ->
  (100 <= getFullYear tz past <= maxSafe)%Z ->
  let local := fst (convertToActualDateTime tz this (js "2 hours ago") now) in
  local = formatDateTime tz (Some past)
  /\ dateArguments local
     = Some (ofZ (getFullYear tz past), ofZ (getMonth tz past),
             ofZ (getDate tz past), ofZ (getHours tz past),
             ofZ (getMinutes tz past))
  /\ convertToISOString tz local
     = option_map toISOString (TimeClip (minuteOf tz past))
  /\ (LocalTime tz past = wall -> local = formatDateTime 0%Z (Some wall))
  /\ (LocalTZA tz wall false = LocalTZA tz now true ->
      past = (now - 2 * msPerHour)%Z).
Proof.
  intros wall past Hpast Hyear local.
  assert (Hlocal : local = formatDateTime tz (Some past)).
  { unfold local. rewrite convertToActualDateTime_two_hours, setHours_back.
    fold wall past. now rewrite TimeClip_valid. }
  split; [exact Hlocal |].
  split; [rewrite Hlocal; apply dateArguments_formatDateTime; lia |].
  split; [rewrite Hlocal; now apply convertToISOString_local |].
  split.
  - intros E. now rewrite Hlocal, formatDateTime_clock, E.
  - intros E. unfold past, UTC, wall, LocalTime in *. lia.
Qed.

(** In a zone of one offset "2 hours ago" is the instant two hours before
    [now]. *)
Lemma exactlyTwoHoursBefore_fixed (offset : Z) :
  (Z.abs offset <= msPerDay)%Z -> exactlyTwoHoursBefore offset.
Proof.
  intros Htz this now Hnow. unfold msPerDay in Htz, Hnow.
  pose (past := (now - 2 * msPerHour)%Z).
  assert (Ep : UTC offset (LocalTime offset now - 2 * msPerHour) = past)
    by apply UTC_fixed.
  assert (Hr : (Z.abs past <= 8640000000000000)%Z)
    by (unfold past, msPerHour; lia).
  assert (Hlow : (1969 <= getFullYear offset past)%Z).
  { unfold getFullYear. apply YearFromTime_recent.
    unfold LocalTime, past, msPerHour. cbn [LocalTZA fixedOffset]. lia. }
  assert (Hup : (getFullYear offset past <= 275762)%Z).
  { unfold getFullYear. apply YearFromTime_upper.
    unfold LocalTime, past, msPerHour, msPerDay. cbn [LocalTZA fixedOffset]. lia. }
  destruct (@two_hours_ago offset this now) as (_ & _ & Hiso & _).
  - now rewrite Ep.
  - rewrite Ep. unfold maxSafe. lia.
  - rewrite Hiso, Ep. fold past. rewrite TimeClip_valid; [reflexivity |].
    rewrite minuteOf_fixed. pose proof (startOfMinute_range offset past).
    assert (0 <= past)%Z by (unfold past, msPerHour; lia).
    unfold msPerMinute in *. lia.
Qed.

(** In New York, at 03:30 on the morning of 10 March 2024 (07:30 UTC),
    "2 hours ago" is 01:30 of the clock, which was one hour before. *)
Lemma exactlyTwoHoursBefore_fails : ~ exactlyTwoHoursBefore newYork2024.
Proof.
  intros H.
  specialize (H (constructor None) 1710055800000%Z).
  assert (R : (2 * msPerDay <= 1710055800000 <= 8640000000000000)%Z)
    by (unfold msPerDay; lia).
  specialize (H R). vm_compute in H. discriminate.
Qed.

(** C7, as the code has it.  For every date, in every zone, the string of
    [formatDateTime] parses back, as [convertToISOString] parses it, to
    the hour of the day and the minute of the date; hour 0 and hour 12 are
    both written "12", with AM and PM.  For "2 hours ago" the hour of the
    local clock is set two hours back: the local string is the format of
    the instant [past] at which the clock of the zone shows two hours
    less than at [now] (read by the rules of the zone when that local
    time is skipped or occurs twice); it parses back to the year, month,
    day, hour and minute of [past], across midnight and the end of a
    month or a year, and [convertToISOString] returns the beginning of
    that local minute.  The string shows the clock two hours before that
    of [now] when the zone has that local time, and [past] is two hours
    before [now] when the zone has the same offset at both; in a zone of
    one offset both always hold.  Across a change of the offset they do
    not: in New York on 10 March 2024, at 03:30 (07:30 UTC) the string
    shows 01:30, one hour earlier, and at 04:30 it shows 03:30. *)
Theorem formatDateTime_roundtrip :
  (forall (tz : TimeZone) t,
     exists year month day,
       dateArguments (formatDateTime tz (Some t))
       = Some (year, month, day, ofZ (getHours tz t), ofZ (getMinutes tz t)))
  /\ (forall (tz : TimeZone) t,
        (getHours tz t = 0%Z ->
           hoursField (formatDateTime tz (Some t)) = js "12"
           /\ meridiem (formatDateTime tz (Some t)) = js "AM")
        /\ (getHours tz t = 12%Z ->
              hoursField (formatDateTime tz (Some t)) = js "12"
              /\ meridiem (formatDateTime tz (Some t)) = js "PM"))
  /\ (forall (tz : TimeZone) this now,
        let wall := (LocalTime tz now - 2 * msPerHour)%Z in
        let past := UTC tz wall in
        (Z.abs past <= 8640000000000000)%Z ->
        (100 <= getFullYear tz past <= maxSafe)%Z ->
        let local := fst (convertToActualDateTime tz this (js "2 hours ago") now) in
        local = formatDateTime tz (Some past)
        /\ dateArguments local
           = Some (ofZ (getFullYear tz past), ofZ (getMonth tz past),
                   ofZ (getDate tz past), ofZ (getHours tz past),
                   ofZ (getMinutes tz past))
        /\ convertToISOString tz local
           = option_map toISOString (TimeClip (minuteOf tz past))
        /\ (LocalTime tz past = wall -> local = formatDateTime 0%Z (Some wall))
        /\ (LocalTZA tz wall false = LocalTZA tz now true ->
            past = (now - 2 * msPerHour)%Z))
  /\ (forall offset : Z,
        (Z.abs offset <= msPerDay)%Z -> exactlyTwoHoursBefore offset)
  /\ (fst (convertToActualDateTime 0%Z (constructor None) (js "2 hours ago")
             1709255730000)
      = js "2024-02-29 11:15 PM"
      /\ convertToISOString 0%Z (js "2024-02-29 11:15 PM")
         = Some (js "2024-02-29T23:15:00.000Z"))
  /\ (fst (convertToActualDateTime (-18000000)%Z (constructor None)
             (js "2 hours ago") 1704087000000)
      = js "2023-12-31 10:30 PM"
      /\ convertToISOString (-18000000)%Z (js "2023-12-31 10:30 PM")
         = Some (js "2024-01-01T03:30:00.000Z"))
  /\ (fst (convertToActualDateTime newYork2024 (constructor None)
             (js "2 hours ago") 1710055800000)
      = js "2024-03-10 01:30 AM"
      /\ convertToISOString newYork2024 (js "2024-03-10 01:30 AM")
         = Some (js "2024-03-10T06:30:00.000Z")
      /\ fst (convertToActualDateTime newYork2024 (constructor None)
                (js "2 hours ago") 1710059400000)
         = js "2024-03-10 03:30 AM"
      /\ formatDateTime newYork2024 (Some 1710059400000%Z)
         = js "2024-03-10 04:30 AM").
Proof.
  split; [exact dateArguments_formatDateTime_clock |].
  split.
  { intros tz t. destruct (formatDateTime_fields tz t) as [Hh Hm].
    rewrite Hh, Hm. split; intros ->; split; reflexivity. }
  split; [exact two_hours_ago |].
  split; [exact exactlyTwoHoursBefore_fixed |].
  repeat split; vm_compute; reflexivity.
Qed.

(** ** Concrete instances *)




(** Three cards and two time tokens. *)
Lemma tokens_assigned_by_position_witness :
  foundTimes
    (fst (@processElements (domOf threeCards) 0%Z
            (withTimes (constructor None) twoTimes) threeCards service2h march1st))
  = [Some (js "1 hour ago"); Some (js "9 hours ago"); Some (js "3 hours ago")].
Proof.
  destruct (@tokens_assigned_by_position (domOf threeCards) 0%Z (constructor None)
              twoTimes threeCards service2h march1st) as (_ & _ & _ & _ & _ & H & _).
  apply H; reflexivity.
Defined.

Lemma generateFingerprint_title_only_witness :
  generateFingerprint jobAustin = generateFingerprint jobDallas.
Proof.
  destruct generateFingerprint_title_only as (_ & _ & H).
  apply H.
  - reflexivity.
  - simpl. lia.
  - repeat (constructor; [reflexivity |]). constructor.
Defined.

Lemma dedupe_first_occurrence_witness :
  exists before after,
    batchOfThree
    = before ++ supabaseRow 0%Z service2h job5h :: after
    /\ Forall (fun x => Row.fingerprint x
                        <> Row.fingerprint (supabaseRow 0%Z service2h job5h))
         before.
Proof.
  destruct (dedupe_first_occurrence 0%Z service2h) as (_ & H).
  destruct (H batchOfThree) as (_ & _ & _ & Hfirst & _).
  apply Hfirst. vm_compute. right. left. reflexivity.
Defined.

Lemma isValidJobData_qualified_witness :
  isValidJobData scraper5h jobsPlaceholder service2h = false
  /\ isValidJobData scraper1h (jobTitled (js "Delivery DRIVER"))
       (serviceWith [JString (js "Driver")]) = true
  /\ isValidJobData scraper1h (jobTitled (driverCyrillicCapitals ++ js " Courier"))
       (serviceWith [JString driverCyrillic]) = true.
Proof.
  destruct (@isValidJobData_qualified (domOf []) 0%Z)
    as (_ & H & _ & Hascii & Hcyrillic & _).
  split; [apply H; [reflexivity | discriminate | discriminate] |].
  split; [exact Hascii | exact Hcyrillic].
Defined.

Lemma threshold_from_environment_witness :
  maxHoursWindow (constructor (Some (Z_toString 8))) = ofZ 8
  /\ isTimeWithin6Hours scraper5h (hoursAgo 5)
     = leb (ofZ 5) (maxHoursWindow scraper5h).
Proof.
  destruct (@threshold_from_environment (domOf []) 0%Z)
    as (_ & Hpos & _ & _ & _ & Hwin).
  split; [apply Hpos; unfold maxSafe; lia |].
  apply Hwin. unfold maxSafe. lia.
Defined.

Lemma formatDateTime_roundtrip_witness :
  convertToISOString 0%Z
    (fst (convertToActualDateTime 0%Z (constructor None) (js "2 hours ago") march1st))
  = Some (toISOString (minuteOf 0%Z (march1st - 2 * msPerHour))).
Proof.
  destruct formatDateTime_roundtrip as (_ & _ & _ & H & _).
  apply (H 0%Z).
  - unfold msPerDay. simpl. lia.
  - unfold msPerDay, march1st. lia.
Defined.


Lemma at_most_maxJobs_processed_witness :
  exists result this1,
    @parseJobsFromHTML (domOf threeCards) 0%Z (constructor None) twoTimes
      service2h march1st = (Normal result, this1)
    /\ List.length (jobs result) <= 100
    /\ totalFound result = 3.
Proof.
  destruct at_most_maxJobs_processed as (Hbound & Hshape & _).
  pose proof (Hshape (domOf threeCards) 0%Z (constructor None) twoTimes service2h
                march1st threeCards eq_refl) as E.
  eexists _, _. split; [apply E; vm_compute; discriminate |].
  split; [| reflexivity].
  eapply (Hbound (domOf threeCards) 0%Z (constructor None) twoTimes service2h march1st).
  apply E. vm_compute. discriminate.
Defined.

(** * Further properties of the class *)

(** ** Selector cascade and field extraction *)

Lemma trim_trimmed s : trimmed (trim s).
Proof.
  split; [apply trim_headFails |].
  unfold trim, trimEnd. rewrite rev_involutive. apply dropWhile_headFails.
Qed.

Lemma In_dropWhile p (c : N) s : In c (dropWhile p s) -> In c s.
Proof.
  induction s as [| x s IH]; simpl; [auto |].
  destruct (p x); [intros H; right; auto | auto].
Qed.

Lemma In_trim (c : N) s : In c (trim s) -> In c s.
Proof.
  unfold trim, trimEnd, trimStart. intros H.
  apply In_rev in H. apply In_dropWhile in H. apply In_rev in H.
  now apply In_dropWhile in H.
Qed.

(** The pieces of a split do not contain the separator, and their code
    units come from the string. *)
Lemma split_pieces sep s :
  Forall (fun p => ~ In sep p /\ forall c, In c p -> In c s) (split sep s).
Proof.
  induction s as [| x s IH]; simpl.
  - constructor; [| constructor]. split; auto.
  - destruct (unit_eqb x sep) eqn:E.
    + constructor; [split; [auto | intros c []] |].
      eapply Forall_impl; [| exact IH]. intros p [H1 H2]. split; [exact H1 |].
      intros c Hc. right. auto.
    + destruct (split sep s) as [| p ps]; [now apply Forall_nil_iff in IH; constructor;
        [split; [intros [-> | []]; unfold unit_eqb in E; now rewrite N.eqb_refl in E
                | intros c [-> | []]; now left] | constructor] |].
      inversion IH as [| ? ? [H1 H2] Hps]; subst.
      constructor.
      * split.
        -- intros [-> | H]; [unfold unit_eqb in E; now rewrite N.eqb_refl in E | auto].
        -- intros c [-> | H]; [now left | right; auto].
      * eapply Forall_impl; [| exact Hps]. intros q [Q1 Q2]. split; [exact Q1 |].
        intros c Hc. right. auto.
Qed.

Section Cascade.
Context {dom : DOM}.
Variable tz : TimeZone.

(** X1. The container cascade of [parseJobsFromHTML]: the result is the
    match set of the first selector, in the order of the list, that
    matches anything, the selectors before it matching nothing; match
    sets of different selectors are never merged.  When no selector
    matches, the result is empty. *)
Theorem findJobElements_first_match (document : Document)
  (selectors : list jsstring) :
  (exists before selector after,
     selectors = before ++ selector :: after
     /\ Forall (fun s => querySelectorAll document s = []) before
     /\ querySelectorAll document selector <> []
     /\ findJobElements document selectors = querySelectorAll document selector)
  \/ (Forall (fun s => querySelectorAll document s = []) selectors
      /\ findJobElements document selectors = []).
Proof.
  induction selectors as [| s rest IH]; simpl.
  - right. split; [constructor | reflexivity].
  - destruct (querySelectorAll document s) as [| e es] eqn:E.
    + destruct IH as [(b & sel & a & -> & Hb & Hne & Hf) | [Hall Hf]].
      * left. exists (s :: b), sel, a.
        split; [reflexivity |]. split; [constructor; assumption |].
        split; assumption.
      * right. split; [constructor; assumption | assumption].
    + left. exists [], s, rest. rewrite E.
      split; [reflexivity |]. split; [constructor |].
      split; [discriminate | reflexivity].
Qed.

(** The two tests of the field loop, on the text and on the trimmed
    text, amount to one: the trimmed text is not empty. *)
Lemma firstText_cons jobElement selector rest :
  firstText jobElement (selector :: rest)
  = match querySelector jobElement selector with
    | Some elem =>
        match trim (textContent elem) with
        | [] => firstText jobElement rest
        | text => Some text
        end
    | None => firstText jobElement rest
    end.
Proof.
  simpl. destruct (querySelector jobElement selector) as [elem |]; [| reflexivity].
  destruct (textContent elem) as [| c s] eqn:E; [reflexivity |].
  cbn [nonEmpty]. now destruct (trim (c :: s)).
Qed.

(** X2. Field extraction: the loop over the selectors of a field returns
    the trimmed text of the first selector that finds an element whose
    text is not blank; every selector before it finds no element or only
    blank text.  The text returned is never empty and has no white space
    at either end.  Nothing is returned exactly when every selector finds
    no element or blank text. *)
Theorem firstText_first_nonblank (jobElement : Element)
  (selectors : list jsstring) :
  match firstText jobElement selectors with
  | Some text =>
      exists before selector after elem,
        selectors = before ++ selector :: after
        /\ Forall (blankUnder jobElement) before
        /\ querySelector jobElement selector = Some elem
        /\ text = trim (textContent elem)
        /\ text <> []
        /\ trimmed text
  | None => Forall (blankUnder jobElement) selectors
  end.
Proof.
  induction selectors as [| s rest IH]; [constructor |].
  rewrite firstText_cons.
  destruct (querySelector jobElement s) as [elem |] eqn:Q.
  - destruct (trim (textContent elem)) as [| c text] eqn:T.
    + assert (B : blankUnder jobElement s) by (unfold blankUnder; now rewrite Q).
      destruct (firstText jobElement rest) as [t |].
      * destruct IH as (b & sel & a & el & -> & Hb & Hq & Ht & Hne & Htr).
        exists (s :: b), sel, a, el.
        split; [reflexivity |]. split; [constructor; assumption |]. auto.
      * constructor; assumption.
    + exists [], s, rest, elem.
      split; [reflexivity |]. split; [constructor |].
      split; [exact Q |]. split; [now rewrite T |].
      split; [discriminate |]. rewrite <- T. apply trim_trimmed.
  - assert (B : blankUnder jobElement s) by (unfold blankUnder; now rewrite Q).
    destruct (firstText jobElement rest) as [t |].
    + destruct IH as (b & sel & a & el & -> & Hb & Hq & Ht & Hne & Htr).
      exists (s :: b), sel, a, el.
      split; [reflexivity |]. split; [constructor; assumption |]. auto.
    + constructor; assumption.
Qed.

Lemma firstText_trimmed jobElement selectors :
  trimmed (match firstText jobElement selectors with
           | Some t => t
           | None => []
           end).
Proof.
  induction selectors as [| s rest IH]; [split; exact I |].
  rewrite firstText_cons.
  destruct (querySelector jobElement s) as [elem |]; [| exact IH].
  destruct (trim (textContent elem)) as [| c text] eqn:T; [exact IH |].
  rewrite <- T. apply trim_trimmed.
Qed.

(** X3. The record of one extraction: the service fields are those of
    the descriptor, [scraped_at] is the clock in ISO form, the title,
    the company and the location have no white space at either end, and
    city and state are always those [parseLocation] gives for the
    location of the record; when no location is found, all three are
    empty. *)
Theorem extractJobDataFromElement_fields (this : Scraper) (jobElement : Element)
  (service : Service.t) (now : Z) :
  let jobData := fst (extractJobDataFromElement tz this jobElement service now) in
  Job.service jobData = Service.name service
  /\ Job.service_display_name jobData = Service.display_name service
  /\ Job.scraped_at jobData = toISOString now
  /\ trimmed (Job.title jobData)
  /\ trimmed (Job.company jobData)
  /\ trimmed (Job.location jobData)
  /\ Job.city jobData = Loc.city (parseLocation (Job.location jobData))
  /\ Job.state jobData = Loc.state (parseLocation (Job.location jobData))
  /\ (firstText jobElement locationSelectors = None ->
      Job.location jobData = [] /\ Job.city jobData = [] /\ Job.state jobData = []).
Proof.
  unfold extractJobDataFromElement.
  destruct (convertToActualDateTime tz this _ now) as [posted this1].
  cbn [fst Job.service Job.service_display_name Job.scraped_at Job.title
       Job.company Job.location Job.city Job.state].
  split; [reflexivity |]. split; [reflexivity |]. split; [reflexivity |].
  split; [apply firstText_trimmed |]. split; [apply firstText_trimmed |].
  split; [apply firstText_trimmed |].
  destruct (firstText jobElement locationSelectors) as [l |]; cbn [option_map].
  - split; [reflexivity |]. split; [reflexivity |]. discriminate.
  - split; [reflexivity |]. split; [reflexivity |]. auto.
Qed.

(** *** The loop over the containers *)

Lemma tokenIsRecent_window this1 this2 j :
  maxHoursWindow this1 = maxHoursWindow this2 ->
  tokenIsRecent this1 j <-> tokenIsRecent this2 j.
Proof.
  intros E. unfold tokenIsRecent.
  split; intros (t & Ht & Hr); exists t; (split; [exact Ht |]).
  - now rewrite <- (isTimeWithin6Hours_window this1 this2 t E).
  - now rewrite (isTimeWithin6Hours_window this1 this2 t E).
Qed.

(** Every processed record carries the verdict of the three conditions,
    and the name of the service. *)
Lemma processElements_verdicts service now elements : forall this,
  Forall (fun p =>
            (snd p = true
             <-> structurallyComplete (fst p)
                 /\ tokenIsRecent this (fst p)
                 /\ passesAllowlist (fst p) service)
            /\ Job.service (fst p) = Service.name service)
         (fst (processElements tz this elements service now)).
Proof.
  induction elements as [| e rest IH]; intros this; [constructor |].
  cbn [processElements].
  destruct (extractJobDataFromElement_time tz this e service now)
    as (token & Hlast & Hfound & Hdate & Hwin).
  assert (Hname : Job.service (fst (extractJobDataFromElement tz this e service now))
                  = Service.name service).
  { unfold extractJobDataFromElement.
    now destruct (convertToActualDateTime tz this _ now). }
  destruct (extractJobDataFromElement tz this e service now) as [jobData this1].
  cbn [fst snd] in *.
  specialize (IH this1).
  destruct (processElements tz this1 rest service now) as [processed this2].
  cbn [fst] in *. constructor.
  - cbn [fst snd]. split; [| exact Hname].
    rewrite (@isValidJobData_spec this1 jobData service token Hlast Hfound Hdate).
    now rewrite (tokenIsRecent_window this1 this jobData Hwin).
  - eapply Forall_impl; [| exact IH]. intros p [H1 H2]. split; [| exact H2].
    now rewrite <- (tokenIsRecent_window this1 this (fst p) Hwin).
Qed.

Lemma accepted_Forall (P : Job.t -> Prop) processed :
  Forall (fun p => snd p = true -> P (fst p)) processed ->
  Forall P (accepted processed).
Proof.
  unfold accepted. induction 1 as [| [j v] l H _ IH]; [constructor |].
  simpl in *. destruct v; [constructor; auto | exact IH].
Qed.

(** What [parseJobsFromHTML] returns comes out of the loop over the
    containers: the records with a positive verdict, each verdict being
    that of the three conditions. *)
Lemma parseJobsFromHTML_accepted this html service now result this1 :
  parseJobsFromHTML tz this html service now = (Normal result, this1) ->
  exists processed,
    jobs result = accepted processed
    /\ List.length processed <= totalFound result
    /\ Forall (fun p =>
                 (snd p = true
                  <-> structurallyComplete (fst p)
                      /\ tokenIsRecent this (fst p)
                      /\ passesAllowlist (fst p) service)
                 /\ Job.service (fst p) = Service.name service)
              processed.
Proof.
  unfold parseJobsFromHTML.
  destruct (JSDOM html) as [document |]; [| discriminate].
  destruct (List.length (findJobElements document jobSelectors) =? 0) eqn:E.
  - intros H. injection H as <- _. exists [].
    split; [reflexivity |]. split; [apply Nat.le_refl | constructor].
  - pose proof (processElements_verdicts service now
                  (firstn (Nat.min (List.length (findJobElements document jobSelectors))
                             CONFIG.maxJobs)
                     (findJobElements document jobSelectors))
                  (withTimes this html)) as V.
    pose proof (processElements_length tz service now
                  (firstn (Nat.min (List.length (findJobElements document jobSelectors))
                             CONFIG.maxJobs)
                     (findJobElements document jobSelectors))
                  (withTimes this html)) as L.
    destruct (processElements tz (withTimes this html) _ service now)
      as [processed this2].
    cbn [fst] in V, L.
    intros H. injection H as <- _. cbn [jobs totalFound]. exists processed.
    split; [reflexivity |]. split.
    + rewrite L, length_firstn.
      eapply Nat.le_trans; [apply Nat.le_min_l | apply Nat.le_min_l].
    + eapply Forall_impl; [| exact V]. intros p [H1 H2]. split; [| exact H2].
      now rewrite <- (tokenIsRecent_window (withTimes this html) this (fst p) eq_refl).
Qed.

(** X4. Only qualified records are returned: every record in the [jobs]
    of [parseJobsFromHTML] is structurally complete, has a time token
    inside the recency window, passes the keyword list of the descriptor
    and carries the name of the service; and there are never more records
    than [totalFound] containers. *)
Theorem parseJobsFromHTML_only_qualified (this : Scraper) (html : jsstring)
  (service : Service.t) (now : Z) (result : ParseResult) (this1 : Scraper) :
  parseJobsFromHTML tz this html service now = (Normal result, this1) ->
  Forall (fun j => structurallyComplete j
                   /\ tokenIsRecent this j
                   /\ passesAllowlist j service
                   /\ Job.service j = Service.name service)
         (jobs result)
  /\ List.length (jobs result) <= totalFound result.
Proof.
  intros H. destruct (parseJobsFromHTML_accepted _ _ _ _ H) as (processed & -> & L & V).
  split.
  - apply accepted_Forall. eapply Forall_impl; [| exact V].
    intros p [[H1 _] H2] Hv. destruct (H1 Hv) as (S1 & S2 & S3). auto.
  - eapply Nat.le_trans; [apply accepted_length | exact L].
Qed.

(** One extraction does not read [_lastTimeString]: from two states that
    differ in that field only it gives the same record and the same
    state. *)
Lemma extractJobDataFromElement_last this last e service now :
  extractJobDataFromElement tz
    {| maxHoursWindow := maxHoursWindow this;
       _availableTimes := _availableTimes this;
       _timeIndex := _timeIndex this;
       _lastTimeString := last |} e service now
  = extractJobDataFromElement tz this e service now.
Proof.
  unfold extractJobDataFromElement.
  cbn [maxHoursWindow _availableTimes _timeIndex].
  set (timeString := if _timeIndex this <? _ then _ else _).
  unfold convertToActualDateTime.
  cbn [maxHoursWindow _availableTimes _timeIndex].
  destruct (negb (nonEmpty timeString)); [reflexivity |].
  destruct (Regex.exec _ _) as [[ds u] |]; reflexivity.
Qed.

Lemma processElements_last service now elements this last :
  fst (processElements tz
         {| maxHoursWindow := maxHoursWindow this;
            _availableTimes := _availableTimes this;
            _timeIndex := _timeIndex this;
            _lastTimeString := last |} elements service now)
  = fst (processElements tz this elements service now).
Proof.
  destruct elements as [| e rest]; [reflexivity |].
  cbn [processElements]. now rewrite extractJobDataFromElement_last.
Qed.

Lemma processElements_window service now elements : forall this,
  maxHoursWindow (snd (processElements tz this elements service now))
  = maxHoursWindow this.
Proof.
  induction elements as [| e rest IH]; intros this; [reflexivity |].
  cbn [processElements].
  destruct (extractJobDataFromElement_time tz this e service now)
    as (token & _ & _ & _ & Hwin).
  destruct (extractJobDataFromElement tz this e service now) as [jobData this1].
  specialize (IH this1).
  destruct (processElements tz this1 rest service now) as [processed this2].
  cbn [snd] in *. congruence.
Qed.

(** The result of a call depends on the state of the scraper through
    its window only, and the call leaves the window as it is. *)
Lemma parseJobsFromHTML_window this1 this2 html service now :
  maxHoursWindow this1 = maxHoursWindow this2 ->
  fst (parseJobsFromHTML tz this1 html service now)
  = fst (parseJobsFromHTML tz this2 html service now)
  /\ maxHoursWindow (snd (parseJobsFromHTML tz this1 html service now))
     = maxHoursWindow this1.
Proof.
  intros W. unfold parseJobsFromHTML.
  destruct (JSDOM html) as [document |]; [| split; reflexivity].
  destruct (List.length (findJobElements document jobSelectors) =? 0);
    [split; reflexivity |].
  set (elements := firstn _ (findJobElements document jobSelectors)).
  pose proof (processElements_last service now elements
                (withTimes this2 html) (_lastTimeString this1)) as E.
  pose proof (processElements_window service now elements (withTimes this1 html)) as W1.
  assert (S : {| maxHoursWindow := maxHoursWindow (withTimes this2 html);
                 _availableTimes := _availableTimes (withTimes this2 html);
                 _timeIndex := _timeIndex (withTimes this2 html);
                 _lastTimeString := _lastTimeString this1 |}
              = withTimes this1 html).
  { unfold withTimes. cbn [maxHoursWindow _availableTimes _timeIndex]. now rewrite W. }
  rewrite S in E.
  destruct (processElements tz (withTimes this1 html) elements service now)
    as [processed1 s1].
  destruct (processElements tz (withTimes this2 html) elements service now)
    as [processed2 s2].
  cbn [fst snd] in *. subst processed1. split; [reflexivity | exact W1].
Qed.

(** X5. Nothing is carried over from one document to the next: whatever
    pool of tokens, cursor and last token an earlier call has left in the
    scraper, [parseJobsFromHTML] returns what it returns from any other
    state with the same window.  The call never changes the window, and
    when it returns, the pool is the scan of its own document and the
    cursor lies within it. *)
Theorem parseJobsFromHTML_fresh_state (this : Scraper) (html : jsstring)
  (service : Service.t) (now : Z) (pool : list jsstring) (index : nat)
  (last : option jsstring) :
  let stale := {| maxHoursWindow := maxHoursWindow this;
                  _availableTimes := pool;
                  _timeIndex := index;
                  _lastTimeString := last |} in
  let call := parseJobsFromHTML tz this html service now in
  fst (parseJobsFromHTML tz stale html service now) = fst call
  /\ maxHoursWindow (snd call) = maxHoursWindow this
  /\ (fst call <> Throw ->
      _availableTimes (snd call) = Regex.matchAll html 0
      /\ _timeIndex (snd call) <= List.length (Regex.matchAll html 0)).
Proof.
  cbv zeta. unfold parseJobsFromHTML.
  destruct (JSDOM html) as [document |];
    [| split; [reflexivity | split; [reflexivity | intros H; now elim H]]].
  destruct (List.length (findJobElements document jobSelectors) =? 0).
  { split; [reflexivity |]. split; [reflexivity |]. intros _.
    split; [reflexivity | apply Nat.le_0_l]. }
  set (elements := firstn _ (findJobElements document jobSelectors)).
  pose proof (processElements_last service now elements
                (withTimes this html) last) as E.
  pose proof (processElements_window service now elements (withTimes this html)) as W.
  pose proof (processElements_tokens tz service now elements (withTimes this html)) as T.
  cbv zeta in T. destruct T as (_ & T1 & T2).
  unfold withTimes in E at 1. cbn [maxHoursWindow _availableTimes _timeIndex] in E.
  unfold withTimes at 1. cbn [maxHoursWindow _availableTimes _timeIndex].
  destruct (processElements tz (withTimes this html) elements service now)
    as [processed this2].
  destruct (processElements tz _ elements service now) as [processed' this2'].
  cbn [fst snd] in *. subst processed'.
  split; [reflexivity |]. split; [exact W |]. intros _.
  split; [exact T1 |]. rewrite T2 by apply Nat.le_0_l.
  apply Nat.le_min_r.
Qed.

End Cascade.

(** ** Locations *)

(** X6. What [parseLocation] returns is clean: city and state have no
    white space at either end and contain neither a bullet nor a comma,
    whatever the location string. *)
Theorem parseLocation_clean (locationString : jsstring) :
  let l := parseLocation locationString in
  trimmed (Loc.city l) /\ trimmed (Loc.state l)
  /\ ~ In bullet (Loc.city l) /\ ~ In comma (Loc.city l)
  /\ ~ In bullet (Loc.state l) /\ ~ In comma (Loc.state l).
Proof.
  cbv zeta. unfold parseLocation.
  set (clean := trim (hd [] (split bullet locationString))).
  assert (Hb : ~ In bullet clean).
  { unfold clean. intros H. apply In_trim in H.
    pose proof (split_pieces bullet locationString) as P.
    destruct (split bullet locationString) as [| p ps]; [exact H |].
    inversion P as [| ? ? [P1 _] _]; subst. now apply P1. }
  assert (Hp : Forall (fun p => ~ In comma p /\ ~ In bullet p) (split comma clean)).
  { eapply Forall_impl; [| apply split_pieces]. intros p [P1 P2].
    split; [exact P1 | intros H; apply Hb; now apply P2]. }
  assert (Ht : forall p, ~ In comma p /\ ~ In bullet p ->
               trimmed (trim p) /\ ~ In bullet (trim p) /\ ~ In comma (trim p)).
  { intros p [P1 P2]. split; [apply trim_trimmed |].
    split; intros H; apply In_trim in H; auto. }
  destruct (split comma clean) as [| p0 [| p1 ps]] eqn:E.
  - now apply split_nonempty in E.
  - cbn [map Loc.city Loc.state].
    apply split_single in E. subst p0.
    inversion Hp as [| ? ? [P1 P2] _]; subst.
    split; [apply trim_trimmed |]. split; [split; exact I |].
    split; [exact Hb |]. split; [exact P1 |]. split; intros [].
  - cbn [map Loc.city Loc.state].
    inversion Hp as [| ? ? P0 Hp']; subst.
    inversion Hp' as [| ? ? P1 _]; subst.
    destruct (Ht p0 P0) as (A1 & A2 & A3). destruct (Ht p1 P1) as (B1 & B2 & B3).
    auto 10.
Qed.
(** ** Time normalisation *)

Lemma setMinutes_back (tz : TimeZone) now k :
  setMinutes tz now (ofZ (getMinutes tz now - k))
  = TimeClip (UTC tz (LocalTime tz now - k * msPerMinute)).
Proof.
  unfold setMinutes, getMinutes. rewrite toInteger_ofZ. cbv zeta. do 2 f_equal.
  generalize (LocalTime tz now). intros lt.
  time_units. Z.div_mod_to_equations. lia.
Qed.

Lemma setDate_back (tz : TimeZone) now k :
  setDate tz now (ofZ (getDate tz now - k))
  = TimeClip (UTC tz (LocalTime tz now - k * msPerDay)).
Proof.
  unfold setDate, getDate. rewrite toInteger_ofZ. cbv zeta. do 2 f_equal.
  generalize (LocalTime tz now). intros lt.
  assert (D : MakeDay (YearFromTime lt) (MonthFromTime lt) (DateFromTime lt - k)
              = (JsDate.Day lt - k)%Z).
  { rewrite <- (MakeDay_roundtrip lt). unfold MakeDay. lia. }
  rewrite D. time_units. Z.div_mod_to_equations. lia.
Qed.

(** What the pattern of the normaliser finds in a token. *)
Lemma exec_normaliser_token u ds tok :
  isToken u ds tok ->
  Regex.exec normaliserUnits (toLowerCase tok)
  = match u with
    | InMinutes => Some (ds, js "minute")
    | InHours => Some (ds, js "hour")
    | InDays => Some (ds, js "day")
    | _ => None
    end.
Proof.
  intros (ws1 & word & ws2 & ago & -> & Hne & Hds & Hws1 & Hin & Hws2 & Hago).
  rewrite (@toLowerCase_token ds ws1 word ws2 ago (map foldAscii word))
    by (assumption || reflexivity || now apply (@unitWords_ascii u)).
  assert (Htail := no_digit_tail Hws2).
  destruct u; simpl in Hin; destruct Hin as [<- | [<- | []]].
  1, 2: rewrite (@exec_found normaliserUnits ds ws1 _ (js "minute"));
    (reflexivity || assumption).
  1, 2: rewrite (@exec_found normaliserUnits ds ws1 _ (js "hour"));
    (reflexivity || assumption).
  1, 2: rewrite (@exec_found normaliserUnits ds ws1 _ (js "day"));
    (reflexivity || assumption).
  all: rewrite exec_not_found;
    [ reflexivity | assumption | assumption | reflexivity | reflexivity
    | reflexivity | repeat (constructor; [reflexivity |]); exact Htail ].
Qed.

Lemma isToken_nonempty u ds tok : isToken u ds tok -> nonEmpty tok = true.
Proof.
  intros (ws1 & word & ws2 & ago & -> & Hne & _).
  destruct ds; [congruence | reflexivity].
Qed.

(** The date the normaliser computes for a token: the field of its unit
    is set to the field less the number. *)
Lemma convertToActualDateTime_setter tz this now u ds tok :
  isToken u ds tok ->
  convertToActualDateTime tz this tok now
  = (formatDateTime tz
       match u with
       | InMinutes =>
           setMinutes tz now (sub (ofZ (getMinutes tz now)) (parseInt ds))
       | InHours => setHours tz now (sub (ofZ (getHours tz now)) (parseInt ds))
       | InDays => setDate tz now (sub (ofZ (getDate tz now)) (parseInt ds))
       | _ => Some now
       end,
     withLast this tok).
Proof.
  intros H. unfold convertToActualDateTime.
  rewrite (isToken_nonempty H). cbn [negb].
  change [js "hour"; js "minute"; js "min"; js "day"] with normaliserUnits.
  rewrite (exec_normaliser_token H). unfold withLast.
  destruct u; reflexivity.
Qed.

Lemma field_ranges tz now :
  (0 <= getMinutes tz now <= 2 ^ 53)%Z /\ (0 <= getHours tz now <= 2 ^ 53)%Z
  /\ (0 <= getDate tz now <= 2 ^ 53)%Z.
Proof.
  change (2 ^ 53)%Z with 9007199254740992%Z.
  pose proof (getMinutes_range tz now). pose proof (getHours_range tz now).
  pose proof (DateFromTime_range (LocalTime tz now)). unfold getDate. lia.
Qed.

(** A number up to 2^53: the token stands for the instant at which the
    clock of the zone shows that many units less. *)
Lemma convertToActualDateTime_token tz this now u ds tok :
  isToken u ds tok ->
  (Z.of_N (mathInt ds) <= maxSafe)%Z ->
  convertToActualDateTime tz this tok now
  = (formatDateTime tz (instantOf tz u (Z.of_N (mathInt ds)) now),
     withLast this tok).
Proof.
  intros H Hn. rewrite (convertToActualDateTime_setter tz this now H).
  destruct (field_ranges tz now) as (Rm & Rh & Rd).
  unfold instantOf, unitMs.
  destruct u; try reflexivity.
  - rewrite (proj1 (field_minus_number ds Rm) Hn), setMinutes_back. reflexivity.
  - rewrite (proj1 (field_minus_number ds Rh) Hn), setHours_back. reflexivity.
  - rewrite (proj1 (field_minus_number ds Rd) Hn), setDate_back. reflexivity.
Qed.






(** X8. From the local format to ISO-8601, in any zone.  For every
    instant whose local year has three digits or more,
    [convertToISOString] applied to the string of [formatDateTime] gives
    the ISO form of the instant at which that local minute begins, or
    [null] when that lies outside the range of dates: the local format
    has no seconds, and the local time written is read back by the rules
    of the zone.  So the [posted_at] of a token in minutes, hours or days
    is the beginning of the local minute of the date the token stands
    for.  In a zone of one offset that is the instant without its seconds
    and milliseconds.  In New York, for "12 hours ago" at 12:00 UTC on
    10 March 2024, it is 01:00 UTC of that day. *)
Theorem convertToISOString_formatDateTime (tz : TimeZone) :
  (forall t,
     (100 <= getFullYear tz t <= maxSafe)%Z ->
     convertToISOString tz (formatDateTime tz (Some t))
     = option_map toISOString (TimeClip (minuteOf tz t)))
  /\ (forall this now u ds tok past,
        isToken u ds tok ->
        (Z.of_N (mathInt ds) <= maxSafe)%Z ->
        instantOf tz u (Z.of_N (mathInt ds)) now = Some past ->
        (100 <= getFullYear tz past <= maxSafe)%Z ->
        convertToISOString tz (fst (convertToActualDateTime tz this tok now))
        = option_map toISOString (TimeClip (minuteOf tz past)))
  /\ (forall (offset : Z) t,
        minuteOf offset t = startOfMinute offset t
        /\ (startOfMinute offset t <= t < startOfMinute offset t + msPerMinute)%Z)
  /\ convertToISOString newYork2024
       (fst (convertToActualDateTime newYork2024 (constructor None)
               (js "12 hours ago") 1710072000000))
     = Some (js "2024-03-10T01:00:00.000Z").
Proof.
  split; [apply convertToISOString_local |].
  split.
  { intros this now u ds tok past Htok Hn Hpast Hy.
    rewrite (convertToActualDateTime_token tz this now Htok Hn). cbn [fst].
    rewrite Hpast. now apply convertToISOString_local. }
  split; [| vm_compute; reflexivity].
  intros offset t. split; [apply minuteOf_fixed | apply startOfMinute_range].
Qed.

Lemma minutesAgo_token n :
  (0 <= n)%Z -> isToken InMinutes (Z_toString n) (minutesAgo n).
Proof.
  intros Hn. exists (js " "), (js "minutes"), (js " "), (js "ago").
  unfold minutesAgo. rewrite Z_toString_nonneg by exact Hn.
  split; [reflexivity |].
  split; [apply N_toString_nonempty |].
  split; [apply N_toString_digits |].
  split; [repeat constructor |].
  split; [simpl; right; left; reflexivity |].
  split; [repeat constructor | reflexivity].
Qed.


(** ** The test of the Spark alert *)

Lemma startsWith_shorter a b r :
  startsWith (a ++ b) r = true -> startsWith a r = true.
Proof.
  revert r; induction a as [| x a IH]; intros r; [reflexivity |].
  destruct r as [| c r]; simpl; [discriminate |].
  intros H. apply andb_true_iff in H. destruct H as [H1 H2].
  rewrite H1. now apply IH.
Qed.

Lemma firstAlternative_alert r :
  Regex.firstAlternative alertUnits r = Regex.firstAlternative windowUnits r.
Proof.
  unfold Regex.firstAlternative, alertUnits, windowUnits. cbn [find].
  destruct (startsWith (js "hour") r) eqn:H1; [reflexivity |].
  destruct (startsWith (js "hours") r) eqn:H2.
  { apply (@startsWith_shorter (js "hour") (js "s")) in H2. congruence. }
  destruct (startsWith (js "minute") r) eqn:H3; [reflexivity |].
  destruct (startsWith (js "min") r) eqn:H4; [reflexivity |].
  destruct (startsWith (js "minutes") r) eqn:H5; [| reflexivity].
  apply (@startsWith_shorter (js "minute") (js "s")) in H5. congruence.
Qed.

Lemma exec_alert s : Regex.exec alertUnits s = Regex.exec windowUnits s.
Proof.
  induction s as [| c s IH].
  - reflexivity.
  - rewrite (exec_unfold alertUnits), (exec_unfold windowUnits), IH.
    unfold Regex.matchAt. now rewrite firstAlternative_alert.
Qed.

Lemma isTimeWithinHours_agrees this s :
  isTimeWithinHours (Some s) (maxHoursWindow this) = isTimeWithin6Hours this s.
Proof.
  unfold isTimeWithinHours, isTimeWithin6Hours.
  destruct (negb (nonEmpty s)); [reflexivity |].
  change [js "hour"; js "hours"; js "minute"; js "min"; js "minutes"]
    with alertUnits.
  change [js "hour"; js "minute"; js "min"] with windowUnits.
  rewrite exec_alert.
  destruct (Regex.exec windowUnits (toLowerCase s)) as [[ds u] |] eqn:E;
    [| reflexivity].
  apply exec_sound in E. destruct E as (_ & _ & _ & _ & _ & _ & _ & Hin).
  destruct Hin as [<- | [<- | [<- | []]]]; reflexivity.
Qed.

Lemma isTimeWithinHours_mono relativeString limit1 limit2 :
  leb limit1 limit2 = true ->
  isTimeWithinHours relativeString limit1 = true ->
  isTimeWithinHours relativeString limit2 = true.
Proof.
  destruct relativeString as [s |]; intros Hle; [| discriminate].
  unfold isTimeWithinHours.
  destruct (negb (nonEmpty s)); [discriminate |].
  destruct (Regex.exec _ (toLowerCase s)) as [[ds u] |]; [| discriminate].
  destruct (startsWith (js "min") u); [reflexivity |].
  destruct (startsWith (js "minute") u); [reflexivity |].
  destruct (startsWith (js "hour") u); [| discriminate].
  intros H. exact (leb_trans _ _ _ H Hle).
Qed.

(** X10. The test of the Spark alert is the recency window: for every
    string, [isTimeWithinHours] with limit [L] answers what
    [isTimeWithin6Hours] answers in a scraper whose window is [L]; a
    missing [found_time] is not within any limit; and a string within a
    limit is within every larger one. *)
Theorem isTimeWithinHours_is_window :
  (forall this s,
     isTimeWithinHours (Some s) (maxHoursWindow this) = isTimeWithin6Hours this s)
  /\ (forall limit, isTimeWithinHours None limit = false)
  /\ (forall relativeString limit1 limit2,
        leb limit1 limit2 = true ->
        isTimeWithinHours relativeString limit1 = true ->
        isTimeWithinHours relativeString limit2 = true).
Proof.
  split; [exact isTimeWithinHours_agrees |]. split; [reflexivity |].
  exact isTimeWithinHours_mono.
Qed.

(** ** Calendar and number formats *)

(** The number of digits of a numeral. *)
Lemma digitsOf_length fuel : forall k n acc,
  (n < 10 ^ N.of_nat k)%N -> 1 <= k ->
  List.length (digitsOf fuel n acc) <= List.length acc + k.
Proof.
  induction fuel as [| fuel IH]; intros k n acc Hn Hk; simpl; [lia |].
  destruct (N.eqb_spec (n / 10) 0) as [E | E]; [simpl; lia |].
  destruct k as [| [| k]]; [lia | |].
  - exfalso. apply E. apply N.div_small. exact Hn.
  - eapply Nat.le_trans; [apply (IH (S k)) |]; [| lia | simpl; lia].
    replace (N.of_nat (S (S k))) with (N.succ (N.of_nat (S k))) in Hn by lia.
    rewrite N.pow_succ_r' in Hn.
    apply N.Div0.div_lt_upper_bound. exact Hn.
Qed.

Lemma N_toString_length k n :
  (n < 10 ^ N.of_nat k)%N -> 1 <= k -> List.length (N_toString n) <= k.
Proof. intros Hn Hk. apply (@digitsOf_length _ k n [] Hn Hk). Qed.

Lemma padStart_length k s : List.length (padStart k s) = Nat.max k (List.length s).
Proof. unfold padStart. rewrite length_app, repeat_length. lia. Qed.

Lemma padded_length k v :
  (0 <= v < 10 ^ Z.of_nat k)%Z -> 1 <= k ->
  List.length (padStart k (Z_toString v)) = k.
Proof.
  intros Hv Hk. rewrite padStart_length, Z_toString_nonneg by lia.
  assert (H : List.length (N_toString (Z.to_N v)) <= k).
  { apply N_toString_length; [| exact Hk].
    apply N2Z.inj_lt. rewrite Z2N.id by lia.
    rewrite N2Z.inj_pow, nat_N_Z. simpl Z.of_N. lia. }
  lia.
Qed.

(** ** The timestamp of the saved files *)

Lemma map_plain (f : N -> N) (P : N -> Prop) s :
  (forall c, P c -> f c = c) -> Forall P s -> map f s = s.
Proof.
  intros Hf H. induction H as [| c s Hc _ IH]; simpl; [reflexivity |].
  now rewrite Hf, IH.
Qed.

Lemma firstn_all_but (a b : jsstring) k :
  List.length b = k -> firstn (List.length (a ++ b) - k) (a ++ b) = a.
Proof.
  intros <-. rewrite length_app.
  replace (List.length a + List.length b - List.length b) with (List.length a + 0) by lia.
  rewrite firstn_app_2. simpl. apply app_nil_r.
Qed.

Lemma isoYear_chars y :
  Forall (fun c => numeralChar c \/ c = 43%N) (isoYear y).
Proof.
  assert (P : forall k z, Forall (fun c => numeralChar c \/ c = 43%N)
                            (padStart k (Z_toString z))).
  { intros k z. apply padStart_Forall; [left; left; reflexivity |].
    eapply Forall_impl; [| apply Z_toString_chars]. auto. }
  unfold isoYear. destruct (_ && _); [apply P |].
  destruct (y <? 0)%Z; (constructor; [| apply P]).
  - left. right. reflexivity.
  - right. reflexivity.
Qed.

Lemma padded_chars k z :
  Forall (fun c => numeralChar c \/ c = 43%N) (padStart k (Z_toString z)).
Proof.
  apply padStart_Forall; [left; left; reflexivity |].
  eapply Forall_impl; [| apply Z_toString_chars]. auto.
Qed.

Lemma msFromTime_range t : (0 <= msFromTime t < 1000)%Z.
Proof. unfold msFromTime, msPerSecond. apply Z.mod_pos_bound. reflexivity. Qed.

(** X11. The timestamp in the names of the saved files is the clock in
    UTC to the second, "YYYY-MM-DDTHH-MM-SS": the cut of five code units
    removes exactly the milliseconds and the "Z", whatever the year, and
    no colon or dot is left.  For the years 0 to 9999 it has 19 code
    units. *)
Theorem timestamp_to_the_second (now : Z) :
  timestamp now
  = isoYear (YearFromTime now)
      ++ js "-" ++ padStart 2 (Z_toString (MonthFromTime now + 1))
      ++ js "-" ++ padStart 2 (Z_toString (DateFromTime now))
      ++ js "T" ++ padStart 2 (Z_toString (HourFromTime now))
      ++ js "-" ++ padStart 2 (Z_toString (MinFromTime now))
      ++ js "-" ++ padStart 2 (Z_toString (SecFromTime now))
  /\ ~ In colon (timestamp now)
  /\ ~ In dot (timestamp now)
  /\ ((0 <= YearFromTime now <= 9999)%Z -> List.length (timestamp now) = 19).
Proof.
  set (f := fun c : N => if unit_eqb c colon || unit_eqb c dot then hyphen else c).
  assert (Hf : forall c, numeralChar c \/ c = 43%N -> f c = c).
  { intros c [[Hc | ->] | ->]; [| reflexivity | reflexivity].
    unfold f. destruct (unit_eqb c colon || unit_eqb c dot) eqn:E; [| reflexivity].
    apply orb_true_iff in E. unfold unit_eqb, colon, dot in E.
    destruct E as [E | E]; apply N.eqb_eq in E; subst c; discriminate. }
  assert (E : timestamp now
              = isoYear (YearFromTime now)
                  ++ js "-" ++ padStart 2 (Z_toString (MonthFromTime now + 1))
                  ++ js "-" ++ padStart 2 (Z_toString (DateFromTime now))
                  ++ js "T" ++ padStart 2 (Z_toString (HourFromTime now))
                  ++ js "-" ++ padStart 2 (Z_toString (MinFromTime now))
                  ++ js "-" ++ padStart 2 (Z_toString (SecFromTime now))).
  { unfold timestamp, toISOString. fold (isoYear (YearFromTime now)). fold f.
    rewrite !map_app.
    rewrite (@map_plain f _ _ Hf (isoYear_chars _)).
    rewrite !(@map_plain f _ _ Hf (padded_chars _ _)).
    change (map f (js "-")) with (js "-"). change (map f (js "T")) with (js "T").
    change (map f (js ":")) with (js "-"). change (map f (js ".")) with (js "-").
    change (map f (js "Z")) with (js "Z").
    set (B := js "-" ++ padStart 3 (Z_toString (msFromTime now)) ++ js "Z").
    assert (HB : List.length B = 5).
    { unfold B. rewrite !length_app, padded_length;
        [reflexivity | apply msFromTime_range | lia]. }
    set (A := isoYear (YearFromTime now)
                ++ js "-" ++ padStart 2 (Z_toString (MonthFromTime now + 1))
                ++ js "-" ++ padStart 2 (Z_toString (DateFromTime now))
                ++ js "T" ++ padStart 2 (Z_toString (HourFromTime now))
                ++ js "-" ++ padStart 2 (Z_toString (MinFromTime now))
                ++ js "-" ++ padStart 2 (Z_toString (SecFromTime now))).
    match goal with
    | |- firstn (List.length ?X - 5) ?X = A =>
        replace X with (A ++ B)
          by (unfold A, B; now rewrite <- !app_assoc)
    end.
    exact (@firstn_all_but A B 5 HB). }
  assert (C : Forall (fun c => numeralChar c \/ c = 43%N \/ c = 84%N) (timestamp now)).
  { rewrite E.
    assert (W : forall s, Forall (fun c => numeralChar c \/ c = 43%N) s ->
                Forall (fun c => numeralChar c \/ c = 43%N \/ c = 84%N) s).
    { intros s Hs. eapply Forall_impl; [| exact Hs]. intros c [H | H]; auto. }
    repeat first
      [ apply W, isoYear_chars
      | apply W, padded_chars
      | apply Forall_app; split
      | constructor; [(left; right; reflexivity) || (right; right; reflexivity) |]
      | constructor ]. }
  split; [exact E |].
  split; [| split].
  - intros H. rewrite Forall_forall in C. apply C in H.
    destruct H as [[H | H] | [H | H]]; discriminate.
  - intros H. rewrite Forall_forall in C. apply C in H.
    destruct H as [[H | H] | [H | H]]; discriminate.
  - intros Hy. rewrite E. unfold isoYear.
    destruct (Z.leb_spec 0 (YearFromTime now)); [| lia].
    destruct (Z.leb_spec (YearFromTime now) 9999); [| lia].
    cbn [andb]. rewrite !length_app.
    assert (L4 : List.length (padStart 4 (Z_toString (YearFromTime now))) = 4)
      by (apply padded_length; simpl; lia).
    assert (Lm : List.length (padStart 2 (Z_toString (MonthFromTime now + 1))) = 2).
    { apply padded_length; [| lia]. unfold MonthFromTime.
      pose proof (monthOfDay_range (InLeapYear now) (DayWithinYear now)).
      simpl; lia. }
    assert (Ld : List.length (padStart 2 (Z_toString (DateFromTime now))) = 2).
    { apply padded_length; [| lia]. pose proof (DateFromTime_range now). simpl; lia. }
    assert (Lh : List.length (padStart 2 (Z_toString (HourFromTime now))) = 2).
    { apply padded_length; [| lia]. unfold HourFromTime.
      pose proof (Z.mod_pos_bound (now / msPerHour) 24). simpl; lia. }
    assert (Li : List.length (padStart 2 (Z_toString (MinFromTime now))) = 2).
    { apply padded_length; [| lia]. unfold MinFromTime.
      pose proof (Z.mod_pos_bound (now / msPerMinute) 60). simpl; lia. }
    assert (Ls : List.length (padStart 2 (Z_toString (SecFromTime now))) = 2).
    { apply padded_length; [| lia]. unfold SecFromTime.
      pose proof (Z.mod_pos_bound (now / msPerSecond) 60). simpl; lia. }
    rewrite L4, Lm, Ld, Lh, Li, Ls. reflexivity.
Qed.

(** ** The shape of a fingerprint *)

(** Properties of every code unit of a string, decided by computation. *)
Lemma Forall_true (p : N -> bool) s :
  forallb p s = true -> Forall (fun c => p c = true) s.
Proof.
  intros H. apply Forall_forall. now apply forallb_forall.
Qed.

Lemma Forall_below bound s :
  forallb (fun c => (c <? bound)%N) s = true -> Forall (fun c => (c < bound)%N) s.
Proof.
  intros H. apply Forall_forall. intros c Hc.
  apply N.ltb_lt. revert c Hc. now apply forallb_forall.
Qed.

Lemma utf8_length_le n : forall s,
  List.length s <= n -> List.length s <= List.length (utf8 s).
Proof.
  induction n as [| n IH]; intros s Hs.
  - destruct s; [apply Nat.le_0_l | simpl in Hs; lia].
  - destruct s as [| c s]; [apply Nat.le_0_l |].
    simpl in Hs. assert (Hs' : List.length s <= n) by lia.
    pose proof (IH s Hs') as H1.
    cbn [utf8].
    destruct (c <? 128)%N; [simpl; lia |].
    destruct (c <? 2048)%N; [simpl; lia |].
    destruct (isHighSurrogate c).
    + destruct s as [| d s']; [simpl; lia |].
      destruct (isLowSurrogate d).
      * simpl in Hs'. pose proof (IH s' ltac:(lia)). simpl; lia.
      * rewrite length_app. change (List.length replacement) with 3.
        cbn [List.length] in *. lia.
    + destruct (isLowSurrogate c); [rewrite length_app |]; simpl; lia.
Qed.

Lemma utf8_length s : List.length s <= List.length (utf8 s).
Proof. apply (@utf8_length_le (List.length s)). apply Nat.le_refl. Qed.

Lemma base64Digit_char i : isBase64Char (base64Digit i) = true.
Proof.
  unfold base64Digit, isBase64Char.
  destruct (N.ltb_spec i 26).
  { replace ((65 <=? 65 + i) && (65 + i <=? 90))%N with true; [reflexivity |].
    symmetry. apply andb_true_iff. split; apply N.leb_le; lia. }
  destruct (N.ltb_spec i 52).
  { replace ((97 <=? 97 + (i - 26)) && (97 + (i - 26) <=? 122))%N with true;
      [now rewrite orb_true_r |].
    symmetry. apply andb_true_iff. split; apply N.leb_le; lia. }
  destruct (N.ltb_spec i 62).
  { replace ((48 <=? 48 + (i - 52)) && (48 + (i - 52) <=? 57))%N with true;
      [now rewrite !orb_true_r |].
    symmetry. apply andb_true_iff. split; apply N.leb_le; lia. }
  destruct (i =? 62)%N; reflexivity.
Qed.

(** The text of whole groups of three bytes has no padding. *)
Lemma base64_full k : forall p,
  List.length p = 3 * k -> Forall (fun c => isBase64Char c = true) (base64 p).
Proof.
  induction k as [| k IH]; intros p Hp.
  - destruct p; [constructor | simpl in Hp; lia].
  - destruct p as [| a [| b [| c p]]]; try (simpl in Hp; lia).
    cbn [base64]. repeat (constructor; [apply base64Digit_char |]).
    apply IH. simpl in Hp. lia.
Qed.

Lemma base64_shape n : forall bytes,
  List.length bytes <= n ->
  List.length (base64 bytes) = 4 * ((List.length bytes + 2) / 3)
  /\ Forall (fun c => isBase64Char c = true \/ c = 61%N) (base64 bytes).
Proof.
  induction n as [| n IH]; intros bytes Hb.
  - destruct bytes; [split; [reflexivity | constructor] | simpl in Hb; lia].
  - destruct bytes as [| a [| b [| c rest]]].
    + split; [reflexivity | constructor].
    + split; [reflexivity |]. cbn [base64].
      repeat (constructor; [(left; apply base64Digit_char) || (right; reflexivity) |]).
      constructor.
    + split; [reflexivity |]. cbn [base64].
      repeat (constructor; [(left; apply base64Digit_char) || (right; reflexivity) |]).
      constructor.
    + destruct (IH rest) as [L F]; [simpl in Hb; lia |].
      cbn [base64 List.length]. split.
      * rewrite L.
        replace (S (S (S (List.length rest))) + 2) with (List.length rest + 2 + 1 * 3) by lia.
        rewrite Nat.div_add by lia. lia.
      * repeat (constructor; [left; apply base64Digit_char |]). exact F.
Qed.

Lemma firstn_Forall (A : Type) (P : A -> Prop) n (l : list A) :
  Forall P l -> Forall P (firstn n l).
Proof.
  intros H. revert n. induction H as [| x l Hx _ IH]; intros [| n]; simpl;
    constructor; auto.
Qed.

Lemma fingerprintData_length job :
  List.length (fingerprintData job)
  = List.length (Job.title job) + List.length (Job.location job)
    + List.length (Job.service job) + 2.
Proof. unfold fingerprintData. rewrite !length_app. simpl. lia. Qed.

(** The cut to 32 code units keeps the text of the first 24 bytes. *)
Lemma firstn_base64 bytes :
  firstn 32 (base64 bytes) = base64 (firstn 24 bytes).
Proof.
  destruct (Nat.le_gt_cases 24 (List.length bytes)) as [H | H].
  - rewrite <- (firstn_skipn 24 bytes) at 1.
    destruct (@base64_app 8 (firstn 24 bytes) (skipn 24 bytes)) as [E L].
    { rewrite length_firstn. lia. }
    rewrite E, firstn_app, L. change (32 - 4 * 8) with 0.
    rewrite firstn_O, app_nil_r. apply firstn_all2. lia.
  - rewrite (firstn_all2 (n := 24)) by lia.
    apply firstn_all2.
    destruct (@base64_shape (List.length bytes) bytes (Nat.le_refl _)) as [L _].
    rewrite L.
    assert ((List.length bytes + 2) / 3 < 9)
      by (apply Nat.Div0.div_lt_upper_bound; lia).
    lia.
Qed.

(** X12. The shape of a fingerprint.  It is the base64 text of the first
    24 bytes of "title-location-service" in UTF-8: between 4 and 32 code
    units, all of the base64 alphabet or the padding character; and as
    soon as title, location and service together have 22 code units or
    more, exactly 32 code units of the alphabet, without padding. *)
Theorem generateFingerprint_shape (job : Job.t) :
  let f := generateFingerprint job in
  f = base64 (firstn 24 (utf8 (fingerprintData job)))
  /\ 4 <= List.length f <= 32
  /\ Forall (fun c => isBase64Char c = true \/ c = 61%N) f
  /\ (22 <= List.length (Job.title job) + List.length (Job.location job)
            + List.length (Job.service job) ->
      List.length f = 32 /\ Forall (fun c => isBase64Char c = true) f).
Proof.
  cbv zeta. unfold generateFingerprint. fold (fingerprintData job).
  set (bytes := utf8 (fingerprintData job)).
  assert (Hlen : List.length (fingerprintData job) <= List.length bytes)
    by apply utf8_length.
  rewrite fingerprintData_length in Hlen.
  destruct (@base64_shape (List.length bytes) bytes (Nat.le_refl _)) as [L F].
  split; [apply firstn_base64 |].
  rewrite length_firstn, L.
  split; [| split].
  - assert (1 <= (List.length bytes + 2) / 3)
      by (apply Nat.div_le_lower_bound; lia).
    lia.
  - now apply firstn_Forall.
  - intros H22.
    assert (H24 : 24 <= List.length bytes) by lia.
    assert (8 <= (List.length bytes + 2) / 3)
      by (apply Nat.div_le_lower_bound; lia).
    split; [lia |].
    rewrite firstn_base64.
    apply (@base64_full 8). rewrite length_firstn. lia.
Qed.

(** ** Short records have fingerprints of their own *)

Lemma base64Digit_inj i j :
  (i < 64)%N -> (j < 64)%N -> base64Digit i = base64Digit j -> i = j.
Proof.
  unfold base64Digit. intros Hi Hj.
  destruct (N.ltb_spec i 26); destruct (N.ltb_spec j 26);
    destruct (N.ltb_spec i 52); destruct (N.ltb_spec j 52);
    destruct (N.ltb_spec i 62); destruct (N.ltb_spec j 62);
    destruct (N.eqb_spec i 62); destruct (N.eqb_spec j 62); lia.
Qed.

Lemma base64Digit_not_pad i : base64Digit i <> 61%N.
Proof.
  intros H. pose proof (base64Digit_char i) as C. rewrite H in C. discriminate.
Qed.

Lemma sextets_of_byte a b :
  (a < 256 -> b < 256 ->
   a / 4 < 64 /\ (a mod 4) * 16 + b / 16 < 64 /\ (a mod 4) * 16 < 64
   /\ (a mod 16) * 4 + b / 64 < 64 /\ (a mod 16) * 4 < 64 /\ a mod 64 < 64)%N.
Proof.
  intros Ha Hb. byte_parts a. byte_parts b. forget_parts a. forget_parts b.
  intros. lia.
Qed.

Lemma bytes_of_sextets a b c a' b' c' :
  (a < 256 -> b < 256 -> c < 256 -> a' < 256 -> b' < 256 -> c' < 256 ->
   a / 4 = a' / 4 ->
   (a mod 4) * 16 + b / 16 = (a' mod 4) * 16 + b' / 16 ->
   (b mod 16) * 4 + c / 64 = (b' mod 16) * 4 + c' / 64 ->
   c mod 64 = c' mod 64 ->
   a = a' /\ b = b' /\ c = c')%N.
Proof.
  intros Ha Hb Hc Ha' Hb' Hc'.
  byte_parts a. byte_parts b. byte_parts c.
  byte_parts a'. byte_parts b'. byte_parts c'.
  forget_parts a. forget_parts b. forget_parts c.
  forget_parts a'. forget_parts b'. forget_parts c'.
  intros. lia.
Qed.

Lemma base64_inj n : forall l1 l2,
  List.length l1 <= n ->
  Forall (fun b => (b < 256)%N) l1 -> Forall (fun b => (b < 256)%N) l2 ->
  base64 l1 = base64 l2 -> l1 = l2.
Proof.
  induction n as [| n IH]; intros l1 l2 Hn F1 F2 E.
  - destruct l1; [| simpl in Hn; lia].
    destruct l2 as [| a [| b [| c r]]]; [reflexivity | discriminate ..].
  - destruct l1 as [| a [| b [| c r]]]; destruct l2 as [| a' [| b' [| c' r']]];
      cbn [base64] in E; try reflexivity; try discriminate;
      repeat match goal with
             | H : Forall _ (_ :: _) |- _ => inversion H; clear H; subst
             end;
      injection E; clear E; intros;
      try (exfalso;
           match goal with
           | H : base64Digit _ = 61%N |- _ => now apply base64Digit_not_pad in H
           | H : 61%N = base64Digit _ |- _ =>
               symmetry in H; now apply base64Digit_not_pad in H
           end).
    + assert (Z0 : (0 < 256)%N) by reflexivity.
      destruct (@sextets_of_byte a 0) as (S1 & _ & S2 & _); [assumption .. |].
      destruct (@sextets_of_byte a' 0) as (S1' & _ & S2' & _); [assumption .. |].
      repeat match goal with
             | H : base64Digit _ = base64Digit _ |- _ =>
                 apply base64Digit_inj in H; [| assumption ..]
             end.
      destruct (@bytes_of_sextets a 0 0 a' 0 0)%N as (-> & _ & _);
        try assumption; try reflexivity.
      change (0 / 16)%N with 0%N. rewrite !N.add_0_r. assumption.
    + assert (Z0 : (0 < 256)%N) by reflexivity.
      destruct (@sextets_of_byte a b) as (S1 & S2 & _); [assumption .. |].
      destruct (@sextets_of_byte a' b') as (S1' & S2' & _); [assumption .. |].
      destruct (@sextets_of_byte b 0) as (_ & _ & _ & _ & S3 & _); [assumption .. |].
      destruct (@sextets_of_byte b' 0) as (_ & _ & _ & _ & S3' & _); [assumption .. |].
      repeat match goal with
             | H : base64Digit _ = base64Digit _ |- _ =>
                 apply base64Digit_inj in H; [| assumption ..]
             end.
      destruct (@bytes_of_sextets a b 0 a' b' 0)%N as (-> & -> & _);
        try assumption; try reflexivity.
      change (0 / 64)%N with 0%N. rewrite !N.add_0_r. assumption.
    + destruct (@sextets_of_byte a b) as (S1 & S2 & _); [assumption .. |].
      destruct (@sextets_of_byte a' b') as (S1' & S2' & _); [assumption .. |].
      destruct (@sextets_of_byte b c) as (_ & _ & _ & S3 & _); [assumption .. |].
      destruct (@sextets_of_byte b' c') as (_ & _ & _ & S3' & _); [assumption .. |].
      destruct (@sextets_of_byte c 0) as (_ & _ & _ & _ & _ & S4); [assumption | reflexivity |].
      destruct (@sextets_of_byte c' 0) as (_ & _ & _ & _ & _ & S4'); [assumption | reflexivity |].
      repeat match goal with
             | H : base64Digit _ = base64Digit _ |- _ =>
                 apply base64Digit_inj in H; [| assumption ..]
             end.
      destruct (@bytes_of_sextets a b c a' b' c')%N as (-> & -> & ->);
        try assumption.
      f_equal. f_equal. f_equal. apply IH; [simpl in Hn; lia | assumption ..].
Qed.

Lemma utf8_bytes n : forall s,
  List.length s <= n ->
  Forall (fun c => (c < 65536)%N) s -> Forall (fun b => (b < 256)%N) (utf8 s).
Proof.
  induction n as [| n IH]; intros s Hn Hs.
  - destruct s; [constructor | simpl in Hn; lia].
  - destruct s as [| c s]; [constructor |].
    inversion Hs as [| ? ? Hc Hs']; subst. simpl in Hn.
    assert (IHs : Forall (fun b => (b < 256)%N) (utf8 s)) by (apply IH; [lia | exact Hs']).
    cbn [utf8].
    destruct (N.ltb_spec c 128); [constructor; [lia | exact IHs] |].
    destruct (N.ltb_spec c 2048).
    { byte_parts c. forget_parts c. intros. repeat (constructor; [lia |]). exact IHs. }
    assert (R : Forall (fun b => (b < 256)%N) replacement)
      by (repeat constructor).
    destruct (isHighSurrogate c) eqn:Hh.
    + destruct s as [| d s']; [exact R |].
      destruct (isLowSurrogate d) eqn:Hl; [| apply Forall_app; split; assumption].
      inversion Hs' as [| ? ? Hd Hs'']; subst. simpl in Hn.
      unfold isHighSurrogate, isLowSurrogate in Hh, Hl. bool_prop.
      set (cp := (65536 + (c - 55296) * 1024 + (d - 56320))%N).
      assert (Hcp : (cp < 1114112)%N) by (unfold cp; lia).
      pose proof (N.Div0.div_lt_upper_bound cp 262144 5 ltac:(lia)).
      pose proof (N.mod_lt (cp / 4096) 64 ltac:(lia)).
      pose proof (N.mod_lt (cp / 64) 64 ltac:(lia)).
      pose proof (N.mod_lt cp 64 ltac:(lia)).
      repeat (constructor; [lia |]). apply IH; [lia | exact Hs''].
    + destruct (isLowSurrogate c); [apply Forall_app; split; assumption |].
      pose proof (N.Div0.div_lt_upper_bound c 4096 16 ltac:(lia)).
      pose proof (N.mod_lt (c / 64) 64 ltac:(lia)).
      pose proof (N.mod_lt c 64 ltac:(lia)).
      repeat (constructor; [lia |]). exact IHs.
Qed.

Lemma utf8_ascii s : Forall (fun c => (c < 128)%N) s -> utf8 s = s.
Proof.
  intros H. rewrite <- (app_nil_r s) at 1.
  rewrite (utf8_ascii_app [] H). apply app_nil_r.
Qed.

Lemma fingerprint_first24 job :
  generateFingerprint job = base64 (firstn 24 (utf8 (fingerprintData job))).
Proof. unfold generateFingerprint. fold (fingerprintData job). apply firstn_base64. Qed.

(** X13. When two fingerprints are equal.  For records whose strings are
    made of 16-bit code units, two fingerprints are equal exactly when
    the UTF-8 bytes of the two strings "title-location-service" agree on
    their first 24 bytes; for ASCII strings, exactly when the two strings
    agree on their first 24 characters.  So an ASCII record whose string
    has fewer than 24 characters shares its fingerprint with no record
    that has another string. *)
Theorem generateFingerprint_collisions (job1 job2 : Job.t) :
  Forall (fun c => (c < 65536)%N) (fingerprintData job1) ->
  Forall (fun c => (c < 65536)%N) (fingerprintData job2) ->
  (generateFingerprint job1 = generateFingerprint job2
   <-> firstn 24 (utf8 (fingerprintData job1))
       = firstn 24 (utf8 (fingerprintData job2)))
  /\ (Forall (fun c => (c < 128)%N) (fingerprintData job1) ->
      Forall (fun c => (c < 128)%N) (fingerprintData job2) ->
      (generateFingerprint job1 = generateFingerprint job2
       <-> firstn 24 (fingerprintData job1) = firstn 24 (fingerprintData job2))
      /\ (List.length (fingerprintData job1) < 24 ->
          generateFingerprint job1 = generateFingerprint job2 ->
          fingerprintData job1 = fingerprintData job2)).
Proof.
  intros H1 H2.
  assert (B : forall job, Forall (fun c => (c < 65536)%N) (fingerprintData job) ->
              Forall (fun b => (b < 256)%N) (firstn 24 (utf8 (fingerprintData job)))).
  { intros job H. apply firstn_Forall.
    apply (@utf8_bytes (List.length (fingerprintData job))); [apply Nat.le_refl | exact H]. }
  assert (M : generateFingerprint job1 = generateFingerprint job2
              <-> firstn 24 (utf8 (fingerprintData job1))
                  = firstn 24 (utf8 (fingerprintData job2))).
  { rewrite !fingerprint_first24. split; [| now intros ->].
    apply (@base64_inj (List.length (firstn 24 (utf8 (fingerprintData job1)))));
      [apply Nat.le_refl | now apply B | now apply B]. }
  split; [exact M |].
  intros A1 A2. rewrite (utf8_ascii A1), (utf8_ascii A2) in M.
  split; [exact M |].
  intros Hshort E. apply M in E.
  rewrite (@firstn_all2 _ 24 (fingerprintData job1)) in E by lia.
  assert (L : List.length (fingerprintData job2) < 24).
  { destruct (Nat.le_gt_cases 24 (List.length (fingerprintData job2))) as [G | G];
      [| exact G].
    apply (f_equal (@List.length N)) in E. rewrite length_firstn in E. lia. }
  now rewrite firstn_all2 in E by lia.
Qed.

(** ** The store: one retry *)

Lemma dedupe_length rows : List.length (dedupe rows) <= List.length rows.
Proof.
  rewrite dedupe_keepFirst. unfold dedupBatch. generalize (@nil (list N)).
  induction rows as [| r rows IH]; intros seen; simpl; [lia |].
  destruct (existsb _ seen); [specialize (IH seen) | specialize (IH (Row.fingerprint r :: seen))];
    simpl; lia.
Qed.

Lemma status_400 response :
  Store.status response = 400%Z ->
  Store.ok response = false
  /\ forall errorText, Store.isDuplicate response errorText = false.
Proof.
  intros H. unfold Store.ok, Store.isDuplicate. rewrite H. split; reflexivity.
Qed.

(** X14. The requests of [insertJobsToSupabase].  An empty batch makes
    no request.  Otherwise the first request carries the deduplicated
    rows; a second request is made exactly when the store answers the
    first with status 400 and a text that names [found_time] or says
    that a column does not exist, and it carries the same rows, in the
    same order, without their [found_time].  There is never a third
    request: answers after the second are not looked at.  The count
    logged after the first request is the number of rows sent; the count
    logged after the retry is the size of the batch before
    deduplication, which is not smaller. *)
Theorem insertJobsToSupabase_retries_once (tz : TimeZone) (service : Service.t)
  (jobs : list Job.t) (fetch : nat -> option Store.Response) :
  let call := Store.insertJobsToSupabase tz service jobs fetch in
  let rows := dedupe (supabaseJobs tz service jobs) in
  (jobs = [] -> call = ([], Store.NoJobs))
  /\ (jobs <> [] ->
      fst call = [Store.Rows rows]
      \/ fst call = [Store.Rows rows;
                     Store.FallbackRows (map Store.withoutFoundTime rows)])
  /\ (List.length (fst call) = 2
      <-> jobs <> []
          /\ exists response errorText,
               fetch 0 = Some response
               /\ Store.status response = 400%Z
               /\ Store.text response = Some errorText
               /\ Store.missingColumn errorText = true)
  /\ (forall fetch',
        fetch' 0 = fetch 0 -> fetch' 1 = fetch 1 ->
        Store.insertJobsToSupabase tz service jobs fetch' = call)
  /\ map Store.fingerprint (map Store.withoutFoundTime rows)
     = map Row.fingerprint rows
  /\ (forall count, snd call = Store.Inserted count -> count = List.length rows)
  /\ (forall count,
        snd call = Store.InsertedWithoutFoundTime count ->
        count = List.length jobs /\ List.length rows <= count).
Proof.
  cbv zeta.
  assert (Hlen : List.length (dedupe (supabaseJobs tz service jobs))
                 <= List.length jobs).
  { eapply Nat.le_trans; [apply dedupe_length |].
    unfold supabaseJobs. now rewrite length_map. }
  assert (Hfp : map Store.fingerprint
                  (map Store.withoutFoundTime (dedupe (supabaseJobs tz service jobs)))
                = map Row.fingerprint (dedupe (supabaseJobs tz service jobs))).
  { rewrite map_map. reflexivity. }
  split.
  { intros ->. reflexivity. }
  split.
  { intros Hne. unfold Store.insertJobsToSupabase.
    destruct jobs as [| j js]; [congruence |].
    destruct (fetch 0) as [r |]; [| now left].
    destruct (Store.ok r); [now left |].
    destruct (Store.text r) as [t |]; [| now left].
    destruct (Store.isDuplicate r t); [now left |].
    destruct (_ && _); [| now left].
    right. destruct (fetch 1) as [r2 |]; [| reflexivity].
    destruct (Store.ok r2); [reflexivity |].
    destruct (Store.text r2) as [t2 |]; [| reflexivity].
    destruct (Store.isDuplicate r2 t2); reflexivity. }
  split.
  { unfold Store.insertJobsToSupabase.
    destruct jobs as [| j js].
    { split; [discriminate | intros [H _]; congruence]. }
    destruct (fetch 0) as [r |] eqn:F0.
    2: { split; [discriminate | intros (_ & r & t & H & _); discriminate]. }
    destruct (Store.ok r) eqn:Ok.
    { split; [discriminate |]. intros (_ & r' & t & H & H400 & _).
      injection H as <-. apply status_400 in H400. destruct H400. congruence. }
    destruct (Store.text r) as [t |] eqn:T.
    2: { split; [discriminate |]. intros (_ & r' & t & H & _ & H' & _).
         injection H as <-. congruence. }
    destruct (Store.isDuplicate r t) eqn:D.
    { split; [discriminate |]. intros (_ & r' & t' & H & H400 & H' & _).
      injection H as <-. apply status_400 in H400. destruct H400 as [_ H400].
      rewrite H400 in D. discriminate. }
    destruct ((Store.status r =? 400)%Z && Store.missingColumn t) eqn:M.
    - apply andb_true_iff in M. destruct M as [M1 M2]. apply Z.eqb_eq in M1.
      split.
      + intros _. split; [discriminate |]. exists r, t. auto.
      + intros _. destruct (fetch 1) as [r2 |]; [| reflexivity].
        destruct (Store.ok r2); [reflexivity |].
        destruct (Store.text r2) as [t2 |]; [| reflexivity].
        destruct (Store.isDuplicate r2 t2); reflexivity.
    - split; [discriminate |]. intros (_ & r' & t' & H & H400 & H' & Hm).
      injection H as <-. rewrite T in H'. injection H' as <-.
      rewrite H400, Hm in M. discriminate. }
  split.
  { intros fetch' E0 E1. unfold Store.insertJobsToSupabase.
    now rewrite E0, E1. }
  split; [exact Hfp |].
  split.
  { intros count. unfold Store.insertJobsToSupabase.
    destruct jobs as [| j js]; [discriminate |].
    destruct (fetch 0) as [r |]; [| discriminate].
    destruct (Store.ok r); [cbn [snd]; congruence |].
    destruct (Store.text r) as [t |]; [| discriminate].
    destruct (Store.isDuplicate r t); [discriminate |].
    destruct (_ && _); [| discriminate].
    destruct (fetch 1) as [r2 |]; [| discriminate].
    destruct (Store.ok r2); [discriminate |].
    destruct (Store.text r2) as [t2 |]; [| discriminate].
    destruct (Store.isDuplicate r2 t2); discriminate. }
  { intros count. unfold Store.insertJobsToSupabase.
    destruct jobs as [| j js]; [discriminate |].
    destruct (fetch 0) as [r |]; [| discriminate].
    destruct (Store.ok r); [discriminate |].
    destruct (Store.text r) as [t |]; [| discriminate].
    destruct (Store.isDuplicate r t); [discriminate |].
    destruct (_ && _); [| discriminate].
    destruct (fetch 1) as [r2 |]; [| discriminate].
    destruct (Store.ok r2).
    - cbn [snd]. intros H. injection H as <-. split; [reflexivity | exact Hlen].
    - destruct (Store.text r2) as [t2 |]; [| discriminate].
      destruct (Store.isDuplicate r2 t2); discriminate. }
Qed.

(** ** The run over the services *)

Section RunProperties.

Context {dom : DOM}.
Variable tz : TimeZone.

Lemma parseJobsFromHTML_throws this html service now :
  fst (parseJobsFromHTML tz this html service now) = Throw <-> JSDOM html = None.
Proof.
  unfold parseJobsFromHTML.
  destruct (JSDOM html); [| split; reflexivity].
  destruct (_ =? 0); [split; discriminate |].
  destruct (processElements _ _ _ _ _). split; discriminate.
Qed.

Lemma parsedPage_window this1 this2 service visit :
  maxHoursWindow this1 = maxHoursWindow this2 ->
  parsedPage tz this1 service visit = parsedPage tz this2 service visit.
Proof.
  intros W. unfold parsedPage.
  destruct (Visit.html visit) as [[| c h] |]; try reflexivity.
  now rewrite (proj1 (parseJobsFromHTML_window tz this1 this2 (c :: h) service
                        (Visit.now visit) W)).
Qed.

Lemma sparkAlert_inside service jobs :
  forallb insideIteration (sparkAlert service jobs) = true.
Proof.
  unfold sparkAlert. destruct (jseqb _ _); [| reflexivity].
  destruct (find _ jobs); reflexivity.
Qed.

(** One iteration during which nothing throws. *)
Lemma serviceLoop_quiet_step world i service rest st this0 :
  maxHoursWindow (scraper st) = maxHoursWindow this0 ->
  quiet tz this0 service (world i) ->
  exists st1 trace,
    serviceLoop tz world i (service :: rest) st = serviceLoop tz world (S i) rest st1
    /\ maxHoursWindow (scraper st1) = maxHoursWindow this0
    /\ allJobs st1 = allJobs st ++ jobs (parsedPage tz this0 service (world i))
    /\ perServiceSummary st1
       = perServiceSummary st ++ [summaryOf tz this0 service (world i)]
    /\ effects st1 = effects st ++ FetchPage service :: trace
    /\ forallb insideIteration trace = true.
Proof.
  intros W Q.
  rewrite <- (parsedPage_window (scraper st) this0 service (world i) W).
  unfold summaryOf.
  rewrite <- (parsedPage_window (scraper st) this0 service (world i) W).
  unfold quiet in Q.
  rewrite <- (parsedPage_window (scraper st) this0 service (world i) W) in Q.
  unfold parsedPage in *. cbn [serviceLoop].
  destruct (Visit.html (world i)) as [[| c h] |].
  - eexists; exists []. split; [reflexivity |]. cbn [scraper allJobs perServiceSummary effects jobs totalFound noJobs List.length].
    rewrite app_nil_r. auto.
  - destruct Q as [Q1 Q2].
    pose proof (parseJobsFromHTML_throws (scraper st) (c :: h) service
                  (Visit.now (world i))) as T.
    pose proof (proj2 (parseJobsFromHTML_window tz (scraper st) (scraper st) (c :: h)
                         service (Visit.now (world i)) eq_refl)) as W1.
    destruct (parseJobsFromHTML tz (scraper st) (c :: h) service (Visit.now (world i)))
      as [[result |] this1]; cbn [fst snd resultOf] in *.
    2: { exfalso. apply Q1. now apply T. }
    destruct (jobs result) as [| j js] eqn:J.
    + eexists; exists (match rest with [] => [] | _ :: _ => [Delay betweenRequests] end).
      split; [reflexivity |].
      cbn [scraper allJobs perServiceSummary effects List.length].
      rewrite app_nil_r.
      split; [congruence |]. split; [reflexivity |]. split; [reflexivity |].
      split; [now rewrite <- app_assoc | now destruct rest].
    + rewrite Q2 by discriminate.
      eexists;
        exists (InsertJobs service (j :: js)
                  :: sparkAlert service (j :: js) ++ [SaveResults service (j :: js)]
                  ++ match rest with [] => [] | _ :: _ => [Delay betweenRequests] end).
      split; [reflexivity |].
      cbn [scraper allJobs perServiceSummary effects].
      split; [congruence |]. split; [reflexivity |]. split; [reflexivity |].
      split.
      * rewrite <- !app_assoc. reflexivity.
      * cbn [forallb insideIteration andb]. rewrite !forallb_app, sparkAlert_inside.
        now destruct rest.
  - eexists; exists []. split; [reflexivity |]. cbn [scraper allJobs perServiceSummary effects jobs totalFound noJobs List.length].
    rewrite app_nil_r. auto.
Qed.

Lemma fetches_inside trace :
  forallb insideIteration trace = true -> fetches trace = 0.
Proof.
  unfold fetches. induction trace as [| e trace IH]; [reflexivity |].
  cbn [forallb filter]. intros H. apply andb_true_iff in H. destruct H as [H1 H2].
  destruct e; try discriminate; cbn [isFetchPage]; auto.
Qed.

Lemma fetches_app a b : fetches (a ++ b) = fetches a + fetches b.
Proof. unfold fetches. now rewrite filter_app, length_app. Qed.

Lemma ofLoop_inside trace :
  forallb insideIteration trace = true -> forallb ofLoop trace = true.
Proof.
  rewrite !forallb_forall. intros H e He. unfold ofLoop.
  rewrite (H e He). apply orb_true_r.
Qed.

(** A loop during which nothing throws reaches its end. *)
Lemma serviceLoop_quiet world this0 services : forall i st,
  maxHoursWindow (scraper st) = maxHoursWindow this0 ->
  allQuiet tz this0 world i services ->
  exists st1 trace,
    serviceLoop tz world i services st = Completed st1
    /\ allJobs st1
       = allJobs st ++ List.concat (map jobs (pagesOf tz this0 world i services))
    /\ perServiceSummary st1
       = perServiceSummary st ++ summariesOf tz this0 world i services
    /\ effects st1 = effects st ++ trace
    /\ fetches trace = List.length services
    /\ forallb ofLoop trace = true.
Proof.
  induction services as [| service rest IH]; intros i st W Q.
  - exists st, []. cbn. rewrite !app_nil_r. repeat split; reflexivity.
  - unfold allQuiet in Q. cbn [numbered] in Q.
    inversion Q as [| ? ? Q1 Q2]; subst. cbn [fst snd] in Q1.
    destruct (@serviceLoop_quiet_step world i service rest st this0 W Q1)
      as (st1 & trace1 & E & W1 & A1 & S1 & F1 & I1).
    destruct (IH (S i) st1 W1 Q2) as (st2 & trace2 & E2 & A2 & S2 & F2 & N2 & L2).
    exists st2, (FetchPage service :: trace1 ++ trace2).
    split; [now rewrite E |].
    unfold pagesOf, summariesOf in *. cbn [numbered map List.concat fst snd].
    split; [rewrite A2, A1; now rewrite <- app_assoc |].
    split; [rewrite S2, S1; now rewrite <- app_assoc |].
    split; [rewrite F2, F1; now rewrite <- app_assoc |].
    split.
    + change (FetchPage service :: trace1 ++ trace2)
        with ([FetchPage service] ++ trace1 ++ trace2).
      rewrite !fetches_app, (fetches_inside _ I1), N2. reflexivity.
    + cbn [forallb]. rewrite forallb_app, (ofLoop_inside _ I1), L2. reflexivity.
Qed.

Lemma parsedPage_sizes this service visit :
  List.length (jobs (parsedPage tz this service visit))
  <= totalFound (parsedPage tz this service visit).
Proof.
  unfold parsedPage.
  destruct (Visit.html visit) as [[| c h] |]; try apply Nat.le_refl.
  destruct (parseJobsFromHTML tz this (c :: h) service (Visit.now visit))
    as [[result |] this1] eqn:P; [| apply Nat.le_refl].
  cbn [fst resultOf].
  destruct (parseJobsFromHTML_accepted _ _ _ _ _ P) as (processed & -> & L & _).
  eapply Nat.le_trans; [apply accepted_length | exact L].
Qed.

Lemma summariesOf_facts this world services : forall i,
  map Summary.name (summariesOf tz this world i services)
  = map Service.display_name services
  /\ Forall (fun entry => Summary.qualified entry <= Summary.total entry)
       (summariesOf tz this world i services)
  /\ list_sum (map Summary.qualified (summariesOf tz this world i services))
     = List.length (List.concat (map jobs (pagesOf tz this world i services))).
Proof.
  unfold summariesOf, pagesOf.
  induction services as [| service rest IH]; intros i.
  - split; [reflexivity |]. split; [constructor | reflexivity].
  - destruct (IH (S i)) as (N & Q & S). cbn [numbered map fst snd List.concat list_sum].
    split; [now rewrite N |]. split.
    + constructor; [apply parsedPage_sizes | exact Q].
    + rewrite length_app, <- S. reflexivity.
Qed.

(** X15. A run in which nothing throws reports every service.  When
    every page that is fetched can be parsed and every file can be
    written, [run] ends with the combined save and, last, the summary;
    before them it fetches one page per service.  The summary has one
    entry per service, in the order of the services and under their
    display names, with the counts the page of the service gives when it
    is parsed on its own (0 and 0 when no page came back); in every entry
    the qualified count is at most the total, and the qualified counts
    add up to the number of records saved together. *)
Theorem run_reports_every_service (this : Scraper) (services : list Service.t)
  (world : nat -> Visit.t) (combinedSaved : bool) :
  allQuiet tz this world 0 services ->
  (List.concat (map jobs (pagesOf tz this world 0 services)) <> [] ->
   combinedSaved = true) ->
  let summary := summariesOf tz this world 0 services in
  let all := List.concat (map jobs (pagesOf tz this world 0 services)) in
  exists trace,
    run tz this services world combinedSaved
    = trace ++ [SaveCombinedResults all; RunSummary summary]
    /\ fetches trace = List.length services
    /\ forallb ofLoop trace = true
    /\ map Summary.name summary = map Service.display_name services
    /\ Forall (fun entry => Summary.qualified entry <= Summary.total entry) summary
    /\ list_sum (map Summary.qualified summary) = List.length all.
Proof.
  intros Q C. cbv zeta. unfold run.
  destruct (@serviceLoop_quiet world this services 0
              {| scraper := this; allJobs := []; perServiceSummary := [];
                 effects := [] |} eq_refl Q)
    as (st1 & trace & E & A & S & F & N & L).
  cbn [allJobs perServiceSummary effects app] in A, S, F.
  rewrite E, A, S, F.
  destruct (summariesOf_facts this world services 0) as (H1 & H2 & H3).
  exists trace.
  split; [| auto].
  destruct (List.concat (map jobs (pagesOf tz this world 0 services))) as [| j js].
  - now rewrite <- app_assoc.
  - rewrite C by discriminate. now rewrite <- app_assoc.
Qed.

(** A loop that meets a service whose records cannot be written. *)
Lemma serviceLoop_abort world this0 service after before : forall i st,
  maxHoursWindow (scraper st) = maxHoursWindow this0 ->
  allQuiet tz this0 world i before ->
  let visit := world (i + List.length before) in
  let found := jobs (parsedPage tz this0 service visit) in
  found <> [] -> Visit.saved visit = false ->
  exists st1 trace,
    serviceLoop tz world i (before ++ service :: after) st = Aborted st1
    /\ effects st1
       = effects st ++ trace
         ++ [FetchPage service; InsertJobs service found]
         ++ sparkAlert service found ++ [SaveResults service found]
    /\ fetches trace = List.length before
    /\ forallb ofLoop trace = true.
Proof.
  induction before as [| b bs IH]; intros i st W Q visit found F Sv.
  - subst found. subst visit.
    cbn [List.length] in *. rewrite Nat.add_0_r in *.
    rewrite <- (parsedPage_window (scraper st) this0 service (world i) W) in *.
    unfold parsedPage in *. cbn [app serviceLoop].
    destruct (Visit.html (world i)) as [[| c h] |];
      [now destruct F | | now destruct F].
    destruct (parseJobsFromHTML tz (scraper st) (c :: h) service (Visit.now (world i)))
      as [[result |] this1]; cbn [fst resultOf] in *; [| now destruct F].
    destruct (jobs result) as [| j js] eqn:J; [now destruct F |].
    rewrite Sv.
    eexists; exists []. split; [reflexivity |]. cbn [effects app].
    split; [now rewrite <- !app_assoc |]. split; reflexivity.
  - unfold allQuiet in Q. cbn [numbered] in Q.
    inversion Q as [| ? ? Q1 Q2]; subst. cbn [fst snd] in Q1.
    destruct (@serviceLoop_quiet_step world i b (bs ++ service :: after) st this0 W Q1)
      as (st1 & trace1 & E & W1 & _ & _ & F1 & I1).
    subst found. subst visit.
    cbn [List.length] in *. rewrite Nat.add_succ_r in *.
    destruct (IH (S i) st1 W1 Q2 F Sv) as (st2 & trace2 & E2 & F2 & N2 & L2).
    exists st2, (FetchPage b :: trace1 ++ trace2).
    cbn [app]. split; [now rewrite E |].
    split; [rewrite F2, F1; cbn [app]; now rewrite <- !app_assoc |].
    split.
    + change (FetchPage b :: trace1 ++ trace2)
        with ([FetchPage b] ++ trace1 ++ trace2).
      rewrite !fetches_app, (fetches_inside _ I1), N2. reflexivity.
    + cbn [forallb]. rewrite forallb_app, (ofLoop_inside _ I1), L2. reflexivity.
Qed.

(** X16. Records that cannot be written end the run.  When the pages of
    the services before [service] are handled without an exception, the
    page of [service] yields records and [saveResults] throws on them
    (the file cannot be written: for instance the name of the service
    has a slash in it, so that the path lies in a directory that does
    not exist), the last call of [run] is that [saveResults]: the
    services after it are not fetched, nothing is saved together and no
    summary is sent, whatever the world would have answered; the records
    were sent to the store before. *)
Theorem run_stops_at_failed_save (this : Scraper)
  (before : list Service.t) (service : Service.t) (after : list Service.t)
  (world : nat -> Visit.t) (combinedSaved : bool) :
  allQuiet tz this world 0 before ->
  jobs (parsedPage tz this service (world (List.length before))) <> [] ->
  Visit.saved (world (List.length before)) = false ->
  exists trace,
    let found := jobs (parsedPage tz this service (world (List.length before))) in
    run tz this (before ++ service :: after) world combinedSaved
    = trace ++ [FetchPage service; InsertJobs service found]
        ++ sparkAlert service found ++ [SaveResults service found]
    /\ fetches trace = List.length before
    /\ forallb ofLoop trace = true.
Proof.
  intros Q F S. unfold run.
  destruct (@serviceLoop_abort world this service after before 0
              {| scraper := this; allJobs := []; perServiceSummary := [];
                 effects := [] |} eq_refl Q F S)
    as (st1 & trace & E & T & N & L).
  rewrite E. exists trace. cbn [effects app] in T. cbv zeta. auto.
Qed.

(** *** The Spark alert *)

Lemma find_first (A : Type) (f : A -> bool) l x :
  find f l = Some x ->
  exists before after,
    l = before ++ x :: after /\ f x = true
    /\ Forall (fun y => f y = false) before.
Proof.
  induction l as [| y l IH]; [discriminate |].
  cbn [find]. destruct (f y) eqn:E.
  - intros H. injection H as <-. exists [], l. auto.
  - intros H. destruct (IH H) as (b & a & -> & Hx & Hb).
    exists (y :: b), a. auto.
Qed.

(** X17. The Spark alert of a service: at most one, and none for a
    service that is not "spark_delivery"; it is about the first record,
    in the order of the records, whose time token is within 2 hours.
    When the window of the scraper is 2 hours or less, every record
    [parseJobsFromHTML] returns is within 2 hours, so the alert is about
    the first record of the page. *)
Theorem sparkAlert_first_within_two_hours (service : Service.t) :
  (forall jobs, List.length (sparkAlert service jobs) <= 1)
  /\ (Service.name service <> js "spark_delivery" ->
      forall jobs, sparkAlert service jobs = [])
  /\ (forall jobs e,
        In e (sparkAlert service jobs) ->
        exists before j after,
          jobs = before ++ j :: after
          /\ e = SparkAlert (Job.city j) (Job.state j) (Job.found_time j)
          /\ isTimeWithinHours (Job.found_time j) (ofZ 2) = true
          /\ Forall (fun j' =>
                       isTimeWithinHours (Job.found_time j') (ofZ 2) = false)
               before)
  /\ (forall this html now result this1 j rest,
        parseJobsFromHTML tz this html service now = (Normal result, this1) ->
        Service.name service = js "spark_delivery" ->
        leb (maxHoursWindow this) (ofZ 2) = true ->
        jobs result = j :: rest ->
        sparkAlert service (jobs result)
        = [SparkAlert (Job.city j) (Job.state j) (Job.found_time j)]).
Proof.
  split.
  { intros jobs. unfold sparkAlert. destruct (jseqb _ _); [| apply Nat.le_0_l].
    destruct (find _ jobs); [apply Nat.le_refl | apply Nat.le_0_l]. }
  split.
  { intros Hne jobs. unfold sparkAlert.
    destruct (jseqb _ _) eqn:E; [| reflexivity].
    apply jseqb_eq in E. congruence. }
  split.
  { intros jobs e. unfold sparkAlert. destruct (jseqb _ _); [| intros []].
    destruct (find _ jobs) as [j |] eqn:F; [| intros []].
    intros [<- | []]. apply find_first in F.
    destruct F as (b & a & -> & Hj & Hb). exists b, j, a. auto. }
  intros this html now result this1 j rest P Hname Hw J.
  destruct (parseJobsFromHTML_accepted _ _ _ _ _ P) as (processed & A & _ & V).
  assert (R : tokenIsRecent this j).
  { assert (F : Forall (tokenIsRecent this) (jobs result)).
    { rewrite A. apply accepted_Forall. eapply Forall_impl; [| exact V].
      intros p [[H1 _] _] Hv. now destruct (H1 Hv) as (_ & S2 & _). }
    rewrite J in F. now inversion F. }
  destruct R as (token & Ht & Hr).
  rewrite <- isTimeWithinHours_agrees in Hr.
  apply (@isTimeWithinHours_mono _ _ _ Hw) in Hr.
  unfold sparkAlert. rewrite Hname, jseqb_refl, J. cbn [find].
  rewrite <- Ht in Hr. rewrite Hr. reflexivity.
Qed.

(** *** From the list of services to the calls *)

Lemma serviceLoop_fetched world s services : forall i st,
  In (FetchPage s) (effects (stateOf (serviceLoop tz world i services st))) ->
  In (FetchPage s) (effects st) \/ In s services.
Proof.
  assert (Spark : forall service jobs, ~ In (FetchPage s) (sparkAlert service jobs)).
  { intros service jobs H. pose proof (sparkAlert_inside service jobs) as I.
    rewrite forallb_forall in I. apply I in H. discriminate. }
  assert (Pause : forall rest : list Service.t,
            ~ In (FetchPage s)
                match rest with [] => [] | _ :: _ => [Delay betweenRequests] end).
  { intros [| x rest] H; [exact H |]. destruct H as [H | []]. discriminate. }
  induction services as [| service rest IH]; intros i st; [cbn; auto |].
  cbn [serviceLoop].
  assert (Fetched : In (FetchPage s) (effects st ++ [FetchPage service]) ->
                    In (FetchPage s) (effects st) \/ In s (service :: rest)).
  { intros H. apply in_app_or in H. destruct H as [H | [H | []]]; [now left |].
    injection H as ->. right. now left. }
  assert (Next : forall st1,
            (In (FetchPage s) (effects st1) ->
             In (FetchPage s) (effects st) \/ In s (service :: rest)) ->
            In (FetchPage s)
               (effects (stateOf (serviceLoop tz world (S i) rest st1))) ->
            In (FetchPage s) (effects st) \/ In s (service :: rest)).
  { intros st1 H1 H. apply IH in H. destruct H as [H | H]; [auto |].
    right. now right. }
  destruct (Visit.html (world i)) as [[| c h] |].
  - apply Next. exact Fetched.
  - destruct (parseJobsFromHTML tz (scraper st) (c :: h) service (Visit.now (world i)))
      as [[result |] this1]; [| exact Fetched].
    destruct (jobs result) as [| j js].
    + apply Next. cbn [effects]. intros H. apply in_app_or in H.
      destruct H as [H | H]; [now apply Fetched | now apply Pause in H].
    + assert (Done : In (FetchPage s)
                       ((effects st ++ [FetchPage service])
                          ++ [InsertJobs service (j :: js)]
                          ++ sparkAlert service (j :: js)
                          ++ [SaveResults service (j :: js)]) ->
                     In (FetchPage s) (effects st) \/ In s (service :: rest)).
      { intros H. apply in_app_or in H. destruct H as [H | H]; [now apply Fetched |].
        destruct H as [H | H]; [discriminate |]. cbn [app] in H.
        apply in_app_or in H. destruct H as [H | [H | []]];
          [now apply Spark in H | discriminate]. }
      destruct (Visit.saved (world i)); [| exact Done].
      apply Next. cbn [effects]. intros H. apply in_app_or in H.
      destruct H as [H | H]; [now apply Done | now apply Pause in H].
  - apply Next. exact Fetched.
Qed.

(** X18. Only enabled services are fetched.  [main] ends at once when
    the list of services cannot be loaded; otherwise every page it
    fetches is the page of an entry of the list that is enabled. *)
Theorem main_fetches_enabled_services (MAX_HOURS : option jsstring)
  (servicesData : option (list Service.t)) (world : nat -> Visit.t)
  (combinedSaved : bool) :
  match main tz MAX_HOURS servicesData world combinedSaved with
  | None => servicesData = None
  | Some trace =>
      exists services,
        servicesData = Some services
        /\ forall s, In (FetchPage s) trace ->
                     In s services /\ Service.enabled s = true
  end.
Proof.
  unfold main, loadServices.
  destruct servicesData as [services |]; [| reflexivity].
  cbn [option_map]. exists services. split; [reflexivity |].
  intros s H. apply filter_In.
  unfold run in H.
  pose proof (@serviceLoop_fetched world s (filter Service.enabled services) 0
                {| scraper := constructor MAX_HOURS; allJobs := [];
                   perServiceSummary := []; effects := [] |}) as L.
  destruct (serviceLoop tz world 0 (filter Service.enabled services) _) as [st | st];
    cbn [stateOf] in L.
  - assert (H' : In (FetchPage s) (effects st)).
    { destruct (allJobs st); [| destruct combinedSaved];
        repeat (apply in_app_or in H; destruct H as [H | H]);
        try assumption;
        repeat (destruct H as [H | H]; [discriminate |]); now destruct H. }
    destruct (L H') as [[] | ?]; assumption.
  - destruct (L H) as [[] | ?]; assumption.
Qed.

End RunProperties.

(** ** The search URL *)

(** UTF-8 of a concatenation, when the second string does not begin
    with the second half of a surrogate pair. *)
Lemma utf8_app n c b : forall a,
  List.length a <= n ->
  isLowSurrogate c = false ->
  utf8 (a ++ c :: b) = utf8 a ++ utf8 (c :: b).
Proof.
  remember (c :: b) as tail eqn:T.
  induction n as [| n IH]; intros a Hn Hc.
  - destruct a; [reflexivity | simpl in Hn; lia].
  - destruct a as [| x a]; [reflexivity |].
    simpl in Hn. assert (Ha : List.length a <= n) by lia.
    pose proof (IH a Ha Hc) as E.
    cbn [app utf8].
    destruct (x <? 128)%N; [now rewrite E |].
    destruct (x <? 2048)%N; [now rewrite E |].
    destruct (isHighSurrogate x).
    + destruct a as [| d a'].
      * cbn [app]. rewrite T. cbv beta iota. rewrite Hc. reflexivity.
      * cbn [app]. destruct (isLowSurrogate d).
        -- rewrite IH by (simpl in Ha; lia || assumption). reflexivity.
        -- rewrite <- app_assoc. f_equal. exact E.
    + destruct (isLowSurrogate x); [rewrite <- app_assoc; f_equal; exact E |].
      now rewrite E.
Qed.

Lemma hexDigit_unreserved n : (n < 16)%N -> Url.isUnreserved (Url.hexDigit n) = true.
Proof.
  intros H. unfold Url.hexDigit, Url.isUnreserved.
  destruct (N.ltb_spec n 10).
  - replace ((48 <=? 48 + n) && (48 + n <=? 57))%N with true; [reflexivity |].
    symmetry. apply andb_true_iff. split; apply N.leb_le; lia.
  - replace ((65 <=? 55 + n) && (55 + n <=? 90))%N with true;
      [now rewrite orb_true_r |].
    symmetry. apply andb_true_iff. split; apply N.leb_le; lia.
Qed.

Lemma encodeByte_chars b :
  (b < 256)%N -> Forall (fun c => isEncoded c = true) (Url.encodeByte b).
Proof.
  intros Hb. unfold Url.encodeByte, isEncoded.
  destruct (b =? 32)%N; [repeat constructor |].
  destruct (Url.isUnreserved b) eqn:U; [constructor; [now rewrite U | constructor] |].
  constructor; [reflexivity |].
  constructor; [rewrite hexDigit_unreserved; [reflexivity |] |].
  - apply N.Div0.div_lt_upper_bound. lia.
  - constructor; [| constructor].
    rewrite hexDigit_unreserved; [reflexivity | apply N.mod_lt; lia].
Qed.

Lemma encode_chars s :
  Forall (fun c => (c < 65536)%N) s ->
  Forall (fun c => isEncoded c = true) (Url.encode s).
Proof.
  intros Hs. unfold Url.encode.
  pose proof (@utf8_bytes (List.length s) s (Nat.le_refl _) Hs) as B.
  induction B as [| b bytes Hb _ IH]; [constructor |].
  cbn [flat_map]. apply Forall_app. split; [now apply encodeByte_chars | exact IH].
Qed.

Lemma unreserved_ascii c : Url.isUnreserved c = true -> (c < 128)%N /\ c <> 32%N.
Proof.
  unfold Url.isUnreserved. intros H. bool_prop; lia.
Qed.

Lemma encode_unreserved s :
  Forall (fun c => Url.isUnreserved c = true) s -> Url.encode s = s.
Proof.
  intros Hs. unfold Url.encode.
  rewrite utf8_ascii
    by (eapply Forall_impl; [| exact Hs]; intros c Hc; now apply unreserved_ascii).
  induction Hs as [| c s Hc _ IH]; [reflexivity |].
  cbn [flat_map]. rewrite IH. unfold Url.encodeByte. rewrite Hc.
  destruct (unreserved_ascii c Hc) as [_ Hn].
  apply N.eqb_neq in Hn. now rewrite Hn.
Qed.

(** X19. The search URL.  The service name goes into the parameter [q]
    encoded, followed by the fixed words, and [udm=8] follows.  The
    encoded name consists of ASCII letters and digits, [*], [-], [.],
    [_], [+] and [%] only, so no character of a name can end the
    parameter or start another one; a name made of letters, digits,
    [*], [-], [.] and [_] is left as it is. *)
Theorem buildSimpleUrl_query (serviceName : jsstring) :
  Forall (fun c => (c < 65536)%N) serviceName ->
  buildSimpleUrl serviceName
  = js "https://www.google.com/search?q=" ++ Url.encode serviceName
      ++ js "+jobs+UNITED+STATES+since+yesterday&udm=8"
  /\ Forall (fun c => isEncoded c = true) (Url.encode serviceName)
  /\ (Forall (fun c => Url.isUnreserved c = true) serviceName ->
      Url.encode serviceName = serviceName).
Proof.
  intros Hs. split; [| split; [now apply encode_chars | apply encode_unreserved]].
  unfold buildSimpleUrl. cbv zeta. unfold Url.encode at 1.
  change (js " jobs UNITED STATES since yesterday")
    with (32%N :: js "jobs UNITED STATES since yesterday").
  rewrite (@utf8_app (List.length serviceName)) by (reflexivity || apply Nat.le_refl).
  rewrite flat_map_app. fold (Url.encode serviceName).
  replace (flat_map Url.encodeByte
             (utf8 (32%N :: js "jobs UNITED STATES since yesterday")))
    with (js "+jobs+UNITED+STATES+since+yesterday") by (vm_compute; reflexivity).
  replace (Url.encode (js "8")) with (js "8") by (vm_compute; reflexivity).
  rewrite <- !app_assoc. reflexivity.
Qed.

(** ** Notifications *)

(** X20. The clock of the notifications is the clock of the records.
    [formatCurrentTimeString] writes the hour of the 12-hour clock, from
    1 to 12 and without a leading zero, the minute in two digits and
    "am" or "pm"; hour, minute and meridiem are those [formatDateTime]
    writes for the same instant, where the hour is padded to two digits
    and the meridiem is in capitals. *)
Theorem formatCurrentTimeString_clock (tz : TimeZone) (now : Z) :
  exists datePart H M AP,
    formatCurrentTimeString tz now = H ++ js ":" ++ M ++ js " " ++ toLowerCase AP
    /\ formatDateTime tz (Some now)
       = datePart ++ js " " ++ padStart 2 H ++ js ":" ++ M ++ js " " ++ AP
    /\ parseIntAny H = ofZ (hour12 (getHours tz now))
    /\ (1 <= hour12 (getHours tz now) <= 12)%Z
    /\ parseIntAny M = ofZ (getMinutes tz now)
    /\ List.length M = 2
    /\ ranAtMsg tz now
       = js "Scraper ran at " ++ H ++ js ":" ++ M ++ js " " ++ toLowerCase AP
           ++ js ".".
Proof.
  exists (Z_toString (getFullYear tz now) ++ js "-"
            ++ padStart 2 (Z_toString (getMonth tz now + 1)) ++ js "-"
            ++ padStart 2 (Z_toString (getDate tz now))),
         (Z_toString (hour12 (getHours tz now))),
         (padStart 2 (Z_toString (getMinutes tz now))),
         (if (12 <=? getHours tz now)%Z then js "PM" else js "AM").
  pose proof (hour12_range (getHours tz now)) as Hh.
  pose proof (getMinutes_range tz now) as Hm.
  destruct (@padded_number 0 (hour12 (getHours tz now))) as (H1 & H2 & H3);
    [unfold maxSafe; lia |].
  change (padStart 0 (Z_toString (hour12 (getHours tz now))))
    with (Z_toString (hour12 (getHours tz now))) in H1, H2, H3.
  destruct (@padded_number 2 (getMinutes tz now)) as (M1 & M2 & M3);
    [unfold maxSafe; lia |].
  assert (PM : toLowerCase (js "PM") = js "pm") by (vm_compute; reflexivity).
  assert (AM : toLowerCase (js "AM") = js "am") by (vm_compute; reflexivity).
  assert (E : formatCurrentTimeString tz now
              = Z_toString (hour12 (getHours tz now)) ++ js ":"
                  ++ padStart 2 (Z_toString (getMinutes tz now)) ++ js " "
                  ++ toLowerCase (if (12 <=? getHours tz now)%Z
                                  then js "PM" else js "AM")).
  { unfold formatCurrentTimeString, hour12.
    destruct (12 <=? getHours tz now)%Z; [now rewrite PM | now rewrite AM]. }
  split; [exact E |].
  split; [rewrite formatDateTime_parts; now rewrite <- !app_assoc |].
  split; [now rewrite parseIntAny_digits by assumption |].
  split; [exact Hh |].
  split; [now rewrite parseIntAny_digits by assumption |].
  split; [apply padded_length; simpl; lia |].
  unfold ranAtMsg. rewrite E. now rewrite <- !app_assoc.
Qed.

Lemma split_length_cons sep (a b : jsstring) :
  Forall (fun c => unit_eqb c sep = false) a ->
  List.length (split sep (a ++ sep :: b)) = S (List.length (split sep b)).
Proof. intros H. now rewrite split_app_sep. Qed.

Lemma join_entries (entries : list jsstring) : forall pre,
  entries <> [] ->
  Forall (fun c => unit_eqb c comma = false) pre ->
  Forall (Forall (fun c => unit_eqb c comma = false)) entries ->
  List.length (split comma (pre ++ join (js ", ") entries)) = List.length entries.
Proof.
  induction entries as [| e rest IH]; intros pre Hne Hpre He; [congruence |].
  inversion He as [| ? ? He1 He2]; subst.
  destruct rest as [| e2 rest].
  - cbn [join]. rewrite split_no_sep; [reflexivity |].
    apply Forall_app. split; assumption.
  - change (join (js ", ") (e :: e2 :: rest))
      with (e ++ comma :: ([space] ++ join (js ", ") (e2 :: rest))).
    rewrite app_assoc, split_length_cons by (apply Forall_app; split; assumption).
    rewrite IH; [reflexivity | discriminate | repeat constructor | exact He2].
Qed.

(** X21. The summary of a run is two messages at most, the header with
    the time first; the counts are posted only when the header was.
    Without services the counts message reads "No services scraped";
    with services whose names have no comma it has one entry
    "name qualified/total" per service, separated by commas. *)
Theorem sendNtfyRunSummary_messages (tz : TimeZone) (now : Z)
  (perServiceSummary : list Summary.t) :
  (forall headerPosted,
     exists rest,
       sendNtfyRunSummary tz now perServiceSummary headerPosted
       = ranAtMsg tz now :: rest
       /\ (rest = [] \/ rest = [countsMsg perServiceSummary])
       /\ (headerPosted = false -> rest = []))
  /\ (perServiceSummary = [] ->
      countsMsg perServiceSummary = js "No services scraped")
  /\ (perServiceSummary <> [] ->
      Forall (fun s => ~ In comma (Summary.name s)) perServiceSummary ->
      List.length (split comma (countsMsg perServiceSummary))
      = List.length perServiceSummary).
Proof.
  split.
  { intros [|]; eexists; (split; [reflexivity |]); split; auto; discriminate. }
  split; [now intros -> |].
  intros Hne Hnames. unfold countsMsg.
  destruct perServiceSummary as [| s rest]; [congruence |].
  cbn [List.length Nat.ltb Nat.leb].
  change (S (List.length rest)) with (List.length (s :: rest)).
  rewrite <- (length_map (fun s => Summary.name s ++ js " "
                                     ++ countToString (Summary.qualified s)
                                     ++ js "/" ++ countToString (Summary.total s))
                (s :: rest)).
  apply (@join_entries _ []); [discriminate | constructor |].
  apply Forall_map. eapply Forall_impl; [| exact Hnames].
  intros e Hn.
  assert (D : forall n, Forall (fun c => unit_eqb c comma = false) (countToString n)).
  { intros n. eapply Forall_impl; [| apply N_toString_digits].
    intros c Hc. now apply digit_not. }
  apply Forall_app. split.
  - apply Forall_forall. intros c Hc. unfold unit_eqb. apply N.eqb_neq.
    intros ->. now apply Hn.
  - repeat (apply Forall_app; split); try apply D; repeat constructor.
Qed.

(** X24. The body of the Spark alert.  The location is the city and the
    state joined by a comma and a space when both are present, and the
    one that is present otherwise, without any comma; the time is the
    token of the record, or the word "recently" when the record has no
    token or an empty one, so it is never empty. *)
Theorem sendNtfySparkAlert_body (city state : jsstring)
  (relativeString : option jsstring) :
  exists loc rel,
    sendNtfySparkAlert city state relativeString
    = js "Alert! Spark job found in " ++ loc ++ js " in last " ++ rel ++ js "!"
    /\ rel <> []
    /\ (relativeString = None \/ relativeString = Some [] -> rel = js "recently")
    /\ (forall r, relativeString = Some r -> r <> [] -> rel = r)
    /\ (city <> [] -> state <> [] -> loc = city ++ js ", " ++ state)
    /\ (state = [] -> loc = city)
    /\ (city = [] -> loc = state).
Proof.
  unfold sendNtfySparkAlert.
  exists (join (js ", ") (filter nonEmpty [city; state])),
         (match relativeString with
          | Some ((_ :: _) as r) => r
          | _ => js "recently"
          end).
  split; [reflexivity |].
  split; [destruct relativeString as [[| c r] |]; discriminate |].
  split; [intros [-> | ->]; reflexivity |].
  split; [intros r -> Hr; destruct r; [congruence | reflexivity] |].
  split; [intros Hc Hs; destruct city, state; try congruence; reflexivity |].
  split.
  - intros ->. destruct city; [reflexivity |]. cbn [filter nonEmpty join]. reflexivity.
  - intros ->. destruct state; reflexivity.
Qed.

(** ** Edges of the validator and of the ISO conversion *)

(** X22. The validator needs a time token and a posted date.  In a
    scraper that has not handed out a token yet, as the constructor
    leaves it, no record is valid; and a record whose [posted_date] is
    empty is not valid in any state.  A record that is valid is valid
    for every descriptor without a keyword list. *)
Theorem isValidJobData_needs_token :
  (forall MAX_HOURS jobData service,
     isValidJobData (constructor MAX_HOURS) jobData service = false)
  /\ (forall this jobData service,
        _lastTimeString this = None ->
        isValidJobData this jobData service = false)
  /\ (forall this jobData service,
        Job.posted_date jobData = [] ->
        isValidJobData this jobData service = false)
  /\ (forall this jobData service1 service2,
        Service.validationWords service2 = None ->
        isValidJobData this jobData service1 = true ->
        isValidJobData this jobData service2 = true).
Proof.
  assert (L : forall this jobData service,
            _lastTimeString this = None ->
            isValidJobData this jobData service = false).
  { intros this j service H. unfold isValidJobData, isWithin6Hours. rewrite H.
    destruct (negb (nonEmpty (Job.posted_date j)));
      now rewrite andb_false_r. }
  split; [intros; now apply L |]. split; [exact L |]. split.
  - intros this j service H. unfold isValidJobData, isWithin6Hours. rewrite H.
    now rewrite andb_false_r.
  - intros this j s1 s2 H. unfold isValidJobData. rewrite H.
    intros V. apply andb_true_iff in V. destruct V as [V _].
    now rewrite V.
Qed.

Lemma TimeClip_Some x t : TimeClip x = Some t -> TimeClip t = Some t.
Proof.
  unfold TimeClip. destruct (Z.abs x <=? 8640000000000000)%Z eqn:B; [| discriminate].
  intros H. assert (E : x = t) by congruence. subst x. now rewrite B.
Qed.

Lemma newDate_Some tz year month day hours minutes t :
  newDate tz year month day hours minutes = Some t -> TimeClip t = Some t.
Proof.
  unfold newDate.
  destruct (toInteger year); [| discriminate].
  destruct (toInteger month); [| discriminate].
  destruct (toInteger day); [| discriminate].
  destruct (toInteger hours); [| discriminate].
  destruct (toInteger minutes); [| discriminate].
  cbv zeta. apply TimeClip_Some.
Qed.

Lemma newDate_NaN tz year month day hours minutes :
  day = NaN \/ minutes = NaN ->
  newDate tz year month day hours minutes = None.
Proof.
  unfold newDate. intros [-> | ->]; cbn [toInteger].
  - destruct (toInteger year); [| reflexivity].
    destruct (toInteger month); reflexivity.
  - destruct (toInteger year); [| reflexivity].
    destruct (toInteger month); [| reflexivity].
    destruct (toInteger day); [| reflexivity].
    destruct (toInteger hours); reflexivity.
Qed.

(** X23. [convertToISOString] returns [null] instead of throwing.  It
    returns [null] for the empty string, for a string without a space
    (there is no time part to split), for the string of an invalid date,
    and for every string whose date part has fewer than three parts
    between hyphens or whose time part has fewer than two parts between
    colons (the missing argument of the date is NaN).  Whatever it
    returns otherwise is the ISO form of a date inside the range.  The
    parts are read as the language reads numbers: a month "1.5", a year
    "0x7E8" or "1e3" give a date. *)
Theorem convertToISOString_null (tz : TimeZone) :
  convertToISOString tz [] = None
  /\ (forall s, ~ In space s -> convertToISOString tz s = None)
  /\ convertToISOString tz (formatDateTime tz None) = None
  /\ (forall s datePart timePart rest,
        split space s = datePart :: timePart :: rest ->
        List.length (split hyphen datePart) < 3
        \/ List.length (split colon timePart) < 2 ->
        convertToISOString tz s = None)
  /\ (forall s iso,
        convertToISOString tz s = Some iso ->
        exists t, iso = toISOString t /\ TimeClip t = Some t)
  /\ (convertToISOString 0%Z (js "2024-1.5-01 01:15 PM")
      = Some (js "2024-01-01T13:15:00.000Z")
      /\ convertToISOString 0%Z (js "0x7E8-03-01 01:15 AM")
         = Some (js "2024-03-01T01:15:00.000Z")
      /\ convertToISOString 0%Z (js "1e3-03-01 01:15 AM")
         = Some (js "1000-03-01T01:15:00.000Z")).
Proof.
  split; [reflexivity |]. split.
  { intros s Hs. unfold convertToISOString.
    destruct (negb (nonEmpty s)); [reflexivity |].
    unfold dateArguments.
    rewrite split_no_sep; [reflexivity |].
    apply Forall_forall. intros c Hc. unfold unit_eqb. apply N.eqb_neq.
    intros ->. now apply Hs. }
  split; [vm_compute; reflexivity |].
  split.
  { intros s datePart timePart rest E Hshort. unfold convertToISOString.
    destruct (negb (nonEmpty s)); [reflexivity |].
    unfold dateArguments. rewrite E.
    change (nth_error (datePart :: timePart :: rest) 0) with (Some datePart).
    change (nth_error (datePart :: timePart :: rest) 1) with (Some timePart).
    cbv beta iota zeta.
    rewrite newDate_NaN; [reflexivity |].
    destruct Hshort as [H | H]; [left | right].
    - assert (N : nth_error (split hyphen datePart) 2 = None)
        by (apply nth_error_None; lia).
      now rewrite N.
    - assert (N : nth_error (split colon timePart) 1 = None)
        by (apply nth_error_None; lia).
      now rewrite N. }
  split; [| repeat split; vm_compute; reflexivity].
  intros s iso. unfold convertToISOString.
  destruct (negb (nonEmpty s)); [discriminate |].
  destruct (dateArguments s) as [[[[[y m] d] h] mi] |]; [| discriminate].
  destruct (newDate tz y m d h mi) as [t |] eqn:D; [| discriminate].
  intros H. exists t. split; [congruence | now apply newDate_Some in D].
Qed.

(** ** Concrete instances of the further properties *)

Lemma parseJobsFromHTML_only_qualified_witness :
  (Forall (fun j => structurallyComplete j
                    /\ tokenIsRecent (constructor None) j
                    /\ passesAllowlist j (serviceWith [JString driverCyrillic])
                    /\ Job.service j
                       = Service.name (serviceWith [JString driverCyrillic]))
          (jobs (resultOf (fst driverCall)))
   /\ List.length (jobs (resultOf (fst driverCall)))
      <= totalFound (resultOf (fst driverCall)))
  /\ map Job.title (jobs (resultOf (fst driverCall)))
     = [driverCyrillicCapitals ++ js " Courier"].
Proof.
  split; [| vm_compute; reflexivity].
  apply (@parseJobsFromHTML_only_qualified (domOf driverCards) 0%Z
           (constructor None) twoTimes (serviceWith [JString driverCyrillic])
           march1st (resultOf (fst driverCall)) (snd driverCall)).
  vm_compute. reflexivity.
Defined.


Lemma convertToISOString_formatDateTime_witness :
  convertToISOString 0%Z
    (fst (convertToActualDateTime 0%Z (constructor None) (minutesAgo 59) march1st))
  = option_map toISOString
      (TimeClip (minuteOf 0%Z (march1st - 59 * msPerMinute))).
Proof.
  apply (proj1 (proj2 (convertToISOString_formatDateTime 0%Z)) (constructor None)
           march1st InMinutes (Z_toString 59) (minutesAgo 59)).
  - apply minutesAgo_token. lia.
  - apply Z.leb_le. vm_compute. reflexivity.
  - vm_compute. reflexivity.
  - split; apply Z.leb_le; vm_compute; reflexivity.
Defined.


Lemma generateFingerprint_collisions_witness :
  generateFingerprint jobAustin = generateFingerprint jobDallas
  <-> firstn 24 (utf8 (fingerprintData jobAustin))
      = firstn 24 (utf8 (fingerprintData jobDallas)).
Proof.
  destruct (@generateFingerprint_collisions jobAustin jobDallas) as [H _];
    [apply Forall_below; vm_compute; reflexivity .. | exact H].
Defined.

Lemma run_reports_every_service_witness :
  exists trace,
    @run (domOf threeCards) 0%Z (constructor None) [service2h] quietWorld true
    = trace
        ++ [SaveCombinedResults
              (List.concat
                 (map jobs
                    (@pagesOf (domOf threeCards) 0%Z (constructor None) quietWorld
                       0 [service2h])));
            RunSummary
              (@summariesOf (domOf threeCards) 0%Z (constructor None) quietWorld
                 0 [service2h])]
    /\ fetches trace = 1.
Proof.
  destruct (@run_reports_every_service (domOf threeCards) 0%Z (constructor None)
              [service2h] quietWorld true)
    as (trace & E & N & _).
  - constructor; [| constructor].
    split; [discriminate | reflexivity].
  - reflexivity.
  - exists trace. split; [exact E | exact N].
Defined.

Lemma run_stops_at_failed_save_witness :
  exists trace,
    @run (domOf threeCards) 0%Z (constructor None) ([] ++ service2h :: [service2h])
      failingWorld true
    = trace
        ++ [FetchPage service2h;
            InsertJobs service2h
              (jobs (@parsedPage (domOf threeCards) 0%Z (constructor None)
                       service2h (failingWorld 0)))]
        ++ sparkAlert service2h
             (jobs (@parsedPage (domOf threeCards) 0%Z (constructor None)
                      service2h (failingWorld 0)))
        ++ [SaveResults service2h
              (jobs (@parsedPage (domOf threeCards) 0%Z (constructor None)
                       service2h (failingWorld 0)))]
    /\ fetches trace = 0
    /\ forallb ofLoop trace = true.
Proof.
  apply (@run_stops_at_failed_save (domOf threeCards) 0%Z (constructor None) []
           service2h [service2h] failingWorld true).
  - constructor.
  - vm_compute. discriminate.
  - reflexivity.
Defined.

Lemma sparkAlert_first_within_two_hours_witness :
  sparkAlert service2h (jobs (resultOf (fst (threeCardsCall (Some (js "2"))))))
  = [SparkAlert (js "Austin") (js "TX") (Some (js "1 hour ago"))].
Proof.
  apply (proj2 (proj2 (proj2
           (@sparkAlert_first_within_two_hours (domOf threeCards) 0%Z service2h)))
           (constructor (Some (js "2"))) twoTimes march1st
           (resultOf (fst (threeCardsCall (Some (js "2")))))
           (snd (threeCardsCall (Some (js "2"))))
           (hd jobAustin (jobs (resultOf (fst (threeCardsCall (Some (js "2")))))))
           (tl (jobs (resultOf (fst (threeCardsCall (Some (js "2")))))))).
  - vm_compute. reflexivity.
  - reflexivity.
  - vm_compute. reflexivity.
  - vm_compute. reflexivity.
Defined.

Lemma buildSimpleUrl_query_witness :
  buildSimpleUrl (js "spark_delivery")
  = js "https://www.google.com/search?q=spark_delivery+jobs+UNITED+STATES+since+yesterday&udm=8".
Proof.
  destruct (@buildSimpleUrl_query (js "spark_delivery")) as (E & _ & U).
  - apply Forall_below. vm_compute. reflexivity.
  - rewrite E, U; [vm_compute; reflexivity |].
    apply Forall_true. vm_compute. reflexivity.
Defined.
